(** * The inbox multiplexer of the Nitro/Avail adapter (package [arbstate])

    A shallow embedding of [parseSequencerMessage], [RecoverPayloadFromDasBatch]
    and the [inboxMultiplexer] state machine ([Pop], [getNextMsg],
    [IsCachedSegementLast], [advanceSequencerMsg], [advanceSubMsg]), followed by
    the properties of the specification that concern them.

    Conventions of the embedding:
    - a [uint64] is a [Z]; every addition the source performs on one is
      written with its wrap-around ([add64]); the conversion [int(x)] of a
      [uint64] is [int_of_uint64];
    - a byte is a [Byte.byte], a [[]byte] a [list byte];
    - a Go result [(v, err)] whose value is ignored when [err != nil] is a
      [result]; [Pop] and [getNextMsg], for which the pair [(nil, nil)] has a
      meaning of its own, return the pair;
    - a call that does not return (a run-time panic, or [log.Crit], which
      exits the process) is [Halts];
    - collaborators that live outside the package (header-byte classifier,
      brotli, zero-heavy and RLP decoders, DAS certificate code, the constants
      of [arbostypes]) are the fields of type classes, the [InboxBackend] and
      [DataAvailabilityProvider] interfaces a class and a record of methods. *)

From Stdlib Require Import ZArith List Bool Lia.
From Stdlib.Strings Require Import Byte.
Import ListNotations.
Open Scope Z_scope.

Set Implicit Arguments.

(** ** Machine integers and bytes *)

Definition byte := Byte.byte.

Definition byteZ (b : byte) : Z := Z.of_N (Byte.to_N b).

Definition len {A : Type} (l : list A) : Z := Z.of_nat (length l).

Definition uint64 (x : Z) : Prop := 0 <= x < 2 ^ 64.

Definition add64 (a b : Z) : Z := (a + b) mod 2 ^ 64.

(** [int(x)] for [x : uint64] on a 64-bit target: the same bits, read as a
    two's complement number. *)
Definition int_of_uint64 (x : Z) : Z :=
  if x <? 2 ^ 63 then x else x - 2 ^ 64.

(** Addition on [int], which wraps silently in Go. *)
Definition addInt (a b : Z) : Z := (a + b + 2 ^ 63) mod 2 ^ 64 - 2 ^ 63.

(** [binary.BigEndian.Uint64(b)], on the first eight bytes of [b]. *)
Definition BigEndianUint64 (b : list byte) : Z :=
  fold_left (fun acc x => acc * 256 + byteZ x) (firstn 8 b) 0.

(** [data[lo:hi]]. *)
Definition slice {A : Type} (lo hi : nat) (data : list A) : list A :=
  firstn (hi - lo) (skipn lo data).

Definition Hash := list byte.
Definition Address := list byte.

Definition Hash_eqb (a b : Hash) : bool :=
  if list_eq_dec Byte.byte_eq_dec a b then true else false.

(** ** Errors and ways of not returning *)

Inductive error : Type :=
| ErrMissingL1Header
    (* "sequencer message missing L1 header" *)
| ErrFatalNodeOutOfDate (headerByte : byte)
    (* arbosState.ErrFatalNodeOutOfDate, wrapped with the header byte *)
| ErrNoBlobReader
    (* "blob batch payload was encountered but no BlobReader was configured" *)
| ErrHashMismatch
| ErrNotListOfHashes
    (* "blob batch data is not a list of hashes as expected" *)
| ErrGetBlobs (cause : error)
    (* "failed to get blobs: %w" *)
| ErrExternal (id : nat).
    (* an error value produced by the Backend or by a reader *)

Inductive result (A : Type) : Type :=
| Ok (a : A)
| Err (e : error).
Arguments Err {A} e.

Inductive halt : Type :=
| RuntimePanic   (* nil dereference, index out of range *)
| CritExit.      (* log.Crit: the process exits *)

Inductive outcome (A : Type) : Type :=
| Returns (a : A)
| Halts (h : halt).
Arguments Halts {A} h.

Definition obind {A B : Type} (c : outcome A) (k : A -> outcome B) : outcome B :=
  match c with
  | Returns a => k a
  | Halts h => Halts h
  end.

Notation "x <- c ;; k" := (obind c (fun x => k))
  (at level 61, c at next level, right associativity).

(** What a call that threads a state returned to its caller, if it did, and
    the state it left. *)
Definition returned {A S : Type} (o : outcome (A * S)) : option A :=
  match o with
  | Returns (a, _) => Some a
  | Halts _ => None
  end.

Definition stateAfter {A S : Type} (o : outcome (A * S)) : option S :=
  match o with
  | Returns (_, s) => Some s
  | Halts _ => None
  end.

(** Two calls end alike: both halt for the same reason, or both return and
    what they return is related. *)
Definition outcomeRel {A1 A2 : Type} (Q : A1 -> A2 -> Prop)
    (o1 : outcome A1) (o2 : outcome A2) : Prop :=
  match o1, o2 with
  | Returns a1, Returns a2 => Q a1 a2
  | Halts h1, Halts h2 => h1 = h2
  | _, _ => False
  end.

(** ** Package [arbostypes]: the messages handed to the caller *)

Module arbostypes.

Record L1IncomingMessageHeader : Type := {
  Kind : Z;
  Poster : Address;
  BlockNumber : Z;
  Timestamp : Z;
  RequestId : option Hash;
  L1BaseFee : Z
}.

Record L1IncomingMessage : Type := {
  Header : option L1IncomingMessageHeader;
  L2msg : list byte
}.

(** [Message] is a pointer in the source: a delayed message read from the
    Backend may be nil. *)
Record MessageWithMetadata : Type := {
  Message : option L1IncomingMessage;
  DelayedMessagesRead : Z
}.

(** The constants of the package that the multiplexer uses; the file that
    declares them is not among the sources. *)
Class Constants : Type := {
  InvalidL1Message : L1IncomingMessage;
  L1MessageType_L2Message : Z;
  MaxL2MessageSize : Z;
  BatchPosterAddress : Address   (* l1pricing.BatchPosterAddress *)
}.

End arbostypes.

(** ** Collaborators outside the package *)

(** The header-byte predicates ([IsDASMessageHeaderByte] and the like). *)
Class HeaderByteClassifier : Type := {
  IsL1AuthenticatedMessageHeaderByte : byte -> bool;
  IsKnownHeaderByte : byte -> bool;
  IsDASMessageHeaderByte : byte -> bool;
  IsBlobHashesHeaderByte : byte -> bool;
  IsZeroheavyEncodedHeaderByte : byte -> bool;
  IsBrotliMessageHeaderByte : byte -> bool
}.

(** The byte-level decoders.  [None] is a non-nil error of the decoder. *)
Class Codecs : Type := {
  (* io.ReadAll(io.LimitReader(zeroheavy.NewZeroheavyDecoder(r), limit)) *)
  zeroheavyReadAll : list byte -> Z -> option (list byte);
  (* arbcompress.Decompress(data, maxSize) *)
  Decompress : list byte -> Z -> option (list byte);
  (* rlp.NewStream(reader, inputLimit) and its two decoding methods *)
  RlpStream : Type;
  NewStream : list byte -> Z -> RlpStream;
  DecodeBytes : RlpStream -> option (list byte * RlpStream);
  StreamUint64 : RlpStream -> option Z
}.

Record DataAvailabilityCertificate : Type := {
  KeysetHash : Hash;
  DataHash : Hash;
  Timeout : Z;
  SignersMask : Z;
  Sig : list byte;
  Version : Z
}.

(** Certificate and keyset code of the DAS, and the hash functions. *)
Class DasCodec : Type := {
  Keyset : Type;
  DeserializeDASCertFrom : list byte -> option DataAvailabilityCertificate;
  DeserializeKeyset : list byte -> bool -> option Keyset;
  SerializeSignableFields : DataAvailabilityCertificate -> list byte;
  (* keyset.VerifySignature: [None] is a nil error *)
  VerifySignature : Keyset -> Z -> list byte -> list byte -> option error;
  FlatHashToTreeHash : Hash -> Hash;
  Keccak256Hash : list byte -> Hash;
  dastreeHash : list byte -> Hash
}.

(** [DataAvailabilityReader.GetByHash]. *)
Definition DataAvailabilityReader : Type := Hash -> result (list byte).

(** [KeysetValidationMode], a [uint8], and its three constants. *)
Definition KeysetValidationMode : Type := Z.
Definition KeysetValidate : KeysetValidationMode := 0.
Definition KeysetPanicIfInvalid : KeysetValidationMode := 1.
Definition KeysetDontValidate : KeysetValidationMode := 2.

(** KZG blobs and their decoder ([blobs.DecodeBlobs]). *)
Class BlobCodec : Type := {
  Blob : Type;
  DecodeBlobs : list Blob -> option (list byte)
}.

(** [BlobReader.GetBlobs], by batch block hash and versioned hashes. *)
Definition BlobReader `{BlobCodec} : Type := Hash -> list Hash -> result (list Blob).

(** The [DataAvailabilityProvider] interface.  [parseSequencerMessage] is the
    only caller in the package and passes [nil] for [preimages]; the context
    carries no data. *)
Record DataAvailabilityProvider : Type := {
  IsValidHeaderByte : byte -> bool;
  RecoverPayloadFromBatch :
    Z -> Hash -> list byte -> KeysetValidationMode ->
    outcome (result (option (list byte)))
}.

(** The [InboxBackend] interface over a type [B] of backend states.  The three
    observers and [ReadDelayedInbox] leave the state as it is. *)
Class InboxBackend (B : Type) : Type := {
  PeekSequencerInbox : B -> result (list byte * Hash);
  GetSequencerInboxPosition : B -> Z;
  AdvanceSequencerInbox : B -> B;
  GetPositionWithinMessage : B -> Z;
  SetPositionWithinMessage : Z -> B -> B;
  ReadDelayedInbox : Z -> B -> result (option arbostypes.L1IncomingMessage)
}.

(** ** Constants of the package *)

Definition MaxDecompressedLen : Z := 1024 * 1024 * 16.
Definition maxZeroheavyDecompressedLen : Z := 101 * MaxDecompressedLen / 100 + 64.
Definition MaxSegmentsPerSequencerMessage : Z := 100 * 1024.
Definition MinLifetimeSecondsForDataAvailabilityCert : Z := 7 * 24 * 60 * 60.

Definition BatchSegmentKindL2Message : byte := Byte.x00.
Definition BatchSegmentKindL2MessageBrotli : byte := Byte.x01.
Definition BatchSegmentKindDelayedMessages : byte := Byte.x02.
Definition BatchSegmentKindAdvanceTimestamp : byte := Byte.x03.
Definition BatchSegmentKindAdvanceL1BlockNumber : byte := Byte.x04.

Record sequencerMessage : Type := {
  minTimestamp : Z;
  maxTimestamp : Z;
  minL1Block : Z;
  maxL1Block : Z;
  afterDelayedMessages : Z;
  segments : list (list byte)
}.

(** ** The two providers of the package *)

Section Providers.

Context {das : DasCodec} {bc : BlobCodec} {hb : HeaderByteClassifier}.

(** The closure [getByHash] of [RecoverPayloadFromDasBatch]. *)
Definition getByHash (dasReader : DataAvailabilityReader) (version : Z)
    (hash : Hash) : result (list byte) :=
  let newHash := if version =? 0 then FlatHashToTreeHash hash else hash in
  let fetched :=
    match dasReader newHash with
    | Err e => if negb (Hash_eqb hash newHash) then dasReader hash else Err e
    | Ok preimage => Ok preimage
    end in
  match fetched with
  | Err e => Err e
  | Ok preimage =>
      if ((version =? 0) && negb (Hash_eqb (Keccak256Hash preimage) hash))
         || ((version =? 1) && negb (Hash_eqb (dastreeHash preimage) hash))
      then Err ErrHashMismatch
      else Ok preimage
  end.

(** [RecoverPayloadFromDasBatch] with [preimages == nil], as
    [parseSequencerMessage] calls it: no preimage is recorded.  A payload
    the reader returns is never told apart from a nil one by the caller
    when it is empty, so the reader's bytes are a plain list. *)
Definition RecoverPayloadFromDasBatch (batchNum : Z) (sequencerMsg : list byte)
    (dasReader : DataAvailabilityReader)
    (keysetValidationMode : KeysetValidationMode)
    : outcome (result (option (list byte))) :=
  if len sequencerMsg <? 40 then Halts RuntimePanic (* sequencerMsg[40:] *) else
  match DeserializeDASCertFrom (skipn 40 sequencerMsg) with
  | None => Returns (Ok None)
  | Some cert =>
      let version := Version cert in
      if 2 <=? version then Returns (Ok None) else
      match getByHash dasReader version (KeysetHash cert) with
      | Err e => Returns (Err e)
      | Ok keysetPreimage =>
          match DeserializeKeyset keysetPreimage
                  (keysetValidationMode =? KeysetDontValidate) with
          | None =>
              if keysetValidationMode =? KeysetPanicIfInvalid
              then Halts CritExit
              else Returns (Ok None)
          | Some keyset =>
              match VerifySignature keyset (SignersMask cert)
                      (SerializeSignableFields cert) (Sig cert) with
              | Some _ => Returns (Ok None)
              | None =>
                  let maxTimestamp := BigEndianUint64 (slice 8 16 sequencerMsg) in
                  if Timeout cert <?
                       add64 maxTimestamp MinLifetimeSecondsForDataAvailabilityCert
                  then Returns (Ok None)
                  else
                    match getByHash dasReader version (DataHash cert) with
                    | Err e => Returns (Err e)
                    | Ok payload => Returns (Ok (Some payload))
                    end
              end
          end
      end
  end.

Definition NewDAProviderDAS (dasReader : DataAvailabilityReader)
    : DataAvailabilityProvider :=
  {| IsValidHeaderByte := IsDASMessageHeaderByte;
     RecoverPayloadFromBatch := fun batchNum _ sequencerMsg mode =>
       RecoverPayloadFromDasBatch batchNum sequencerMsg dasReader mode |}.

(** [blobHashes[i*32:(i+1)*32]] for [i*32 < len(blobHashes)]; the length is
    a multiple of 32 where this is called. *)
Fixpoint versionedHashesOf (n : nat) (blobHashes : list byte) : list Hash :=
  match n with
  | O => []
  | S n' => firstn 32 blobHashes :: versionedHashesOf n' (skipn 32 blobHashes)
  end.

Definition blobRecoverPayloadFromBatch (blobReader : BlobReader)
    (batchNum : Z) (batchBlockHash : Hash) (sequencerMsg : list byte)
    (keysetValidationMode : KeysetValidationMode)
    : outcome (result (option (list byte))) :=
  if len sequencerMsg <? 41 then Halts RuntimePanic (* sequencerMsg[41:] *) else
  let blobHashes := skipn 41 sequencerMsg in
  if negb (len blobHashes mod 32 =? 0) then Returns (Err ErrNotListOfHashes) else
  let versionedHashes :=
    versionedHashesOf (Z.to_nat (len blobHashes / 32)) blobHashes in
  match blobReader batchBlockHash versionedHashes with
  | Err e => Returns (Err (ErrGetBlobs e))
  | Ok kzgBlobs =>
      match DecodeBlobs kzgBlobs with
      | None => Returns (Ok None)
      | Some payload => Returns (Ok (Some payload))
      end
  end.

Definition NewDAProviderBlobReader (blobReader : BlobReader)
    : DataAvailabilityProvider :=
  {| IsValidHeaderByte := IsBlobHashesHeaderByte;
     RecoverPayloadFromBatch := blobRecoverPayloadFromBatch blobReader |}.

End Providers.

(** ** The staged parser *)

Section Parser.

Context {hb : HeaderByteClassifier} {cd : Codecs}.

(** The segment loop of stage 3.  [room] is
    [MaxSegmentsPerSequencerMessage - len(segments)]: the loop stops at the
    first decoding error, or when a segment is decoded and there is no
    room left for it. *)
Fixpoint readSegments (room : nat) (stream : RlpStream)
    (segs : list (list byte)) : list (list byte) :=
  match DecodeBytes stream with
  | None => segs
  | Some (segment, stream') =>
      match room with
      | O => segs
      | S room' => readSegments room' stream' (segs ++ [segment])
      end
  end.

Definition withSegments (m : sequencerMessage) (segs : list (list byte))
    : sequencerMessage :=
  {| minTimestamp := minTimestamp m;
     maxTimestamp := maxTimestamp m;
     minL1Block := minL1Block m;
     maxL1Block := maxL1Block m;
     afterDelayedMessages := afterDelayedMessages m;
     segments := segs |}.

(** Stage 3: brotli, then the list of segments. *)
Definition stageBrotli (parsedMsg : sequencerMessage) (payload : list byte)
    : sequencerMessage :=
  match payload with
  | b :: body =>
      if IsBrotliMessageHeaderByte b then
        match Decompress body MaxDecompressedLen with
        | Some decompressed =>
            withSegments parsedMsg
              (readSegments
                 (Z.to_nat (MaxSegmentsPerSequencerMessage - len (segments parsedMsg)))
                 (NewStream decompressed MaxDecompressedLen)
                 (segments parsedMsg))
        | None => parsedMsg
        end
      else parsedMsg
  | [] => parsedMsg
  end.

(** Stage 2, then stage 3. *)
Definition stageZeroheavy (parsedMsg : sequencerMessage) (payload : list byte)
    : sequencerMessage :=
  match payload with
  | b :: body =>
      if IsZeroheavyEncodedHeaderByte b then
        match zeroheavyReadAll body maxZeroheavyDecompressedLen with
        | None => parsedMsg
        | Some pl => stageBrotli parsedMsg pl
        end
      else stageBrotli parsedMsg payload
  | [] => stageBrotli parsedMsg payload
  end.

(** The provider loop of stage 1: the first non-nil provider that claims
    the header byte. *)
Fixpoint firstClaiming (daProviders : list (option DataAvailabilityProvider))
    (b : byte) : option DataAvailabilityProvider :=
  match daProviders with
  | [] => None
  | Some provider :: rest =>
      if IsValidHeaderByte provider b then Some provider
      else firstClaiming rest b
  | None :: rest => firstClaiming rest b
  end.

(** The value [parsedMsg] starts with: the five header fields and no
    segment. *)
Definition headerOnly (data : list byte) : sequencerMessage :=
  {| minTimestamp := BigEndianUint64 (slice 0 8 data);
     maxTimestamp := BigEndianUint64 (slice 8 16 data);
     minL1Block := BigEndianUint64 (slice 16 24 data);
     maxL1Block := BigEndianUint64 (slice 24 32 data);
     afterDelayedMessages := BigEndianUint64 (slice 32 40 data);
     segments := [] |}.

Definition parseSequencerMessage (batchNum : Z) (batchBlockHash : Hash)
    (data : list byte) (daProviders : list (option DataAvailabilityProvider))
    (keysetValidationMode : KeysetValidationMode)
    : outcome (result sequencerMessage) :=
  if len data <? 40 then Returns (Err ErrMissingL1Header) else
  let parsedMsg := headerOnly data in
  let payload := skipn 40 data in
  match payload with
  | [] => Returns (Ok (stageZeroheavy parsedMsg payload))
  | b :: _ =>
      (* Stage 0 *)
      if IsL1AuthenticatedMessageHeaderByte b && negb (IsKnownHeaderByte b)
      then Returns (Err (ErrFatalNodeOutOfDate b))
      else
        (* Stage 1 *)
        match firstClaiming daProviders b with
        | Some provider =>
            recovered <- RecoverPayloadFromBatch provider batchNum
                           batchBlockHash data keysetValidationMode ;;
            match recovered with
            | Err e => Returns (Err e)
            | Ok None => Returns (Ok parsedMsg)
            | Ok (Some payload') =>
                Returns (Ok (stageZeroheavy parsedMsg payload'))
            end
        | None =>
            if IsDASMessageHeaderByte b
            then Returns (Ok (stageZeroheavy parsedMsg payload))
            else if IsBlobHashesHeaderByte b
            then Returns (Err ErrNoBlobReader)
            else Returns (Ok (stageZeroheavy parsedMsg payload))
        end
  end.

End Parser.

(** ** The multiplexer *)

Section Multiplexer.

Context {B : Type} {be : InboxBackend B}.
Context {hb : HeaderByteClassifier} {cd : Codecs} {ac : arbostypes.Constants}.

Record inboxMultiplexer : Type := {
  backend : B;
  delayedMessagesRead : Z;
  daProviders : list (option DataAvailabilityProvider);
  cachedSequencerMessage : option sequencerMessage;
  cachedSequencerMessageNum : Z;
  cachedSegmentNum : Z;
  cachedSegmentTimestamp : Z;
  cachedSegmentBlockNumber : Z;
  cachedSubMessageNumber : Z;
  keysetValidationMode : KeysetValidationMode
}.

Definition NewInboxMultiplexer (backend : B) (delayedMessagesRead : Z)
    (daProviders : list (option DataAvailabilityProvider))
    (keysetValidationMode : KeysetValidationMode) : inboxMultiplexer :=
  {| backend := backend;
     delayedMessagesRead := delayedMessagesRead;
     daProviders := daProviders;
     cachedSequencerMessage := None;
     cachedSequencerMessageNum := 0;
     cachedSegmentNum := 0;
     cachedSegmentTimestamp := 0;
     cachedSegmentBlockNumber := 0;
     cachedSubMessageNumber := 0;
     keysetValidationMode := keysetValidationMode |}.

(** Assignments to the fields of [r]. *)

Definition setBackend (b : B) (r : inboxMultiplexer) : inboxMultiplexer :=
  {| backend := b;
     delayedMessagesRead := delayedMessagesRead r;
     daProviders := daProviders r;
     cachedSequencerMessage := cachedSequencerMessage r;
     cachedSequencerMessageNum := cachedSequencerMessageNum r;
     cachedSegmentNum := cachedSegmentNum r;
     cachedSegmentTimestamp := cachedSegmentTimestamp r;
     cachedSegmentBlockNumber := cachedSegmentBlockNumber r;
     cachedSubMessageNumber := cachedSubMessageNumber r;
     keysetValidationMode := keysetValidationMode r |}.

Definition setDelayedMessagesRead (d : Z) (r : inboxMultiplexer) : inboxMultiplexer :=
  {| backend := backend r;
     delayedMessagesRead := d;
     daProviders := daProviders r;
     cachedSequencerMessage := cachedSequencerMessage r;
     cachedSequencerMessageNum := cachedSequencerMessageNum r;
     cachedSegmentNum := cachedSegmentNum r;
     cachedSegmentTimestamp := cachedSegmentTimestamp r;
     cachedSegmentBlockNumber := cachedSegmentBlockNumber r;
     cachedSubMessageNumber := cachedSubMessageNumber r;
     keysetValidationMode := keysetValidationMode r |}.

Definition setCachedSequencerMessage (m : option sequencerMessage)
    (r : inboxMultiplexer) : inboxMultiplexer :=
  {| backend := backend r;
     delayedMessagesRead := delayedMessagesRead r;
     daProviders := daProviders r;
     cachedSequencerMessage := m;
     cachedSequencerMessageNum := cachedSequencerMessageNum r;
     cachedSegmentNum := cachedSegmentNum r;
     cachedSegmentTimestamp := cachedSegmentTimestamp r;
     cachedSegmentBlockNumber := cachedSegmentBlockNumber r;
     cachedSubMessageNumber := cachedSubMessageNumber r;
     keysetValidationMode := keysetValidationMode r |}.

Definition setCachedSequencerMessageNum (n : Z) (r : inboxMultiplexer)
    : inboxMultiplexer :=
  {| backend := backend r;
     delayedMessagesRead := delayedMessagesRead r;
     daProviders := daProviders r;
     cachedSequencerMessage := cachedSequencerMessage r;
     cachedSequencerMessageNum := n;
     cachedSegmentNum := cachedSegmentNum r;
     cachedSegmentTimestamp := cachedSegmentTimestamp r;
     cachedSegmentBlockNumber := cachedSegmentBlockNumber r;
     cachedSubMessageNumber := cachedSubMessageNumber r;
     keysetValidationMode := keysetValidationMode r |}.

(** The four locals that [getNextMsg] walks with and stores back. *)
Record cursor : Type := {
  segmentNum : Z;
  timestamp : Z;
  blockNumber : Z;
  submessageNumber : Z
}.

Definition setCursor (c : cursor) (r : inboxMultiplexer) : inboxMultiplexer :=
  {| backend := backend r;
     delayedMessagesRead := delayedMessagesRead r;
     daProviders := daProviders r;
     cachedSequencerMessage := cachedSequencerMessage r;
     cachedSequencerMessageNum := cachedSequencerMessageNum r;
     cachedSegmentNum := segmentNum c;
     cachedSegmentTimestamp := timestamp c;
     cachedSegmentBlockNumber := blockNumber c;
     cachedSubMessageNumber := submessageNumber c;
     keysetValidationMode := keysetValidationMode r |}.

Definition DelayedMessagesRead (r : inboxMultiplexer) : Z :=
  delayedMessagesRead r.

Definition advanceSequencerMsg (r : inboxMultiplexer) : inboxMultiplexer :=
  let d :=
    match cachedSequencerMessage r with
    | Some m => afterDelayedMessages m
    | None => delayedMessagesRead r
    end in
  {| backend := AdvanceSequencerInbox (SetPositionWithinMessage 0 (backend r));
     delayedMessagesRead := d;
     daProviders := daProviders r;
     cachedSequencerMessage := None;
     cachedSequencerMessageNum := cachedSequencerMessageNum r;
     cachedSegmentNum := 0;
     cachedSegmentTimestamp := 0;
     cachedSegmentBlockNumber := 0;
     cachedSubMessageNumber := 0;
     keysetValidationMode := keysetValidationMode r |}.

Definition advanceSubMsg (r : inboxMultiplexer) : inboxMultiplexer :=
  let prevPos := GetPositionWithinMessage (backend r) in
  setBackend (SetPositionWithinMessage (add64 prevPos 1) (backend r)) r.

(** The loop of [IsCachedSegementLast] over [segments[segmentNum:]]:
    [false] at the first segment of kind 0, 1 or 2, [true] at the end. *)
Fixpoint noLaterMessage (rest : list (list byte)) : bool :=
  match rest with
  | [] => true
  | segment :: rest' =>
      match segment with
      | [] => noLaterMessage rest'
      | kind :: _ =>
          if Byte.eqb kind BatchSegmentKindL2Message
             || Byte.eqb kind BatchSegmentKindL2MessageBrotli
          then false
          else if Byte.eqb kind BatchSegmentKindDelayedMessages
          then false
          else noLaterMessage rest'
      end
  end.

Definition IsCachedSegementLast (r : inboxMultiplexer) : outcome bool :=
  match cachedSequencerMessage r with
  | None => Halts RuntimePanic
  | Some seqMsg =>
      if delayedMessagesRead r <? afterDelayedMessages seqMsg
      then Returns false
      else
        let start := addInt (int_of_uint64 (cachedSegmentNum r)) 1 in
        if start <? len (segments seqMsg) then
          if start <? 0
          then Halts RuntimePanic (* segments[segmentNum], negative index *)
          else Returns (noLaterMessage (skipn (Z.to_nat start) (segments seqMsg)))
        else Returns true
  end.

Definition bumpSegment (c : cursor) : cursor :=
  {| segmentNum := segmentNum c + 1;
     timestamp := timestamp c;
     blockNumber := blockNumber c;
     submessageNumber := submessageNumber c |}.

(** The loop of [getNextMsg] over [segments[segmentNum:]].  [segmentNum] is
    below [len(segments)] wherever it is incremented, so that increment
    cannot wrap; the other three can. *)
Fixpoint walkSegments (rest : list (list byte)) (targetSubMessage : Z)
    (c : cursor) : cursor :=
  match rest with
  | [] => c
  | segment :: rest' =>
      match segment with
      | [] => walkSegments rest' targetSubMessage (bumpSegment c)
      | segmentKind :: body =>
          if Byte.eqb segmentKind BatchSegmentKindAdvanceTimestamp
             || Byte.eqb segmentKind BatchSegmentKindAdvanceL1BlockNumber
          then
            match StreamUint64 (NewStream body 16) with
            | None => walkSegments rest' targetSubMessage (bumpSegment c)
            | Some advancing =>
                if Byte.eqb segmentKind BatchSegmentKindAdvanceTimestamp then
                  walkSegments rest' targetSubMessage
                    {| segmentNum := segmentNum c + 1;
                       timestamp := add64 (timestamp c) advancing;
                       blockNumber := blockNumber c;
                       submessageNumber := submessageNumber c |}
                else
                  walkSegments rest' targetSubMessage
                    {| segmentNum := segmentNum c + 1;
                       timestamp := timestamp c;
                       blockNumber := add64 (blockNumber c) advancing;
                       submessageNumber := submessageNumber c |}
            end
          else if submessageNumber c <? targetSubMessage then
            walkSegments rest' targetSubMessage
              {| segmentNum := segmentNum c + 1;
                 timestamp := timestamp c;
                 blockNumber := blockNumber c;
                 submessageNumber := add64 (submessageNumber c) 1 |}
          else c
      end
  end.

(** [if x < lo { x = lo } else if x > hi { x = hi }]. *)
Definition clamp (lo hi x : Z) : Z :=
  if x <? lo then lo else if hi <? x then hi else x.

Definition PopResult : Type :=
  (option arbostypes.MessageWithMetadata * option error)%type.

(** The four locals as [getNextMsg] initialises them. *)
Definition cursorOf (r : inboxMultiplexer) : cursor :=
  {| segmentNum := cachedSegmentNum r;
     timestamp := cachedSegmentTimestamp r;
     blockNumber := cachedSegmentBlockNumber r;
     submessageNumber := cachedSubMessageNumber r |}.

(** The first part of [getNextMsg]: the four locals when the loop is
    left, starting from the cached ones. *)
Definition seekCursor (r : inboxMultiplexer) (seqMsg : sequencerMessage) : cursor :=
  let targetSubMessage := GetPositionWithinMessage (backend r) in
  let start := cursorOf r in
  if len (segments seqMsg) <=? cachedSegmentNum r then start
  else walkSegments
         (skipn (Z.to_nat (cachedSegmentNum r)) (segments seqMsg))
         targetSubMessage start.

(** The segment to emit: the one under the cursor, or past the end of the
    batch a virtual [DelayedMessages] segment. *)
Definition selectSegment (seqMsg : sequencerMessage) (c : cursor) : list byte :=
  if len (segments seqMsg) <=? segmentNum c
  then [BatchSegmentKindDelayedMessages]
  else nth (Z.to_nat (segmentNum c)) (segments seqMsg) [].

(** The message built for an L2 segment. *)
Definition l2Message (blockNumber timestamp : Z) (l2msg : list byte)
    (delayedRead : Z) : arbostypes.MessageWithMetadata :=
  {| arbostypes.Message :=
       Some
         {| arbostypes.Header :=
              Some
                {| arbostypes.Kind := arbostypes.L1MessageType_L2Message;
                   arbostypes.Poster := arbostypes.BatchPosterAddress;
                   arbostypes.BlockNumber := blockNumber;
                   arbostypes.Timestamp := timestamp;
                   arbostypes.RequestId := None;
                   arbostypes.L1BaseFee := 0 |};
            arbostypes.L2msg := l2msg |};
     arbostypes.DelayedMessagesRead := delayedRead |}.

(** The placeholder for a sub-message that cannot be read. *)
Definition invalidMessage (delayedRead : Z) : arbostypes.MessageWithMetadata :=
  {| arbostypes.Message := Some arbostypes.InvalidL1Message;
     arbostypes.DelayedMessagesRead := delayedRead |}.

Definition getNextMsg (r : inboxMultiplexer)
    : outcome (PopResult * inboxMultiplexer) :=
  match cachedSequencerMessage r with
  | None => Halts RuntimePanic
  | Some seqMsg =>
      let c := seekCursor r seqMsg in
      let r1 := setCursor c r in
      let timestamp := clamp (minTimestamp seqMsg) (maxTimestamp seqMsg) (timestamp c) in
      let blockNumber := clamp (minL1Block seqMsg) (maxL1Block seqMsg) (blockNumber c) in
      let segment := selectSegment seqMsg c in
      match segment with
      | [] => Returns ((None, None), r1)
      | kind :: body =>
          if Byte.eqb kind BatchSegmentKindL2Message
             || Byte.eqb kind BatchSegmentKindL2MessageBrotli
          then
            let decoded :=
              if Byte.eqb kind BatchSegmentKindL2MessageBrotli
              then Decompress body arbostypes.MaxL2MessageSize
              else Some body in
            match decoded with
            | None => Returns ((None, None), r1)
            | Some l2msg =>
                Returns
                  ((Some (l2Message blockNumber timestamp l2msg
                            (delayedMessagesRead r1)),
                    None), r1)
            end
          else if Byte.eqb kind BatchSegmentKindDelayedMessages then
            if afterDelayedMessages seqMsg <=? delayedMessagesRead r1 then
              Returns
                ((Some (invalidMessage (afterDelayedMessages seqMsg)), None), r1)
            else
              match ReadDelayedInbox (delayedMessagesRead r1) (backend r1) with
              | Err realErr => Returns ((None, Some realErr), r1)
              | Ok delayed =>
                  let r2 :=
                    setDelayedMessagesRead (add64 (delayedMessagesRead r1) 1) r1 in
                  Returns
                    ((Some
                        {| arbostypes.Message := delayed;
                           arbostypes.DelayedMessagesRead := delayedMessagesRead r2 |},
                      None), r2)
              end
          else Returns ((None, None), r1)
      end
  end.

(** [Pop] from the call of [getNextMsg] on. *)
Definition popCached (r : inboxMultiplexer)
    : outcome (PopResult * inboxMultiplexer) :=
  got <- getNextMsg r ;;
  let '((msg, err), r1) := got in
  isLast <- IsCachedSegementLast r1 ;;
  let r2 := if isLast : bool then advanceSequencerMsg r1 else advanceSubMsg r1 in
  let msg' :=
    match msg, err with
    | None, None => Some (invalidMessage (delayedMessagesRead r2))
    | _, _ => msg
    end in
  Returns ((msg', err), r2).

(** The first block of [Pop]: with no cached batch, peek one and parse it.
    [inl] is the early [return nil, err]. *)
Definition loadBatch (r : inboxMultiplexer)
    : outcome (error * inboxMultiplexer + inboxMultiplexer) :=
  match cachedSequencerMessage r with
  | None =>
      match PeekSequencerInbox (backend r) with
      | Err realErr => Returns (inl (realErr, r))
      | Ok (bytes, batchBlockHash) =>
          let r1 :=
            setCachedSequencerMessageNum
              (GetSequencerInboxPosition (backend r)) r in
          parsed <- parseSequencerMessage (cachedSequencerMessageNum r1)
                      batchBlockHash bytes (daProviders r1)
                      (keysetValidationMode r1) ;;
          match parsed with
          | Err err => Returns (inl (err, setCachedSequencerMessage None r1))
          | Ok parsedMsg =>
              Returns (inr (setCachedSequencerMessage (Some parsedMsg) r1))
          end
      end
  | Some _ => Returns (inr r)
  end.

Definition Pop (r : inboxMultiplexer) : outcome (PopResult * inboxMultiplexer) :=
  loaded <- loadBatch r ;;
  match loaded with
  | inl (err, r1) => Returns ((None, Some err), r1)
  | inr r1 => popCached r1
  end.

End Multiplexer.

(** ** Runs of [Pop] *)

Section Runs.

Context {B : Type} {be : InboxBackend B}.
Context {hb : HeaderByteClassifier} {cd : Codecs} {ac : arbostypes.Constants}.

(** [n] successive calls of [Pop]: what each returned, and the multiplexer
    after the last one.  A call that halts ends the run. *)
Fixpoint popMany (n : nat) (r : inboxMultiplexer)
    : outcome (list PopResult * inboxMultiplexer (B := B)) :=
  match n with
  | O => Returns ([], r)
  | S n' =>
      step <- Pop r ;;
      rest <- popMany n' (snd step) ;;
      Returns (fst step :: fst rest, snd rest)
  end.

(** What the first block of [Pop] leaves alone: everything but the cached
    batch and its number. *)
Definition sameCursors (r r0 : inboxMultiplexer (B := B)) : Prop :=
  backend r0 = backend r /\
  delayedMessagesRead r0 = delayedMessagesRead r /\
  cachedSegmentNum r0 = cachedSegmentNum r /\
  cachedSegmentTimestamp r0 = cachedSegmentTimestamp r /\
  cachedSegmentBlockNumber r0 = cachedSegmentBlockNumber r /\
  cachedSubMessageNumber r0 = cachedSubMessageNumber r.

(** The batch that the next [Pop] works on: the cached one, or the one it
    is about to parse from the head of the sequencer inbox. *)
Definition batchInPlay (r : inboxMultiplexer (B := B)) (m : sequencerMessage) : Prop :=
  match cachedSequencerMessage r with
  | Some cached => m = cached
  | None =>
      exists bytes batchBlockHash,
        PeekSequencerInbox (backend r) = Ok (bytes, batchBlockHash) /\
        parseSequencerMessage (GetSequencerInboxPosition (backend r))
          batchBlockHash bytes (daProviders r) (keysetValidationMode r)
        = Returns (Ok m)
  end.

(** The segment cursor of a multiplexer that [NewInboxMultiplexer] made and
    [Pop] has run on: zero without a cached batch, within the segments of
    the cached batch otherwise, of which there are at most
    [MaxSegmentsPerSequencerMessage]. *)
Definition cursorInRange (r : inboxMultiplexer (B := B)) : Prop :=
  match cachedSequencerMessage r with
  | Some m =>
      0 <= cachedSegmentNum r <= len (segments m) /\
      len (segments m) <= MaxSegmentsPerSequencerMessage
  | None => cachedSegmentNum r = 0
  end.

(** The head batch does not take back delayed messages: it promises at
    least as many as have been read, within [uint64]. *)
Definition wellPosted (r : inboxMultiplexer (B := B)) : Prop :=
  forall m, batchInPlay r m ->
    delayedMessagesRead r <= afterDelayedMessages m < 2 ^ 64.

End Runs.

(** ** Two Backends that cannot be told apart *)

Section TwoBackends.

Context {B1 B2 : Type} {be1 : InboxBackend B1} {be2 : InboxBackend B2}.

(** [R] relates states of two Backends that answer every observer alike and
    stay related under the two operations the multiplexer performs on
    them. *)
Record Indistinguishable (R : B1 -> B2 -> Prop) : Prop := {
  same_peek : forall b1 b2, R b1 b2 ->
    PeekSequencerInbox b1 = PeekSequencerInbox b2;
  same_position : forall b1 b2, R b1 b2 ->
    GetSequencerInboxPosition b1 = GetSequencerInboxPosition b2;
  same_within : forall b1 b2, R b1 b2 ->
    GetPositionWithinMessage b1 = GetPositionWithinMessage b2;
  same_delayed : forall b1 b2 seqNum, R b1 b2 ->
    ReadDelayedInbox seqNum b1 = ReadDelayedInbox seqNum b2;
  advance_related : forall b1 b2, R b1 b2 ->
    R (AdvanceSequencerInbox b1) (AdvanceSequencerInbox b2);
  set_related : forall b1 b2 pos, R b1 b2 ->
    R (SetPositionWithinMessage pos b1) (SetPositionWithinMessage pos b2)
}.

(** Two multiplexers that differ in their Backends only, and these are
    related. *)
Definition alike (R : B1 -> B2 -> Prop)
    (r1 : inboxMultiplexer (B := B1)) (r2 : inboxMultiplexer (B := B2)) : Prop :=
  R (backend r1) (backend r2) /\
  delayedMessagesRead r1 = delayedMessagesRead r2 /\
  daProviders r1 = daProviders r2 /\
  cachedSequencerMessage r1 = cachedSequencerMessage r2 /\
  cachedSequencerMessageNum r1 = cachedSequencerMessageNum r2 /\
  cursorOf r1 = cursorOf r2 /\
  keysetValidationMode r1 = keysetValidationMode r2.

(** The same value returned, and states alike. *)
Definition alikeStep (R : B1 -> B2 -> Prop) {A : Type}
    (x1 : A * inboxMultiplexer (B := B1)) (x2 : A * inboxMultiplexer (B := B2))
    : Prop :=
  fst x1 = fst x2 /\ alike R (snd x1) (snd x2).

End TwoBackends.

(** ** Vocabulary of the specification *)

(** The header of the message a call returned, when it returned one that
    has a header. *)
Definition emittedHeader
    (res : option arbostypes.MessageWithMetadata * option error)
    : option arbostypes.L1IncomingMessageHeader :=
  match fst res with
  | Some msg =>
      match arbostypes.Message msg with
      | Some l1 => arbostypes.Header l1
      | None => None
      end
  | None => None
  end.

(** A segment that stands for a message of its own: non-empty, of kind
    L2Message (0), L2MessageBrotli (1) or DelayedMessages (2). *)
Definition isMessageSegment (segment : list byte) : Prop :=
  exists kind body,
    segment = kind :: body /\
    (kind = BatchSegmentKindL2Message \/
     kind = BatchSegmentKindL2MessageBrotli \/
     kind = BatchSegmentKindDelayedMessages).

(** ** Instances of the collaborators

    Small instances of the classes above, on which the statements below are
    exercised at concrete inputs. *)

Module Sim.

Definition hasBits (checking bits : Z) : bool :=
  Z.land checking bits =? bits.

(** Modelled from the spec: the HeaderByteClassifier of section 4.1, whose
    source file is not among the sources.  The spec leaves the bit patterns
    to that file; these are the ones of upstream Nitro (DAS 0x80, tree DAS
    0x08, L1-authenticated 0x40, zero-heavy 0x20, blob hashes 0x50,
    brotli 0x00). *)
#[export] Instance classifier : HeaderByteClassifier :=
  {| IsL1AuthenticatedMessageHeaderByte := fun b => hasBits (byteZ b) 64;
     IsKnownHeaderByte := fun b => Z.land (byteZ b) 7 =? 0;
     IsDASMessageHeaderByte := fun b => hasBits (byteZ b) 128;
     IsBlobHashesHeaderByte := fun b => hasBits (byteZ b) 80;
     IsZeroheavyEncodedHeaderByte := fun b => hasBits (byteZ b) 32;
     IsBrotliMessageHeaderByte := fun b => byteZ b =? 0 |}.

(** Decoding of one RLP byte string: a single byte below 0x80 stands for
    itself, 0x80 + n (n <= 55) announces n bytes. *)
Definition rlpBytes (s : list byte) : option (list byte * list byte) :=
  match s with
  | [] => None
  | b :: rest =>
      if byteZ b <? 128 then Some ([b], rest)
      else if byteZ b <=? 183 then
        let n := Z.to_nat (byteZ b - 128) in
        if Nat.leb n (length rest) then Some (firstn n rest, skipn n rest)
        else None
      else None
  end.

(** Decoding of an RLP unsigned integer of at most eight bytes, without
    leading zeros. *)
Definition rlpUint64 (s : list byte) : option Z :=
  match rlpBytes s with
  | Some (Byte.x00 :: _, _) => None
  | Some (digits, _) =>
      if Nat.leb (length digits) 8
      then Some (fold_left (fun acc x => acc * 256 + byteZ x) digits 0)
      else None
  | None => None
  end.

(** The compressed forms are the identity here; the RLP stream is the real
    encoding for short strings. *)
#[export] Instance codecs : Codecs :=
  {| zeroheavyReadAll := fun data _ => Some data;
     Decompress := fun data _ => Some data;
     RlpStream := list byte;
     NewStream := fun data _ => data;
     DecodeBytes := rlpBytes;
     StreamUint64 := rlpUint64 |}.

#[export] Instance constants : arbostypes.Constants :=
  {| arbostypes.InvalidL1Message :=
       {| arbostypes.Header :=
            Some {| arbostypes.Kind := 255;
                    arbostypes.Poster := [];
                    arbostypes.BlockNumber := 0;
                    arbostypes.Timestamp := 0;
                    arbostypes.RequestId := None;
                    arbostypes.L1BaseFee := 0 |};
          arbostypes.L2msg := [] |};
     arbostypes.L1MessageType_L2Message := 3;
     arbostypes.MaxL2MessageSize := 256 * 1024;
     arbostypes.BatchPosterAddress := [] |}.

(** A certificate is a single byte here, its timeout; the keyset is a unit
    and every signature verifies. *)
#[export] Instance dasCodec : DasCodec :=
  {| Keyset := unit;
     DeserializeDASCertFrom := fun data =>
       match data with
       | _ :: t :: _ =>
           Some {| KeysetHash := []; DataHash := [Byte.x01];
                   Timeout := byteZ t; SignersMask := 0; Sig := [];
                   Version := 1 |}
       | _ => None
       end;
     DeserializeKeyset := fun data _ =>
       match data with [] => Some tt | _ => None end;
     SerializeSignableFields := fun _ => [];
     VerifySignature := fun _ _ _ _ => None;
     FlatHashToTreeHash := fun h => h;
     Keccak256Hash := fun data => data;
     dastreeHash := fun data => data |}.

(** Modelled from the spec: a Backend in the sense of section 6 (no
    implementation of the interface is among the sources): a queue of
    batches with a position in it, a position within the head batch, and
    the delayed inbox. *)
Record backend : Type := {
  batches : list (list byte * Hash);
  position : nat;
  positionWithinMessage : Z;
  delayed : list arbostypes.L1IncomingMessage
}.

#[export] Instance inboxBackend : InboxBackend backend :=
  {| PeekSequencerInbox := fun b =>
       match nth_error (batches b) (position b) with
       | Some batch => Ok batch
       | None => Err (ErrExternal 0)
       end;
     GetSequencerInboxPosition := fun b => Z.of_nat (position b);
     AdvanceSequencerInbox := fun b =>
       {| batches := batches b; position := S (position b);
          positionWithinMessage := positionWithinMessage b;
          delayed := delayed b |};
     GetPositionWithinMessage := positionWithinMessage;
     SetPositionWithinMessage := fun pos b =>
       {| batches := batches b; position := position b;
          positionWithinMessage := pos; delayed := delayed b |};
     ReadDelayedInbox := fun seqNum b =>
       match nth_error (delayed b) (Z.to_nat seqNum) with
       | Some m => Ok (Some m)
       | None => Err (ErrExternal 1)
       end |}.

(** The 40-byte header of a batch, each field below 256. *)
Definition field (v : byte) : list byte :=
  [Byte.x00; Byte.x00; Byte.x00; Byte.x00; Byte.x00; Byte.x00; Byte.x00; v].

Definition header (minT maxT minL1 maxL1 afterDelayed : byte) : list byte :=
  field minT ++ field maxT ++ field minL1 ++ field maxL1 ++ field afterDelayed.

Definition zeroHeader : list byte :=
  header Byte.x00 Byte.x00 Byte.x00 Byte.x00 Byte.x00.

Definition delayedMsg (tag : byte) : arbostypes.L1IncomingMessage :=
  {| arbostypes.Header := None; arbostypes.L2msg := [tag] |}.

Definition backendOf (batches : list (list byte)) (delayed : list byte) : backend :=
  {| batches := map (fun data => (data, [])) batches;
     position := 0;
     positionWithinMessage := 0;
     delayed := map delayedMsg delayed |}.

(** A DAS batch: the DAS header byte, then the certificate, here its
    timeout. *)
Definition dasBatch (maxT afterDelayed timeout : byte) : list byte :=
  header Byte.x00 maxT Byte.x00 Byte.x00 afterDelayed ++ [Byte.x80; timeout].

(** A content-addressed reader under the identity hash, and one that is
    out of reach. *)
Definition goodReader : DataAvailabilityReader := fun hash => Ok hash.
Definition deadReader : DataAvailabilityReader := fun _ => Err (ErrExternal 7).

(** A second Backend, which forgets the batches it has been advanced past. *)
Record queue : Type := {
  pending : list (list byte * Hash);
  consumed : nat;
  within : Z;
  inbox : list arbostypes.L1IncomingMessage
}.

#[export] Instance queueBackend : InboxBackend queue :=
  {| PeekSequencerInbox := fun q =>
       match pending q with
       | batch :: _ => Ok batch
       | [] => Err (ErrExternal 0)
       end;
     GetSequencerInboxPosition := fun q => Z.of_nat (consumed q);
     AdvanceSequencerInbox := fun q =>
       {| pending := tl (pending q); consumed := S (consumed q);
          within := within q; inbox := inbox q |};
     GetPositionWithinMessage := within;
     SetPositionWithinMessage := fun pos q =>
       {| pending := pending q; consumed := consumed q;
          within := pos; inbox := inbox q |};
     ReadDelayedInbox := fun seqNum q =>
       match nth_error (inbox q) (Z.to_nat seqNum) with
       | Some m => Ok (Some m)
       | None => Err (ErrExternal 1)
       end |}.

(** The queue holds what the other Backend has yet to serve. *)
Definition sameStream (b : backend) (q : queue) : Prop :=
  pending q = skipn (position b) (batches b) /\
  consumed q = position b /\
  within q = positionWithinMessage b /\
  inbox q = delayed b.

Definition queueOf (batches : list (list byte)) (delayed : list byte) : queue :=
  {| pending := map (fun data => (data, [])) batches;
     consumed := 0;
     within := 0;
     inbox := map delayedMsg delayed |}.

(** A batch under the brotli header byte whose segments are the given
    pairs of bytes, each RLP-encoded as a string of two bytes. *)
Definition brotliBatch (hdr : list byte) (segs : list (byte * byte)) : list byte :=
  hdr ++ Byte.x00 :: flat_map (fun s => [Byte.x82; fst s; snd s]) segs.

(** A new multiplexer without providers over a new Backend. *)
Definition fresh (batches : list (list byte)) (delayed : list byte)
    (delayedMessagesRead : Z) : inboxMultiplexer (B := backend) :=
  NewInboxMultiplexer (backendOf batches delayed) delayedMessagesRead []
    KeysetValidate.

Definition pop (r : inboxMultiplexer (B := backend)) :=
  Pop (be := inboxBackend) (hb := classifier) (cd := codecs) (ac := constants) r.

End Sim.

(** ** Further vocabulary *)

Section StreamContents.

Context {cd : Codecs}.

(** The byte strings that successive calls of [stream.Decode] return before
    the first error. *)
Inductive Yields : RlpStream -> list (list byte) -> Prop :=
| Yields_end (stream : RlpStream) :
    DecodeBytes stream = None -> Yields stream []
| Yields_item (stream stream' : RlpStream) (segment : list byte)
    (rest : list (list byte)) :
    DecodeBytes stream = Some (segment, stream') ->
    Yields stream' rest ->
    Yields stream (segment :: rest).

End StreamContents.

(** ** Further instances of the collaborators *)

Module SimMore.

(** As [Sim.dasCodec], with the timeout byte counting units of 65536
    seconds, so that a certificate can outlive the week. *)
#[export] Instance dasCodec : DasCodec :=
  {| Keyset := unit;
     DeserializeDASCertFrom := fun data =>
       match data with
       | _ :: t :: _ =>
           Some {| KeysetHash := []; DataHash := [Byte.x01];
                   Timeout := byteZ t * 65536; SignersMask := 0; Sig := [];
                   Version := 1 |}
       | _ => None
       end;
     DeserializeKeyset := fun data _ =>
       match data with [] => Some tt | _ => None end;
     SerializeSignableFields := fun _ => [];
     VerifySignature := fun _ _ _ _ => None;
     FlatHashToTreeHash := fun h => h;
     Keccak256Hash := fun data => data;
     dastreeHash := fun data => data |}.

(** A blob is its payload bytes; a reader that serves each hash as the blob
    of its first byte. *)
#[export] Instance blobCodec : BlobCodec :=
  {| Blob := list byte;
     DecodeBlobs := fun blobs => Some (concat blobs) |}.

Definition blobReader : BlobReader (H := blobCodec) :=
  fun _ hashes => Ok (map (firstn 1) hashes).

End SimMore.

(** ** The walk over the segments, as a specification *)

Section WalkVocabulary.

Context {cd : Codecs}.

(** A segment that [getNextMsg] counts as a sub-message: non-empty, and not
    an advance of the timestamp or of the block number. *)
Definition isSubMessage (segment : list byte) : bool :=
  match segment with
  | [] => false
  | kind :: _ =>
      negb (Byte.eqb kind BatchSegmentKindAdvanceTimestamp
            || Byte.eqb kind BatchSegmentKindAdvanceL1BlockNumber)
  end.

(** What a segment adds to the running value that segments of kind [which]
    advance: its RLP number if it is of that kind and well formed. *)
Definition advanceOf (which : byte) (segment : list byte) : Z :=
  match segment with
  | kind :: body =>
      if Byte.eqb kind which then
        match StreamUint64 (NewStream body 16) with
        | Some advancing => advancing
        | None => 0
        end
      else 0
  | [] => 0
  end.

Definition totalAdvance (which : byte) (segs : list (list byte)) : Z :=
  fold_right Z.add 0 (map (advanceOf which) segs).

Definition countSubMessages (segs : list (list byte)) : Z :=
  len (filter isSubMessage segs).

Definition zeroCursor : cursor :=
  {| segmentNum := 0; timestamp := 0; blockNumber := 0; submessageNumber := 0 |}.

(** Cursor [c] is where a walk from [start] over [segs] for sub-message
    [target] is to stop: it has passed [n] segments, added their advances
    to the timestamp and to the block number in [uint64], counted their
    sub-messages, not beyond [target], and if it is not past the end it
    stands on the sub-message numbered [target]. *)
Definition stoppedAt (segs : list (list byte)) (target : Z) (start c : cursor)
    : Prop :=
  let n := Z.to_nat (segmentNum c - segmentNum start) in
  (n <= length segs)%nat /\
  segmentNum c = segmentNum start + Z.of_nat n /\
  timestamp c
  = (timestamp start
     + totalAdvance BatchSegmentKindAdvanceTimestamp (firstn n segs)) mod 2 ^ 64 /\
  blockNumber c
  = (blockNumber start
     + totalAdvance BatchSegmentKindAdvanceL1BlockNumber (firstn n segs)) mod 2 ^ 64 /\
  submessageNumber c = submessageNumber start + countSubMessages (firstn n segs) /\
  submessageNumber c <= target /\
  ((n < length segs)%nat ->
   submessageNumber c = target /\ isSubMessage (nth n segs []) = true).

End WalkVocabulary.

(** ** The cache of the multiplexer *)

Section CacheVocabulary.

Context {B : Type} {be : InboxBackend B}.
Context {hb : HeaderByteClassifier} {cd : Codecs} {ac : arbostypes.Constants}.

(** The cached batch is the parse of the head of the sequencer inbox and
    the cursor is where the walk from the start of the batch stops for a
    sub-message number not above the Backend's position within the
    message; with no cached batch the cursor is at zero. *)
Definition cacheCoherent (r : inboxMultiplexer (B := B)) : Prop :=
  match cachedSequencerMessage r with
  | None => cursorOf r = zeroCursor
  | Some m =>
      (exists bytes batchBlockHash,
         PeekSequencerInbox (backend r) = Ok (bytes, batchBlockHash) /\
         parseSequencerMessage (GetSequencerInboxPosition (backend r))
           batchBlockHash bytes (daProviders r) (keysetValidationMode r)
         = Returns (Ok m)) /\
      exists reached,
        reached <= GetPositionWithinMessage (backend r) /\
        cursorOf r = walkSegments (segments m) reached zeroCursor
  end.

(** Equal but for [cachedSequencerMessageNum]. *)
Definition sameButNum (r1 r2 : inboxMultiplexer (B := B)) : Prop :=
  backend r1 = backend r2 /\
  delayedMessagesRead r1 = delayedMessagesRead r2 /\
  daProviders r1 = daProviders r2 /\
  cachedSequencerMessage r1 = cachedSequencerMessage r2 /\
  cursorOf r1 = cursorOf r2 /\
  keysetValidationMode r1 = keysetValidationMode r2.

(** The same value returned, and states equal but for the batch number. *)
Definition stepSame {A : Type}
    (x1 x2 : A * inboxMultiplexer (B := B)) : Prop :=
  fst x1 = fst x2 /\ sameButNum (snd x1) (snd x2).

(** A Backend whose position within the message is a cell of its own:
    setting it is read back and changes nothing else that the multiplexer
    observes. *)
Class LawfulBackend : Prop := {
  get_set_within : forall pos (b : B),
    GetPositionWithinMessage (SetPositionWithinMessage pos b) = pos;
  peek_set_within : forall pos (b : B),
    PeekSequencerInbox (SetPositionWithinMessage pos b) = PeekSequencerInbox b;
  position_set_within : forall pos (b : B),
    GetSequencerInboxPosition (SetPositionWithinMessage pos b)
    = GetSequencerInboxPosition b;
  delayed_set_within : forall pos seqNum (b : B),
    ReadDelayedInbox seqNum (SetPositionWithinMessage pos b)
    = ReadDelayedInbox seqNum b
}.

End CacheVocabulary.

Section EmissionVocabulary.

Context {cd : Codecs} {ac : arbostypes.Constants}.

(** The L2 message that a segment carries, as [getNextMsg] reads it: the
    body of a segment of kind [L2Message], the decompressed body of one of
    kind [L2MessageBrotli]; none for the other kinds, for the empty segment
    and for a body that does not decompress. *)
Definition l2Payload (segment : list byte) : option (list byte) :=
  match segment with
  | [] => None
  | kind :: body =>
      if Byte.eqb kind BatchSegmentKindL2Message then Some body
      else if Byte.eqb kind BatchSegmentKindL2MessageBrotli
           then Decompress body arbostypes.MaxL2MessageSize
           else None
  end.

(** The L2 message [l2msg] stamped for segment [i] of batch [m]: timestamp
    and block number are the sums in [uint64] of the well-formed advances
    among the segments before [i], clamped to the bounds of the header. *)
Definition stampedMessage (m : sequencerMessage) (i : nat) (l2msg : list byte)
    (delayedRead : Z) : arbostypes.MessageWithMetadata :=
  l2Message
    (clamp (minL1Block m) (maxL1Block m)
       (totalAdvance BatchSegmentKindAdvanceL1BlockNumber (firstn i (segments m))
        mod 2 ^ 64))
    (clamp (minTimestamp m) (maxTimestamp m)
       (totalAdvance BatchSegmentKindAdvanceTimestamp (firstn i (segments m))
        mod 2 ^ 64))
    l2msg delayedRead.

End EmissionVocabulary.

(** ** The LayerEdge writer (package layeredge) *)

Module layeredge.

(** The interface [LayerEdgeWriter]: [AddBlockByNumber(ctx, blockNumber)]
    returns an error, [None] being [nil]. *)
Class LayerEdgeWriter : Type := {
  AddBlockByNumber : Z -> option error
}.

(** The interface [daprovider.Writer], of which [availWriter] is one:
    [Store(ctx, message, timeout, disableFallbackStoreDataOnChain)]. *)
Class Writer : Type := {
  Writer_Store : list byte -> Z -> bool -> result (list byte)
}.

(** [avail.BlobPointer] as [Store] uses it: the field [BlockHeight] and the
    method [UnmarshalFromBinary], which fills a new pointer or fails. *)
Class BlobPointerCodec (BlobPointer : Type) : Type := {
  BlockHeight : BlobPointer -> Z;
  UnmarshalFromBinary : list byte -> result BlobPointer
}.

(** The calls that [Store] makes on the two services, in order. *)
Inductive call : Type :=
| CallWriterStore (message : list byte) (timeout : Z)
    (disableFallbackStoreDataOnChain : bool)
| CallAddBlockByNumber (blockNumber : Z).

Section Client.

Context {BlobPointer : Type} {bp : BlobPointerCodec BlobPointer}.
Context {rpc : LayerEdgeWriter} {availWriter : Writer}.

(** [layerEdgeClientImpl.Store].  [data[1:]] is a runtime panic on data of
    length zero. *)
Definition Store (message : list byte) (timeout : Z)
    (disableFallbackStoreDataOnChain : bool)
    : outcome (result (list byte)) * list call :=
  let stored := [CallWriterStore message timeout disableFallbackStoreDataOnChain] in
  match Writer_Store message timeout disableFallbackStoreDataOnChain with
  | Err err => (Returns (Err err), stored)
  | Ok data =>
      match data with
      | [] => (Halts RuntimePanic, stored)
      | _ :: rest =>
          match UnmarshalFromBinary rest with
          | Err err => (Returns (Err err), stored)
          | Ok blobData =>
              let announced :=
                stored ++ [CallAddBlockByNumber (BlockHeight blobData)] in
              match AddBlockByNumber (BlockHeight blobData) with
              | Some err => (Returns (Err err), announced)
              | None => (Returns (Ok data), announced)
              end
          end
      end
  end.

End Client.

End layeredge.

(** A writer that stores every message as a padding byte followed by a
    one-byte block height, a codec that reads that byte back, and a
    LayerEdge service that refuses block 255. *)
Module SimLayerEdge.

#[export] Instance writer : layeredge.Writer :=
  {| layeredge.Writer_Store := fun message _ _ =>
       match message with
       | [] => Err (ErrExternal 2)
       | height :: _ => Ok [Byte.x0a; height]
       end |}.

#[export] Instance blobPointerCodec : layeredge.BlobPointerCodec Z :=
  {| layeredge.BlockHeight := fun p => p;
     layeredge.UnmarshalFromBinary := fun data =>
       match data with
       | [height] => Ok (Z.of_N (Byte.to_N height))
       | _ => Err (ErrExternal 3)
       end |}.

#[export] Instance rpc : layeredge.LayerEdgeWriter :=
  {| layeredge.AddBlockByNumber := fun blockNumber =>
       if blockNumber =? 255 then Some (ErrExternal 4) else None |}.

End SimLayerEdge.


(** * Properties *)

Unset Implicit Arguments.
Arguments Indistinguishable {B1 B2 be1 be2} R.

(** ** Lists, bytes and machine arithmetic *)

Lemma Returns_Ok_inj {A : Type} (a b : A) :
  Returns (Ok a) = Returns (Ok b) -> a = b.
Proof. congruence. Qed.

Lemma skipn_nth_error_cons {A : Type} (l : list A) (n : nat) (x : A) :
  nth_error l n = Some x -> skipn n l = x :: skipn (S n) l.
Proof.
  revert l. induction n as [|n IH]; intros [|y l] H; simpl in H; try discriminate.
  - now inversion H.
  - now apply IH.
Qed.

Lemma nth_error_len {A : Type} (l : list A) (n : nat) (x : A) :
  nth_error l n = Some x -> Z.of_nat n < len l.
Proof.
  intros H. unfold len.
  assert (n < length l)%nat by (apply nth_error_Some; congruence). lia.
Qed.

(** ** The parser *)

Section ParserFacts.

Context {hb : HeaderByteClassifier} {cd : Codecs}.

(** C7.  A batch whose payload starts (at [data[40]]) with a byte that is
    L1-authenticated and not a known header byte makes
    [parseSequencerMessage] return the [FatalNodeOutOfDate] error, and so
    no parsed batch. *)
Theorem parse_unknown_authenticated_header
    (batchNum : Z) (batchBlockHash : Hash) (data : list byte)
    (daProviders : list (option DataAvailabilityProvider))
    (mode : KeysetValidationMode) (b : byte) :
  nth_error data 40 = Some b ->
  IsL1AuthenticatedMessageHeaderByte b = true ->
  IsKnownHeaderByte b = false ->
  parseSequencerMessage batchNum batchBlockHash data daProviders mode
  = Returns (Err (ErrFatalNodeOutOfDate b)).
Proof.
  intros Hb Hauth Hknown. unfold parseSequencerMessage.
  pose proof (nth_error_len _ _ _ Hb) as Hlen.
  destruct (len data <? 40) eqn:E; [apply Z.ltb_lt in E; lia|].
  rewrite (skipn_nth_error_cons _ _ _ Hb), Hauth, Hknown. reflexivity.
Qed.

End ParserFacts.

(** An instance of C7: header byte 0x41 under the classifier of [Sim]. *)
Lemma parse_unknown_authenticated_header_witness :
  parseSequencerMessage (hb := Sim.classifier) (cd := Sim.codecs) 0 [] (Sim.header Byte.x00 Byte.x00 Byte.x00 Byte.x00 Byte.x00 ++ [Byte.x41])
    [] KeysetValidate
  = Returns (Err (ErrFatalNodeOutOfDate Byte.x41)).
Proof.
  apply (parse_unknown_authenticated_header (hb := Sim.classifier)); reflexivity.
Defined.

Section UnclaimedHeader.

Context {hb : HeaderByteClassifier} {cd : Codecs}.

Lemma payload_head (data : list byte) (b : byte) :
  nth_error data 40 = Some b ->
  (len data <? 40) = false /\ skipn 40 data = b :: skipn 41 data.
Proof.
  intros Hb. split.
  - pose proof (nth_error_len _ _ _ Hb). apply Z.ltb_ge. lia.
  - now apply skipn_nth_error_cons.
Qed.

Lemma stageZeroheavy_unmarked (m : sequencerMessage) (b : byte) (rest : list byte) :
  IsZeroheavyEncodedHeaderByte b = false ->
  IsBrotliMessageHeaderByte b = false ->
  stageZeroheavy m (b :: rest) = m.
Proof.
  intros Hz Hbr. unfold stageZeroheavy, stageBrotli. now rewrite Hz, Hbr.
Qed.

(** C5, as the code has it.  Let the header byte of the payload pass
    stage 0 (it is not an L1-authenticated byte that is unknown) and let no
    configured provider claim it.  Under a DAS byte the parser goes on to
    stages 2 and 3 with the payload as it is and returns the batch that
    they decode, never an error; that batch is the header-only batch when
    the byte is marked neither zero-heavy nor brotli.  Under a blob-hashes
    byte that is not a DAS byte it returns the error of the missing
    BlobReader. *)
Theorem parse_unclaimed_da_header
    (batchNum : Z) (batchBlockHash : Hash) (data : list byte)
    (daProviders : list (option DataAvailabilityProvider))
    (mode : KeysetValidationMode) (b : byte) :
  nth_error data 40 = Some b ->
  IsL1AuthenticatedMessageHeaderByte b && negb (IsKnownHeaderByte b) = false ->
  firstClaiming daProviders b = None ->
  (IsDASMessageHeaderByte b = true ->
     parseSequencerMessage batchNum batchBlockHash data daProviders mode
     = Returns (Ok (stageZeroheavy (headerOnly data) (skipn 40 data)))
     /\ (IsZeroheavyEncodedHeaderByte b = false ->
         IsBrotliMessageHeaderByte b = false ->
         parseSequencerMessage batchNum batchBlockHash data daProviders mode
         = Returns (Ok (headerOnly data))))
  /\ (IsDASMessageHeaderByte b = false ->
      IsBlobHashesHeaderByte b = true ->
      parseSequencerMessage batchNum batchBlockHash data daProviders mode
      = Returns (Err ErrNoBlobReader)).
Proof.
  intros Hb Hstage0 Hnone.
  destruct (payload_head _ _ Hb) as [Hlen Hpay].
  unfold parseSequencerMessage. rewrite Hlen, Hpay, Hstage0, Hnone.
  split.
  - intros Hdas. rewrite Hdas. split; [reflexivity|].
    intros Hz Hbr. now rewrite stageZeroheavy_unmarked.
  - intros Hdas Hblob. now rewrite Hdas, Hblob.
Qed.

End UnclaimedHeader.

(** C5 as stated fails on both of its halves, under the classifier of
    [Sim] and with no provider configured.  The byte 0x50 is a known
    blob-hashes header byte, and the parser returns an error.  The byte
    0xa0 is a known DAS header byte that is marked zero-heavy: the parser
    decodes the payload into the segment [[0x00, 'x']], and [Pop] returns
    the L2 message 'x', not an invalid message. *)
Lemma parse_unclaimed_da_header_as_stated_fails :
  (IsKnownHeaderByte (HeaderByteClassifier := Sim.classifier) Byte.x50 = true /\
   IsBlobHashesHeaderByte (HeaderByteClassifier := Sim.classifier) Byte.x50 = true /\
   firstClaiming [] Byte.x50 = None /\
   parseSequencerMessage (hb := Sim.classifier) (cd := Sim.codecs)
     0 [] (Sim.zeroHeader ++ [Byte.x50]) [] KeysetValidate
   = Returns (Err ErrNoBlobReader))
  /\
  (IsKnownHeaderByte (HeaderByteClassifier := Sim.classifier) Byte.xa0 = true /\
   IsDASMessageHeaderByte (HeaderByteClassifier := Sim.classifier) Byte.xa0 = true /\
   firstClaiming [] Byte.xa0 = None /\
   parseSequencerMessage (hb := Sim.classifier) (cd := Sim.codecs)
     0 [] (Sim.zeroHeader ++ [Byte.xa0; Byte.x00; Byte.x82; Byte.x00; Byte.x78])
     [] KeysetValidate
   = Returns
       (Ok {| minTimestamp := 0; maxTimestamp := 0;
              minL1Block := 0; maxL1Block := 0;
              afterDelayedMessages := 0;
              segments := [[Byte.x00; Byte.x78]] |}) /\
   returned
     (Sim.pop
        (Sim.fresh
           [Sim.zeroHeader ++ [Byte.xa0; Byte.x00; Byte.x82; Byte.x00; Byte.x78]]
           [] 0))
   = Some (Some (l2Message (ac := Sim.constants) 0 0 [Byte.x78] 0), None) /\
   l2Message (ac := Sim.constants) 0 0 [Byte.x78] 0
   <> invalidMessage (ac := Sim.constants) 0).
Proof.
  split.
  - repeat split.
  - split; [reflexivity|]. split; [reflexivity|]. split; [reflexivity|].
    split; [vm_compute; reflexivity|]. split; [vm_compute; reflexivity|].
    discriminate.
Qed.

(** Instances of the amended C5, no provider configured: the DAS byte 0x80,
    the DAS byte 0x81, which is not a known header byte and not
    L1-authenticated, and the blob-hashes byte 0x50. *)
Lemma parse_unclaimed_da_header_witness :
  parseSequencerMessage (hb := Sim.classifier) (cd := Sim.codecs)
    0 [] (Sim.zeroHeader ++ [Byte.x80]) [] KeysetValidate
  = Returns (Ok (headerOnly (Sim.zeroHeader ++ [Byte.x80])))
  /\ parseSequencerMessage (hb := Sim.classifier) (cd := Sim.codecs)
       0 [] (Sim.zeroHeader ++ [Byte.x81]) [] KeysetValidate
     = Returns (Ok (headerOnly (Sim.zeroHeader ++ [Byte.x81])))
  /\ parseSequencerMessage (hb := Sim.classifier) (cd := Sim.codecs)
       0 [] (Sim.zeroHeader ++ [Byte.x50]) [] KeysetValidate
     = Returns (Err ErrNoBlobReader).
Proof.
  split; [|split].
  - apply (parse_unclaimed_da_header (hb := Sim.classifier) (cd := Sim.codecs)
             0 [] (Sim.zeroHeader ++ [Byte.x80]) [] KeysetValidate Byte.x80);
      reflexivity.
  - apply (parse_unclaimed_da_header (hb := Sim.classifier) (cd := Sim.codecs)
             0 [] (Sim.zeroHeader ++ [Byte.x81]) [] KeysetValidate Byte.x81);
      reflexivity.
  - apply (parse_unclaimed_da_header (hb := Sim.classifier) (cd := Sim.codecs)
             0 [] (Sim.zeroHeader ++ [Byte.x50]) [] KeysetValidate Byte.x50);
      reflexivity.
Defined.

(** ** The multiplexer: one call of [Pop] *)

Section PopFacts.

Context {B : Type} {be : InboxBackend B}.
Context {hb : HeaderByteClassifier} {cd : Codecs} {ac : arbostypes.Constants}.

Let mux : Type := inboxMultiplexer (B := B).


(** The conversion to [int] and the increment of [IsCachedSegementLast] are
    exact below [2^63 - 1]. *)
Lemma next_index_exact (c : Z) :
  0 <= c < 2 ^ 63 - 1 -> addInt (int_of_uint64 c) 1 = c + 1.
Proof.
  intros Hc. unfold int_of_uint64, addInt.
  destruct (c <? 2 ^ 63) eqn:E; [|apply Z.ltb_ge in E; lia].
  rewrite Z.mod_small; lia.
Qed.

(** *** A batch without segments *)




End PopFacts.

(** ** Loading a batch *)

Section LoadFacts.

Context {B : Type} {be : InboxBackend B}.
Context {hb : HeaderByteClassifier} {cd : Codecs} {ac : arbostypes.Constants}.

Let mux : Type := inboxMultiplexer (B := B).

Lemma loadBatch_inPlay (r : mux) (m : sequencerMessage) :
  batchInPlay r m ->
  exists r0, loadBatch r = Returns (inr r0) /\
             cachedSequencerMessage r0 = Some m /\ sameCursors r r0.
Proof.
  unfold batchInPlay, loadBatch, sameCursors.
  destruct (cachedSequencerMessage r) as [cached|] eqn:Hc.
  - intros ->. exists r. repeat split; assumption.
  - intros (bytes & h & Hpeek & Hparse). rewrite Hpeek. simpl.
    rewrite Hparse. simpl. eexists. split; [reflexivity|]. repeat split.
Qed.

Lemma loadBatch_loaded (r r0 : mux) :
  loadBatch r = Returns (inr r0) ->
  exists m, batchInPlay r m /\
            cachedSequencerMessage r0 = Some m /\ sameCursors r r0.
Proof.
  unfold batchInPlay, loadBatch, sameCursors.
  destruct (cachedSequencerMessage r) as [cached|] eqn:Hc.
  - intros H. inversion H; subst r0. exists cached. repeat split; assumption.
  - destruct (PeekSequencerInbox (backend r)) as [[bytes h]|e] eqn:Hpeek;
      [|discriminate].
    simpl.
    destruct (parseSequencerMessage _ _ _ _ _) as [[m|e]|hl] eqn:Hparse;
      simpl; try discriminate.
    intros H. inversion H; subst r0. exists m. simpl.
    split; [|repeat split]. exists bytes, h. split; [reflexivity|exact Hparse].
Qed.

(** An early return of [loadBatch] is the error of the Backend's peek or of
    the parser, and leaves the cached batch empty and the rest untouched. *)
Lemma loadBatch_failed (r r0 : mux) (e : error) :
  loadBatch r = Returns (inl (e, r0)) ->
  cachedSequencerMessage r = None /\
  cachedSequencerMessage r0 = None /\ sameCursors r r0 /\
  (PeekSequencerInbox (backend r) = Err e \/
   exists bytes h,
     PeekSequencerInbox (backend r) = Ok (bytes, h) /\
     parseSequencerMessage (GetSequencerInboxPosition (backend r)) h bytes
       (daProviders r) (keysetValidationMode r) = Returns (Err e)).
Proof.
  unfold loadBatch, sameCursors.
  destruct (cachedSequencerMessage r) as [cached|] eqn:Hc; [discriminate|].
  destruct (PeekSequencerInbox (backend r)) as [[bytes h]|e'] eqn:Hpeek.
  - simpl.
    destruct (parseSequencerMessage _ _ _ _ _) as [[m|e']|hl] eqn:Hparse;
      simpl; try discriminate.
    intros H. inversion H; subst. simpl. repeat split.
    right. exists bytes, h. split; [reflexivity|exact Hparse].
  - intros H. inversion H; subst. repeat split; try assumption. now left.
Qed.

Lemma Pop_inPlay (r : mux) (m : sequencerMessage) :
  batchInPlay r m ->
  exists r0, Pop r = popCached r0 /\
             cachedSequencerMessage r0 = Some m /\ sameCursors r r0.
Proof.
  intros H. destruct (loadBatch_inPlay r m H) as (r0 & Hl & Hm & Hs).
  exists r0. unfold Pop. rewrite Hl. simpl. auto.
Qed.

End LoadFacts.

(** ** DAS certificates that expire too soon *)

Section ExpiredCertificate.

Context {B : Type} {be : InboxBackend B}.
Context {hb : HeaderByteClassifier} {cd : Codecs} {ac : arbostypes.Constants}.
Context {das : DasCodec}.

Let mux : Type := inboxMultiplexer (B := B).



End ExpiredCertificate.



(** ** The last sub-message of a batch *)

Lemma kind_eqb_true (kind k : byte) : Byte.eqb kind k = true <-> kind = k.
Proof. split; [apply Byte.byte_dec_bl|apply Byte.byte_dec_lb]. Qed.

Lemma isMessageSegment_nil : ~ isMessageSegment [].
Proof. intros (k & body & H & _). discriminate. Qed.

Lemma isMessageSegment_cons (kind : byte) (body : list byte) :
  isMessageSegment (kind :: body) <->
  (Byte.eqb kind BatchSegmentKindL2Message
   || Byte.eqb kind BatchSegmentKindL2MessageBrotli
   || Byte.eqb kind BatchSegmentKindDelayedMessages) = true.
Proof.
  rewrite !orb_true_iff, !kind_eqb_true. split.
  - intros (k & b & H & Hk). inversion H; subst. tauto.
  - intros H. exists kind, body. tauto.
Qed.

Lemma noLaterMessage_spec (rest : list (list byte)) :
  noLaterMessage rest = true <->
  forall segment, In segment rest -> ~ isMessageSegment segment.
Proof.
  induction rest as [|segment rest IH]; simpl.
  - split; [intros _ s []|reflexivity].
  - destruct segment as [|kind body].
    + rewrite IH. split.
      * intros H s [<-|Hin]; [apply isMessageSegment_nil|now apply H].
      * intros H s Hin. apply H. now right.
    + pose proof (isMessageSegment_cons kind body) as Hk.
      destruct (Byte.eqb kind BatchSegmentKindL2Message
                || Byte.eqb kind BatchSegmentKindL2MessageBrotli) eqn:E1.
      * split; [discriminate|]. intros H. exfalso.
        apply (H (kind :: body)); [now left|]. apply Hk. reflexivity.
      * destruct (Byte.eqb kind BatchSegmentKindDelayedMessages) eqn:E2.
        -- split; [discriminate|]. intros H. exfalso.
           apply (H (kind :: body)); [now left|]. apply Hk. reflexivity.
        -- rewrite IH. split.
           ++ intros H s [<-|Hin]; [|now apply H].
              intros Hm. apply Hk in Hm. discriminate.
           ++ intros H s Hin. apply H. now right.
Qed.

Lemma In_skipn_iff {A : Type} (l : list A) (n : nat) (x : A) :
  In x (skipn n l) <-> exists i, (n <= i)%nat /\ nth_error l i = Some x.
Proof.
  split.
  - intros Hin. apply In_nth_error in Hin. destruct Hin as [j Hj].
    rewrite nth_error_skipn in Hj. exists (n + j)%nat. split; [lia|exact Hj].
  - intros (i & Hi & Hnth). apply nth_error_In with (n := (i - n)%nat).
    rewrite nth_error_skipn. replace (n + (i - n))%nat with i by lia. exact Hnth.
Qed.

Section LastSegment.

Context {B : Type} {be : InboxBackend B}.

Let mux : Type := inboxMultiplexer (B := B).

(** C2.  With a cached batch and the cursor in the range of [int],
    [IsCachedSegementLast] returns, and returns true exactly when
    [delayedMessagesRead >= afterDelayedMessages] and no segment at index
    [cachedSegmentNum + 1] or later is a message segment (non-empty, of
    kind 0, 1 or 2); empty segments, advances and any other kind do not
    count. *)
Theorem IsCachedSegementLast_iff (r : mux) (m : sequencerMessage) :
  cachedSequencerMessage r = Some m ->
  0 <= cachedSegmentNum r < 2 ^ 63 - 1 ->
  exists last,
    IsCachedSegementLast r = Returns last /\
    (last = true <->
     afterDelayedMessages m <= delayedMessagesRead r /\
     forall (i : nat) (segment : list byte),
       cachedSegmentNum r + 1 <= Z.of_nat i ->
       nth_error (segments m) i = Some segment ->
       ~ isMessageSegment segment).
Proof.
  intros Hm Hc. unfold IsCachedSegementLast. rewrite Hm.
  destruct (delayedMessagesRead r <? afterDelayedMessages m) eqn:Hd.
  - exists false. split; [reflexivity|]. apply Z.ltb_lt in Hd.
    split; [discriminate|]. intros [H _]. lia.
  - apply Z.ltb_ge in Hd. rewrite next_index_exact by assumption.
    destruct (cachedSegmentNum r + 1 <? len (segments m)) eqn:Hlen.
    + destruct (cachedSegmentNum r + 1 <? 0) eqn:Hneg;
        [apply Z.ltb_lt in Hneg; lia|].
      eexists. split; [reflexivity|]. rewrite noLaterMessage_spec. split.
      * intros H. split; [exact Hd|]. intros i segment Hi Hnth.
        apply H. apply In_skipn_iff. exists i. split; [lia|exact Hnth].
      * intros [_ H] segment Hin. apply In_skipn_iff in Hin.
        destruct Hin as (i & Hi & Hnth). apply (H i); [lia|exact Hnth].
    + exists true. split; [reflexivity|]. split; [|reflexivity].
      intros _. split; [exact Hd|]. intros i segment Hi Hnth.
      apply Z.ltb_ge in Hlen. apply nth_error_len in Hnth. lia.
Qed.

End LastSegment.

(** An instance of C2: three segments, the cursor on the first; the last one
    is an L2 message, so the first is not the last of the batch. *)
Lemma IsCachedSegementLast_iff_witness :
  let m :=
    {| minTimestamp := 0; maxTimestamp := 0; minL1Block := 0; maxL1Block := 0;
       afterDelayedMessages := 0;
       segments := [[Byte.x00]; []; [Byte.x03; Byte.x05]; [Byte.x00; Byte.x78]] |} in
  exists last,
    IsCachedSegementLast (setCachedSequencerMessage (Some m) (Sim.fresh [] [] 0))
    = Returns last /\
    last = false.
Proof.
  intros m.
  destruct (IsCachedSegementLast_iff (setCachedSequencerMessage (Some m) (Sim.fresh [] [] 0))
              m eq_refl) as (last & Hret & Hiff).
  - cbn. lia.
  - exists last. split; [exact Hret|].
    destruct last; [|reflexivity]. exfalso.
    destruct Hiff as [Hiff _]. destruct (Hiff eq_refl) as [_ Hnone].
    apply (Hnone 3%nat [Byte.x00; Byte.x78]); [cbn; lia|reflexivity|].
    exists Byte.x00, [Byte.x78]. split; [reflexivity|now left].
Defined.

(** ** What [getNextMsg] emits *)

Section Emission.

Context {B : Type} {be : InboxBackend B}.
Context {hb : HeaderByteClassifier} {cd : Codecs} {ac : arbostypes.Constants}.

Let mux : Type := inboxMultiplexer (B := B).

(** Splits [getNextMsg] on a cached batch into its six exits. *)
Ltac getNextMsg_exits m Hm :=
  unfold getNextMsg; rewrite Hm;
  destruct (selectSegment m _) as [|kind body] eqn:Hsel;
  [ | destruct (Byte.eqb kind BatchSegmentKindL2Message
                || Byte.eqb kind BatchSegmentKindL2MessageBrotli) eqn:Hl2;
      [ destruct (if Byte.eqb kind BatchSegmentKindL2MessageBrotli
                  then Decompress body arbostypes.MaxL2MessageSize
                  else Some body) as [l2msg|] eqn:Hdec
      | destruct (Byte.eqb kind BatchSegmentKindDelayedMessages) eqn:Hdel;
        [ cbn [delayedMessagesRead setCursor backend];
          destruct (afterDelayedMessages m <=? _) eqn:Hafter;
          [ | destruct (ReadDelayedInbox _ _) as [delayed|realErr] eqn:Hread ]
        | ] ] ].

Lemma cursorOf_setCursor (c : cursor) (r : mux) : cursorOf (setCursor c r) = c.
Proof. now destruct c. Qed.

(** [getNextMsg] on a cached batch returns; it stores the cursor it
    stopped at and touches nothing else but, when it consumes a delayed
    message, [delayedMessagesRead]; the only error it returns is that of
    [ReadDelayedInbox], with which nothing is consumed. *)
Lemma getNextMsg_frame (r : mux) (m : sequencerMessage) :
  cachedSequencerMessage r = Some m ->
  exists msg err r1,
    getNextMsg r = Returns ((msg, err), r1) /\
    cachedSequencerMessage r1 = Some m /\
    backend r1 = backend r /\
    cursorOf r1 = seekCursor r m /\
    (delayedMessagesRead r1 = delayedMessagesRead r \/
     delayedMessagesRead r < afterDelayedMessages m /\
     delayedMessagesRead r1 = add64 (delayedMessagesRead r) 1 /\ err = None) /\
    (forall e, err = Some e ->
       msg = None /\
       delayedMessagesRead r1 = delayedMessagesRead r /\
       delayedMessagesRead r < afterDelayedMessages m /\
       ReadDelayedInbox (delayedMessagesRead r) (backend r) = Err e).
Proof.
  intros Hm. getNextMsg_exits m Hm;
    do 3 eexists; (split; [reflexivity|]); cbn;
    try (apply Z.leb_gt in Hafter);
    (repeat split; try assumption; try apply cursorOf_setCursor;
     try (left; reflexivity); try discriminate; try congruence).
  right. repeat split. exact Hafter.
Qed.

(** C10.  A [Pop] that returns a nil error returns a message: whenever
    [getNextMsg] comes back with neither a message nor an error (an empty
    segment, a brotli sub-message that does not decompress, an unknown
    segment kind), [Pop] returns [InvalidL1Message] with the value that
    [delayedMessagesRead] has when [Pop] returns, and a nil error. *)
Theorem Pop_nil_error_has_message
    (r r' : mux) (msg : option arbostypes.MessageWithMetadata)
    (err : option error) :
  Pop r = Returns ((msg, err), r') ->
  (err = None -> exists message, msg = Some message) /\
  (forall r0 r1 : mux,
      loadBatch r = Returns (inr r0) ->
      getNextMsg r0 = Returns ((None, None), r1) ->
      msg = Some (invalidMessage (delayedMessagesRead r')) /\ err = None).
Proof.
  unfold Pop. destruct (loadBatch r) as [[[e r0]|r0]|h]; simpl; try discriminate.
  - intros H. inversion H; subst. split; [discriminate|]. intros ? ? Hl. discriminate.
  - unfold popCached.
    destruct (getNextMsg r0) as [[[msg0 err0] r1]|h] eqn:Hg0; simpl;
      try discriminate.
    destruct (IsCachedSegementLast r1) as [isLast|h]; simpl; try discriminate.
    intros H. inversion H; subst. split.
    + intros ->. destruct msg0; eexists; reflexivity.
    + intros r0' r1' Hl Hg. inversion Hl; subst r0'.
      rewrite Hg0 in Hg. inversion Hg; subst. split; reflexivity.
Qed.

(** The soft failures of [getNextMsg]: the selected segment is of no known
    kind, or is a brotli sub-message that does not decompress. *)
Lemma getNextMsg_soft_failure (r : mux) (m : sequencerMessage)
    (kind : byte) (body : list byte) :
  cachedSequencerMessage r = Some m ->
  selectSegment m (seekCursor r m) = kind :: body ->
  (kind = BatchSegmentKindL2MessageBrotli /\
   Decompress body arbostypes.MaxL2MessageSize = None) \/
  (Byte.eqb kind BatchSegmentKindL2Message = false /\
   Byte.eqb kind BatchSegmentKindL2MessageBrotli = false /\
   Byte.eqb kind BatchSegmentKindDelayedMessages = false) ->
  getNextMsg r = Returns ((None, None), setCursor (seekCursor r m) r).
Proof.
  intros Hm Hsel Hkind. unfold getNextMsg. rewrite Hm, Hsel.
  destruct Hkind as [[-> Hdec]|(H0 & H1 & H2)].
  - cbn. now rewrite Hdec.
  - now rewrite H0, H1, H2.
Qed.

End Emission.

(** An instance of C10: a batch whose only segment is of the unknown kind 9;
    [Pop] returns an invalid message and no error. *)
Lemma Pop_nil_error_has_message_witness :
  exists msg r',
    Sim.pop (Sim.fresh [Sim.brotliBatch Sim.zeroHeader [(Byte.x09, Byte.x78)]] [] 0)
    = Returns ((msg, None), r') /\
    msg = Some (invalidMessage (ac := Sim.constants) (delayedMessagesRead r')).
Proof.
  eassert (HPop : Sim.pop
                    (Sim.fresh [Sim.brotliBatch Sim.zeroHeader [(Byte.x09, Byte.x78)]] [] 0)
                  = Returns ((_, _), _)) by (vm_compute; reflexivity).
  destruct (Pop_nil_error_has_message (be := Sim.inboxBackend) _ _ _ _ HPop)
    as [_ Hsoft].
  do 2 eexists. split; [exact HPop|].
  eapply Hsoft; reflexivity.
Defined.

(** ** Timestamps and block numbers of L2 messages *)

Lemma clamp_bounds (lo hi x : Z) : lo <= hi -> lo <= clamp lo hi x <= hi.
Proof.
  intros H. unfold clamp.
  destruct (x <? lo) eqn:E1; [lia|]. apply Z.ltb_ge in E1.
  destruct (hi <? x) eqn:E2; [lia|]. apply Z.ltb_ge in E2. lia.
Qed.

Section Clamping.

Context {B : Type} {be : InboxBackend B}.
Context {hb : HeaderByteClassifier} {cd : Codecs} {ac : arbostypes.Constants}.

Let mux : Type := inboxMultiplexer (B := B).

(** C6, as the code has it.  When the segment that [getNextMsg] selects is
    an L2 segment (kind 0 or 1), the running timestamp and block number are
    stored as the walk left them, unclamped; a message that is emitted
    carries their clamped values, which lie within
    [[minTimestamp, maxTimestamp]] and [[minL1Block, maxL1Block]] provided
    the header has [minTimestamp <= maxTimestamp] and
    [minL1Block <= maxL1Block]; a segment of kind 0 is always emitted. *)
Theorem emitted_L2_message_is_clamped
    (r : mux) (m : sequencerMessage) (kind : byte) (body : list byte) :
  cachedSequencerMessage r = Some m ->
  selectSegment m (seekCursor r m) = kind :: body ->
  kind = BatchSegmentKindL2Message \/ kind = BatchSegmentKindL2MessageBrotli ->
  exists res r1,
    getNextMsg r = Returns (res, r1) /\
    cachedSegmentTimestamp r1 = timestamp (seekCursor r m) /\
    cachedSegmentBlockNumber r1 = blockNumber (seekCursor r m) /\
    (kind = BatchSegmentKindL2Message ->
     res = (Some (l2Message
                    (clamp (minL1Block m) (maxL1Block m) (cachedSegmentBlockNumber r1))
                    (clamp (minTimestamp m) (maxTimestamp m) (cachedSegmentTimestamp r1))
                    body (delayedMessagesRead r)), None)) /\
    forall hdr, emittedHeader res = Some hdr ->
      arbostypes.Timestamp hdr
      = clamp (minTimestamp m) (maxTimestamp m) (cachedSegmentTimestamp r1) /\
      arbostypes.BlockNumber hdr
      = clamp (minL1Block m) (maxL1Block m) (cachedSegmentBlockNumber r1) /\
      (minTimestamp m <= maxTimestamp m ->
       minTimestamp m <= arbostypes.Timestamp hdr <= maxTimestamp m) /\
      (minL1Block m <= maxL1Block m ->
       minL1Block m <= arbostypes.BlockNumber hdr <= maxL1Block m).
Proof.
  intros Hm Hsel Hkind. unfold getNextMsg. rewrite Hm, Hsel.
  assert (Hl2 : Byte.eqb kind BatchSegmentKindL2Message
                || Byte.eqb kind BatchSegmentKindL2MessageBrotli = true).
  { destruct Hkind as [-> | ->]; reflexivity. }
  rewrite Hl2.
  destruct (if Byte.eqb kind BatchSegmentKindL2MessageBrotli
            then Decompress body arbostypes.MaxL2MessageSize
            else Some body) as [l2msg|] eqn:Hdec;
    do 2 eexists; (split; [reflexivity|]); cbn;
    (split; [reflexivity|]); (split; [reflexivity|]); split.
  - intros ->. cbn in Hdec. now inversion Hdec.
  - intros hdr Hhdr. inversion Hhdr; subst hdr. cbn.
    repeat split; try apply clamp_bounds; assumption.
  - intros ->. discriminate.
  - discriminate.
Qed.

End Clamping.

(** C6 as stated fails: nothing makes the parser refuse a header with
    [minTimestamp] 10 above [maxTimestamp] 5, and the L2 message of such a
    batch is emitted with timestamp 10, outside the header's bounds. *)
Lemma emitted_timestamp_above_maxTimestamp :
  let data :=
    Sim.brotliBatch (Sim.header Byte.x0a Byte.x05 Byte.x00 Byte.x00 Byte.x00)
      [(Byte.x00, Byte.x78)] in
  (exists m,
     parseSequencerMessage (hb := Sim.classifier) (cd := Sim.codecs)
       0 [] data [] KeysetValidate = Returns (Ok m) /\
     minTimestamp m = 10 /\ maxTimestamp m = 5) /\
  returned (Sim.pop (Sim.fresh [data] [] 0))
  = Some (Some (l2Message (ac := Sim.constants) 0 10 [Byte.x78] 0), None) /\
  ~ (10 <= 10 <= 5).
Proof.
  cbv zeta. split; [|split].
  - eexists. split; [vm_compute; reflexivity|]. split; reflexivity.
  - vm_compute. reflexivity.
  - lia.
Qed.

(** An instance of the amended C6: header bounds [0, 100] and [10, 100],
    segments advance-timestamp 5, advance-block 2, L2 message "x".  The block
    number is stored as 2 and emitted as 10. *)
Lemma emitted_L2_message_is_clamped_witness :
  let m :=
    {| minTimestamp := 0; maxTimestamp := 100; minL1Block := 10; maxL1Block := 100;
       afterDelayedMessages := 0;
       segments := [[Byte.x03; Byte.x05]; [Byte.x04; Byte.x02]; [Byte.x00; Byte.x78]] |} in
  exists res r1,
    getNextMsg (be := Sim.inboxBackend) (cd := Sim.codecs) (ac := Sim.constants)
      (setCachedSequencerMessage (Some m) (Sim.fresh [] [] 0))
    = Returns (res, r1) /\
    cachedSegmentTimestamp r1 = 5 /\
    cachedSegmentBlockNumber r1 = 2 /\
    res = (Some (l2Message (ac := Sim.constants) 10 5 [Byte.x78] 0), None).
Proof.
  intros m.
  destruct (emitted_L2_message_is_clamped (be := Sim.inboxBackend)
              (cd := Sim.codecs) (ac := Sim.constants)
              (setCachedSequencerMessage (Some m) (Sim.fresh [] [] 0)) m
              Byte.x00 [Byte.x78] eq_refl eq_refl (or_introl eq_refl))
    as (res & r1 & Hg & Hts & Hbn & Hres & _).
  exists res, r1. split; [exact Hg|].
  change (timestamp _) with 5 in Hts. change (blockNumber _) with 2 in Hbn.
  split; [exact Hts|]. split; [exact Hbn|].
  rewrite (Hres eq_refl), Hts, Hbn. reflexivity.
Defined.

(** ** The scenario of the advance directives *)

Section Scenario.

Context {B : Type} {be : InboxBackend B}.
Context {hb : HeaderByteClassifier} {cd : Codecs} {ac : arbostypes.Constants}.

Let mux : Type := inboxMultiplexer (B := B).

Lemma IsCachedSegementLast_total (r : mux) (m : sequencerMessage) :
  cachedSequencerMessage r = Some m ->
  0 <= cachedSegmentNum r < 2 ^ 63 - 1 ->
  exists last, IsCachedSegementLast r = Returns last.
Proof.
  intros Hm Hc. unfold IsCachedSegementLast. rewrite Hm.
  destruct (delayedMessagesRead r <? afterDelayedMessages m); [now eexists|].
  rewrite next_index_exact by assumption.
  destruct (cachedSegmentNum r + 1 <? len (segments m)); [|now eexists].
  destruct (cachedSegmentNum r + 1 <? 0) eqn:E; [apply Z.ltb_lt in E; lia|].
  now eexists.
Qed.

(** C4, as the code has it.  Header [minT = 0, maxT = 100, minL1 = 10,
    maxL1 = 100], segments [[0x03, RLP(5)], [0x04, RLP(2)], [0x00, 'x']]:
    the first [Pop] on the batch emits the L2 message "x" with timestamp 5
    and block number 10.  The running block number starts at 0, the
    advance makes it 2, and the clamp raises it to [minL1Block]. *)
Theorem advance_directives_scenario (r : mux) (m : sequencerMessage) :
  batchInPlay r m ->
  minTimestamp m = 0 -> maxTimestamp m = 100 ->
  minL1Block m = 10 -> maxL1Block m = 100 ->
  segments m = [[Byte.x03; Byte.x05]; [Byte.x04; Byte.x02]; [Byte.x00; Byte.x78]] ->
  cursorOf r
  = {| segmentNum := 0; timestamp := 0; blockNumber := 0; submessageNumber := 0 |} ->
  GetPositionWithinMessage (backend r) = 0 ->
  StreamUint64 (NewStream [Byte.x05] 16) = Some 5 ->
  StreamUint64 (NewStream [Byte.x02] 16) = Some 2 ->
  exists r',
    Pop r
    = Returns ((Some (l2Message 10 5 [Byte.x78] (delayedMessagesRead r)), None), r').
Proof.
  intros Hplay HminT HmaxT HminL HmaxL Hsegs Hcur Hpos H5 H2.
  destruct (Pop_inPlay r m Hplay)
    as (r0 & HPop & Hm0 & Hb0 & Hd0 & Hc0 & Hts0 & Hbn0 & Hsub0).
  unfold cursorOf in Hcur. injection Hcur as Hc Hts Hbn Hsub.
  assert (Hseek : seekCursor r0 m
                  = {| segmentNum := 2; timestamp := 5; blockNumber := 2;
                       submessageNumber := 0 |}).
  { unfold seekCursor, cursorOf.
    rewrite Hsegs, Hb0, Hpos, Hc0, Hts0, Hbn0, Hsub0, Hc, Hts, Hbn, Hsub.
    cbn. rewrite H5, H2. reflexivity. }
  set (c := {| segmentNum := 2; timestamp := 5; blockNumber := 2;
               submessageNumber := 0 |}) in *.
  assert (Hget : getNextMsg r0
                 = Returns ((Some (l2Message 10 5 [Byte.x78] (delayedMessagesRead r)),
                             None), setCursor c r0)).
  { unfold getNextMsg. rewrite Hm0, Hseek.
    unfold selectSegment. rewrite Hsegs, HminT, HmaxT, HminL, HmaxL.
    cbn. rewrite Hd0. reflexivity. }
  destruct (IsCachedSegementLast_total (setCursor c r0) m) as [last Hlast].
  - exact Hm0.
  - cbn. lia.
  - rewrite HPop. unfold popCached. rewrite Hget. cbn. rewrite Hlast. cbn.
    eexists. reflexivity.
Qed.

End Scenario.

(** C4 as stated fails: on the batch of the scenario the first [Pop] emits
    block number 10, not 12. *)
Lemma advance_directives_block_is_10 :
  let data :=
    Sim.brotliBatch (Sim.header Byte.x00 Byte.x64 Byte.x0a Byte.x64 Byte.x00)
      [(Byte.x03, Byte.x05); (Byte.x04, Byte.x02); (Byte.x00, Byte.x78)] in
  parseSequencerMessage (hb := Sim.classifier) (cd := Sim.codecs)
    0 [] data [] KeysetValidate
  = Returns
      (Ok {| minTimestamp := 0; maxTimestamp := 100; minL1Block := 10;
             maxL1Block := 100; afterDelayedMessages := 0;
             segments :=
               [[Byte.x03; Byte.x05]; [Byte.x04; Byte.x02]; [Byte.x00; Byte.x78]] |}) /\
  StreamUint64 (Codecs := Sim.codecs) (NewStream (Codecs := Sim.codecs) [Byte.x05] 16)
  = Some 5 /\
  StreamUint64 (Codecs := Sim.codecs) (NewStream (Codecs := Sim.codecs) [Byte.x02] 16)
  = Some 2 /\
  (exists hdr,
     option_map (emittedHeader) (returned (Sim.pop (Sim.fresh [data] [] 0)))
     = Some (Some hdr) /\
     arbostypes.Timestamp hdr = 5 /\
     arbostypes.BlockNumber hdr = 10 /\
     arbostypes.BlockNumber hdr <> 12).
Proof.
  cbv zeta. split; [vm_compute; reflexivity|].
  split; [reflexivity|]. split; [reflexivity|].
  eexists. split; [vm_compute; reflexivity|].
  cbn. repeat split; lia.
Qed.

(** An instance of the amended C4, on a new multiplexer over the batch of
    the scenario under the codecs of [Sim]. *)
Lemma advance_directives_scenario_witness :
  exists r',
    Sim.pop
      (Sim.fresh
         [Sim.brotliBatch (Sim.header Byte.x00 Byte.x64 Byte.x0a Byte.x64 Byte.x00)
            [(Byte.x03, Byte.x05); (Byte.x04, Byte.x02); (Byte.x00, Byte.x78)]]
         [] 0)
    = Returns ((Some (l2Message (ac := Sim.constants) 10 5 [Byte.x78] 0), None), r').
Proof.
  eapply (advance_directives_scenario (be := Sim.inboxBackend) (hb := Sim.classifier)
            (cd := Sim.codecs) (ac := Sim.constants)).
  - eexists. eexists. split; [reflexivity|]. vm_compute. reflexivity.
  - reflexivity.
  - reflexivity.
  - reflexivity.
  - reflexivity.
  - reflexivity.
  - reflexivity.
  - reflexivity.
  - reflexivity.
  - reflexivity.
Defined.

(** ** [delayedMessagesRead] along a run *)

Section Monotone.

Context {B : Type} {be : InboxBackend B}.
Context {hb : HeaderByteClassifier} {cd : Codecs} {ac : arbostypes.Constants}.

Let mux : Type := inboxMultiplexer (B := B).

Lemma IsCachedSegementLast_below (r : mux) (m : sequencerMessage) :
  cachedSequencerMessage r = Some m ->
  delayedMessagesRead r < afterDelayedMessages m ->
  IsCachedSegementLast r = Returns false.
Proof.
  intros Hm Hd. unfold IsCachedSegementLast. rewrite Hm.
  apply Z.ltb_lt in Hd. now rewrite Hd.
Qed.

Lemma add64_succ_le (d a : Z) : d < a -> a < 2 ^ 64 -> d <= add64 d 1.
Proof.
  intros Hd Ha. unfold add64.
  destruct (Z_lt_le_dec d 0) as [Hneg|Hpos].
  - pose proof (Z.mod_pos_bound (d + 1) (2 ^ 64) ltac:(lia)). lia.
  - rewrite Z.mod_small; lia.
Qed.

(** One call: [delayedMessagesRead] does not go down when the batch in play
    is well posted. *)
Lemma Pop_delayedMessagesRead_le (r r' : mux) (res : PopResult) :
  Pop r = Returns (res, r') -> wellPosted r ->
  delayedMessagesRead r <= delayedMessagesRead r'.
Proof.
  unfold Pop. intros HPop Hwp.
  destruct (loadBatch r) as [[[e r0]|r0]|h] eqn:Hload; simpl in HPop;
    try discriminate.
  - inversion HPop; subst.
    destruct (loadBatch_failed _ _ _ Hload) as (_ & _ & (_ & Hd & _) & _). lia.
  - destruct (loadBatch_loaded _ _ Hload) as (m & Hplay & Hm0 & _ & Hd0 & _).
    destruct (Hwp m Hplay) as [Hle Hlt].
    destruct (getNextMsg_frame r0 m Hm0)
      as (msg & err & r1 & Hget & Hm1 & _ & _ & Hd1 & _).
    unfold popCached in HPop. rewrite Hget in HPop. simpl in HPop.
    destruct (IsCachedSegementLast r1) as [[|]|h] eqn:Hlast; simpl in HPop;
      try discriminate; inversion HPop; subst; clear HPop.
    + unfold advanceSequencerMsg. simpl. rewrite Hm1. exact Hle.
    + unfold advanceSubMsg. simpl. rewrite <- Hd0.
      destruct Hd1 as [->|(Hlt1 & -> & _)]; [lia|].
      rewrite Hd0 in *. now apply add64_succ_le with (afterDelayedMessages m).
Qed.

(** C9, as the code has it.  Along a run of [Pop] calls in which every call
    starts on a well-posted batch (one whose [afterDelayedMessages] is not
    below the [delayedMessagesRead] of that moment), the value of
    [DelayedMessagesRead()] does not decrease. *)
Theorem delayedMessagesRead_monotone
    (n : nat) (r r' : mux) (results : list PopResult) :
  popMany n r = Returns (results, r') ->
  (forall (k : nat) (resk : list PopResult) (rk : mux),
      (k < n)%nat -> popMany k r = Returns (resk, rk) -> wellPosted rk) ->
  DelayedMessagesRead r <= DelayedMessagesRead r'.
Proof.
  unfold DelayedMessagesRead. revert r results.
  induction n as [|n IH]; intros r results Hrun Hposted.
  - simpl in Hrun. inversion Hrun; subst. lia.
  - simpl in Hrun.
    destruct (Pop r) as [[res1 r1]|h] eqn:HPop; simpl in Hrun; try discriminate.
    destruct (popMany n r1) as [[rest r2]|h] eqn:Hrest; simpl in Hrun;
      try discriminate.
    inversion Hrun; subst; clear Hrun.
    assert (H1 : delayedMessagesRead r <= delayedMessagesRead r1).
    { apply Pop_delayedMessagesRead_le with res1; [exact HPop|].
      apply (Hposted 0%nat [] r); [lia|reflexivity]. }
    assert (H2 : delayedMessagesRead r1 <= delayedMessagesRead r').
    { apply IH with rest; [exact Hrest|].
      intros k resk rk Hk Hrunk.
      apply (Hposted (S k) (res1 :: resk) rk); [lia|].
      simpl. rewrite HPop. simpl. rewrite Hrunk. reflexivity. }
    lia.
Qed.

End Monotone.

(** C9 as stated fails: a batch that declares [afterDelayedMessages] 2 while
    5 delayed messages have been read is advanced past at once, and sets
    [delayedMessagesRead] back to 2. *)
Lemma delayedMessagesRead_can_decrease :
  let r :=
    Sim.fresh [Sim.header Byte.x00 Byte.x00 Byte.x00 Byte.x00 Byte.x02] [] 5 in
  DelayedMessagesRead r = 5 /\
  option_map DelayedMessagesRead (stateAfter (Sim.pop r)) = Some 2.
Proof. cbv zeta. split; [reflexivity|vm_compute; reflexivity]. Qed.

(** An instance of the amended C9: a header-only batch that declares two
    delayed messages, none read yet; two calls of [Pop] read them. *)
Lemma delayedMessagesRead_monotone_witness :
  let r :=
    Sim.fresh [Sim.header Byte.x00 Byte.x00 Byte.x00 Byte.x00 Byte.x02]
      [Byte.x61; Byte.x62] 0 in
  exists results r',
    popMany (be := Sim.inboxBackend) (hb := Sim.classifier) (cd := Sim.codecs)
      (ac := Sim.constants) 2 r = Returns (results, r') /\
    DelayedMessagesRead r <= DelayedMessagesRead r'.
Proof.
  intros r.
  eassert (Hrun : popMany (be := Sim.inboxBackend) (hb := Sim.classifier)
                    (cd := Sim.codecs) (ac := Sim.constants) 2 r
                  = Returns (_, _)) by (vm_compute; reflexivity).
  do 2 eexists. split; [exact Hrun|].
  apply (delayedMessagesRead_monotone (be := Sim.inboxBackend) (hb := Sim.classifier)
           (cd := Sim.codecs) (ac := Sim.constants) 2 r _ _ Hrun).
  intros k resk rk Hk Hrunk m Hplay.
  destruct k as [|[|k]]; [| |lia].
  - inversion Hrunk; subst rk.
    destruct Hplay as (bytes & h & Hpeek & Hparse).
    inversion Hpeek; subst bytes h.
    vm_compute in Hparse. inversion Hparse; subst m. cbn. lia.
  - vm_compute in Hrunk. inversion Hrunk; subst rk.
    unfold batchInPlay in Hplay. cbn in Hplay. subst m. cbn. lia.
Defined.

(** ** Errors returned by [Pop] *)

Section PopErrors.

Context {B : Type} {be : InboxBackend B}.
Context {hb : HeaderByteClassifier} {cd : Codecs} {ac : arbostypes.Constants}.

Let mux : Type := inboxMultiplexer (B := B).

(** C3, as the code has it.  When [Pop] returns an error it returns no
    message and leaves [delayedMessagesRead] as it was.  If the error is
    that of the Backend's peek or of the parser, the cached batch is still
    absent and the cursors and the Backend are untouched.  Otherwise the
    error is that of [ReadDelayedInbox]: the batch stays cached and the
    position within the message has been advanced by one all the same. *)
Theorem Pop_error_state
    (r r' : mux) (msg : option arbostypes.MessageWithMetadata) (e : error) :
  Pop r = Returns ((msg, Some e), r') ->
  msg = None /\
  delayedMessagesRead r' = delayedMessagesRead r /\
  ((cachedSequencerMessage r = None /\
    cachedSequencerMessage r' = None /\
    sameCursors r r' /\
    (PeekSequencerInbox (backend r) = Err e \/
     exists bytes h,
       PeekSequencerInbox (backend r) = Ok (bytes, h) /\
       parseSequencerMessage (GetSequencerInboxPosition (backend r)) h bytes
         (daProviders r) (keysetValidationMode r) = Returns (Err e)))
   \/
   (exists m,
      batchInPlay r m /\
      cachedSequencerMessage r' = Some m /\
      delayedMessagesRead r < afterDelayedMessages m /\
      ReadDelayedInbox (delayedMessagesRead r) (backend r) = Err e /\
      backend r'
      = SetPositionWithinMessage
          (add64 (GetPositionWithinMessage (backend r)) 1) (backend r))).
Proof.
  unfold Pop. intros HPop.
  destruct (loadBatch r) as [[[e0 r0]|r0]|h] eqn:Hload; simpl in HPop;
    try discriminate.
  - inversion HPop; subst.
    destruct (loadBatch_failed _ _ _ Hload) as (Hnone & Hnone' & Hsame & Hwhy).
    split; [reflexivity|]. split; [apply Hsame|]. left. auto.
  - destruct (loadBatch_loaded _ _ Hload) as (m & Hplay & Hm0 & Hb0 & Hd0 & _).
    destruct (getNextMsg_frame r0 m Hm0)
      as (msg0 & err0 & r1 & Hget & Hm1 & Hb1 & _ & _ & Herr).
    unfold popCached in HPop. rewrite Hget in HPop. simpl in HPop.
    destruct (IsCachedSegementLast r1) as [last|h] eqn:Hlast; simpl in HPop;
      try discriminate.
    inversion HPop as [[Hmsg Herr0 Hr']]. subst err0.
    destruct (Herr e eq_refl) as (-> & Hd1 & Hlt & Hread).
    rewrite (IsCachedSegementLast_below r1 m Hm1) in Hlast by lia.
    inversion Hlast; subst last. unfold advanceSubMsg. cbn.
    split; [reflexivity|]. split; [lia|]. right. exists m.
    rewrite Hb1, Hb0, Hd0 in *. repeat split; assumption.
Qed.

End PopErrors.

(** C3 as stated fails: a header-only batch promises one delayed message
    that the Backend cannot produce; [Pop] returns the Backend's error, and
    has by then cached the batch and moved the position within the message
    from 0 to 1. *)
Lemma Pop_advances_on_delayed_inbox_error :
  let r :=
    Sim.fresh [Sim.header Byte.x00 Byte.x00 Byte.x00 Byte.x00 Byte.x01] [] 0 in
  returned (Sim.pop r) = Some (None, Some (ErrExternal 1)) /\
  cachedSequencerMessage r = None /\
  Sim.positionWithinMessage (backend r) = 0 /\
  option_map (fun r' => Sim.positionWithinMessage (backend r')) (stateAfter (Sim.pop r))
  = Some 1 /\
  option_map (fun r' => option_map afterDelayedMessages (cachedSequencerMessage r'))
    (stateAfter (Sim.pop r))
  = Some (Some 1).
Proof.
  cbv zeta. repeat split; vm_compute; reflexivity.
Qed.

(** An instance of the amended C3: the sequencer inbox is empty, the peek
    fails, nothing moves. *)
Lemma Pop_error_state_witness :
  let r := Sim.fresh [] [] 0 in
  exists r',
    Sim.pop r = Returns ((None, Some (ErrExternal 0)), r') /\
    delayedMessagesRead r' = delayedMessagesRead r.
Proof.
  intros r.
  eassert (HPop : Sim.pop r = Returns ((_, Some _), _)) by (vm_compute; reflexivity).
  eexists. split; [exact HPop|].
  apply (Pop_error_state (be := Sim.inboxBackend) _ _ _ _ HPop).
Defined.

(** ** Determinism of the sequence of messages *)

Section Determinism.

Context {B1 B2 : Type} {be1 : InboxBackend B1} {be2 : InboxBackend B2}.
Context {hb : HeaderByteClassifier} {cd : Codecs} {ac : arbostypes.Constants}.

Variable R : B1 -> B2 -> Prop.
Hypothesis HR : Indistinguishable R.

Let mux1 : Type := inboxMultiplexer (B := B1).
Let mux2 : Type := inboxMultiplexer (B := B2).

Lemma obind_rel {A1 A2 C1 C2 : Type} (Q : A1 -> A2 -> Prop) (Q' : C1 -> C2 -> Prop)
    (o1 : outcome A1) (o2 : outcome A2) (k1 : A1 -> outcome C1) (k2 : A2 -> outcome C2) :
  outcomeRel Q o1 o2 ->
  (forall a1 a2, Q a1 a2 -> outcomeRel Q' (k1 a1) (k2 a2)) ->
  outcomeRel Q' (obind o1 k1) (obind o2 k2).
Proof.
  destruct o1, o2; simpl; intros H Hk; try contradiction; auto.
Qed.

Ltac open_alike H :=
  let Hb := fresh "Hb" in
  let Hc := fresh "Hc" in
  destruct H as (Hb & Hd & Hp & Hm & Hn & Hc & Hk);
  unfold cursorOf in Hc; injection Hc as Hc1 Hc2 Hc3 Hc4.

Lemma seekCursor_alike (r1 : mux1) (r2 : mux2) (m : sequencerMessage) :
  alike R r1 r2 -> seekCursor r1 m = seekCursor r2 m.
Proof.
  intros H. pose proof H as (Hb & _). open_alike H.
  unfold seekCursor, cursorOf.
  now rewrite (same_within HR _ _ Hb), Hc1, Hc2, Hc3, Hc4.
Qed.

Lemma setCursor_alike (r1 : mux1) (r2 : mux2) (c : cursor) :
  alike R r1 r2 -> alike R (setCursor c r1) (setCursor c r2).
Proof. intros H. open_alike H. repeat split; assumption. Qed.

Lemma setDelayedMessagesRead_alike (r1 : mux1) (r2 : mux2) (d : Z) :
  alike R r1 r2 ->
  alike R (setDelayedMessagesRead d r1) (setDelayedMessagesRead d r2).
Proof.
  intros H. open_alike H. unfold alike, cursorOf. cbn.
  rewrite Hc1, Hc2, Hc3, Hc4. repeat split; assumption.
Qed.

Lemma getNextMsg_alike (r1 : mux1) (r2 : mux2) :
  alike R r1 r2 -> outcomeRel (alikeStep R) (getNextMsg r1) (getNextMsg r2).
Proof.
  intros H. pose proof H as (Hb & Hd & _ & Hm & _).
  unfold getNextMsg. rewrite Hm.
  destruct (cachedSequencerMessage r2) as [m|]; [|reflexivity].
  rewrite (seekCursor_alike r1 r2 m H).
  pose proof (setCursor_alike r1 r2 (seekCursor r2 m) H) as Hset.
  destruct (selectSegment m (seekCursor r2 m)) as [|kind body];
    [split; [reflexivity|exact Hset]|].
  destruct (Byte.eqb kind BatchSegmentKindL2Message
            || Byte.eqb kind BatchSegmentKindL2MessageBrotli).
  - destruct (if Byte.eqb kind BatchSegmentKindL2MessageBrotli
              then Decompress body arbostypes.MaxL2MessageSize
              else Some body);
      (split; [cbn; try rewrite Hd; reflexivity|exact Hset]).
  - destruct (Byte.eqb kind BatchSegmentKindDelayedMessages);
      [|split; [reflexivity|exact Hset]].
    cbn [delayedMessagesRead setCursor backend]. rewrite Hd.
    destruct (afterDelayedMessages m <=? delayedMessagesRead r2);
      [split; [reflexivity|exact Hset]|].
    rewrite (same_delayed HR _ _ _ Hb).
    destruct (ReadDelayedInbox (delayedMessagesRead r2) (backend r2));
      [|split; [reflexivity|exact Hset]].
    split; [reflexivity|].
    apply (setDelayedMessagesRead_alike _ _ _ Hset).
Qed.

Lemma IsCachedSegementLast_alike (r1 : mux1) (r2 : mux2) :
  alike R r1 r2 -> IsCachedSegementLast r1 = IsCachedSegementLast r2.
Proof.
  intros H. open_alike H. unfold IsCachedSegementLast. now rewrite Hm, Hd, Hc1.
Qed.

Lemma advanceSequencerMsg_alike (r1 : mux1) (r2 : mux2) :
  alike R r1 r2 -> alike R (advanceSequencerMsg r1) (advanceSequencerMsg r2).
Proof.
  intros H. open_alike H. unfold advanceSequencerMsg, alike, cursorOf. cbn.
  rewrite Hm, Hd. repeat split; try assumption.
  apply (advance_related HR). now apply (set_related HR).
Qed.

Lemma advanceSubMsg_alike (r1 : mux1) (r2 : mux2) :
  alike R r1 r2 -> alike R (advanceSubMsg r1) (advanceSubMsg r2).
Proof.
  intros H. pose proof H as (Hb' & _). open_alike H.
  unfold advanceSubMsg, alike, cursorOf. cbn.
  rewrite (same_within HR _ _ Hb'), Hc1, Hc2, Hc3, Hc4.
  repeat split; try assumption. now apply (set_related HR).
Qed.

Lemma popCached_alike (r1 : mux1) (r2 : mux2) :
  alike R r1 r2 -> outcomeRel (alikeStep R) (popCached r1) (popCached r2).
Proof.
  intros H. unfold popCached.
  apply obind_rel with (Q := alikeStep R); [now apply getNextMsg_alike|].
  intros [[msg1 err1] s1] [[msg2 err2] s2] [Hres Hs]. cbn in Hres, Hs.
  injection Hres as -> ->.
  rewrite (IsCachedSegementLast_alike s1 s2 Hs).
  destruct (IsCachedSegementLast s2) as [[|]|h]; [| |reflexivity];
    unfold obind, outcomeRel, alikeStep; cbn [fst snd].
  - pose proof (advanceSequencerMsg_alike s1 s2 Hs) as Hadv.
    pose proof Hadv as (_ & Hd & _). split; [now rewrite Hd|exact Hadv].
  - pose proof (advanceSubMsg_alike s1 s2 Hs) as Hadv.
    pose proof Hadv as (_ & Hd & _). split; [now rewrite Hd|exact Hadv].
Qed.

Lemma Pop_alike (r1 : mux1) (r2 : mux2) :
  alike R r1 r2 -> outcomeRel (alikeStep R) (Pop r1) (Pop r2).
Proof.
  intros H. pose proof H as (Hb & Hd & Hp & Hm & Hn & Hc & Hk).
  unfold Pop, loadBatch. rewrite Hm.
  destruct (cachedSequencerMessage r2) as [m|] eqn:Hm2;
    [cbn; now apply popCached_alike|].
  rewrite (same_peek HR _ _ Hb).
  destruct (PeekSequencerInbox (backend r2)) as [[bytes h]|e];
    [|cbn; split; [reflexivity|exact H]].
  cbn. rewrite (same_position HR _ _ Hb), Hp, Hk.
  destruct (parseSequencerMessage _ _ _ _ _) as [[parsedMsg|e]|hl]; cbn;
    [| |reflexivity].
  - apply popCached_alike. unfold alike, cursorOf in *. cbn.
    repeat split; assumption.
  - split; [reflexivity|]. unfold alike, cursorOf in *. cbn.
    repeat split; assumption.
Qed.

Lemma popMany_alike (n : nat) (r1 : mux1) (r2 : mux2) :
  alike R r1 r2 -> outcomeRel (alikeStep R) (popMany n r1) (popMany n r2).
Proof.
  revert r1 r2. induction n as [|n IH]; intros r1 r2 H.
  - split; [reflexivity|exact H].
  - simpl. apply obind_rel with (Q := alikeStep R); [now apply Pop_alike|].
    intros [res1 s1] [res2 s2] [Hres Hs]. cbn in Hres, Hs. subst res2.
    apply obind_rel with (Q := alikeStep R); [now apply IH|].
    intros [l1 t1] [l2 t2] [Hl Ht]. cbn in Hl, Ht. subst l2.
    split; [reflexivity|exact Ht].
Qed.

(** C1.  Two new multiplexers, made with the same delayed-message count,
    the same providers and the same keyset-validation mode over Backends in
    states that cannot be told apart, return the same messages and errors in
    the same order over any number of calls of [Pop], or stop at the same
    call. *)
Theorem Pop_sequence_deterministic
    (n : nat) (b1 : B1) (b2 : B2) (delayedRead : Z)
    (providers : list (option DataAvailabilityProvider))
    (mode : KeysetValidationMode) :
  R b1 b2 ->
  returned (popMany n (NewInboxMultiplexer b1 delayedRead providers mode))
  = returned (popMany n (NewInboxMultiplexer b2 delayedRead providers mode)).
Proof.
  intros Hb.
  pose proof (popMany_alike n
                (NewInboxMultiplexer b1 delayedRead providers mode)
                (NewInboxMultiplexer b2 delayedRead providers mode)) as H.
  unfold outcomeRel, alikeStep, returned in *.
  destruct (popMany n (NewInboxMultiplexer b1 delayedRead providers mode))
    as [[l1 s1]|h1];
    destruct (popMany n (NewInboxMultiplexer b2 delayedRead providers mode))
      as [[l2 s2]|h2]; cbn in H.
  - destruct H as [-> _]; [repeat split; assumption|reflexivity].
  - exfalso. apply H. repeat split; assumption.
  - exfalso. apply H. repeat split; assumption.
  - reflexivity.
Qed.

End Determinism.

Lemma tl_skipn {A : Type} (l : list A) (n : nat) :
  tl (skipn n l) = skipn (S n) l.
Proof.
  revert l. induction n as [|n IH]; intros [|x l]; try reflexivity.
  apply (IH l).
Qed.

(** The two Backends of [Sim] cannot be told apart while the queue of the
    one holds what the other has yet to serve. *)
Lemma sameStream_indistinguishable :
  Indistinguishable (be1 := Sim.inboxBackend) (be2 := Sim.queueBackend) Sim.sameStream.
Proof.
  split.
  - intros b q (Hp & _). cbn. rewrite Hp.
    destruct (nth_error (Sim.batches b) (Sim.position b)) as [batch|] eqn:E.
    + now rewrite (skipn_nth_error_cons _ _ _ E).
    + apply nth_error_None in E. now rewrite skipn_all2.
  - intros b q (_ & Hc & _). cbn. now rewrite Hc.
  - intros b q (_ & _ & Hw & _). cbn. now rewrite Hw.
  - intros b q n (_ & _ & _ & Hi). cbn. now rewrite Hi.
  - intros b q (Hp & Hc & Hw & Hi). repeat split; cbn; try assumption.
    + rewrite Hp. apply tl_skipn.
    + now rewrite Hc.
  - intros b q pos (Hp & Hc & Hw & Hi). repeat split; assumption.
Qed.

(** An instance of C1: the same two batches and the same delayed inbox
    served by the two Backends of [Sim]; four calls of [Pop]. *)
Lemma Pop_sequence_deterministic_witness :
  let batches :=
    [Sim.brotliBatch (Sim.header Byte.x00 Byte.x64 Byte.x0a Byte.x64 Byte.x01)
       [(Byte.x03, Byte.x05); (Byte.x00, Byte.x78)];
     Sim.header Byte.x00 Byte.x00 Byte.x00 Byte.x00 Byte.x01] in
  returned
    (popMany (be := Sim.inboxBackend) (hb := Sim.classifier) (cd := Sim.codecs)
       (ac := Sim.constants) 4
       (NewInboxMultiplexer (Sim.backendOf batches [Byte.x61]) 0 [] KeysetValidate))
  = returned
      (popMany (be := Sim.queueBackend) (hb := Sim.classifier) (cd := Sim.codecs)
         (ac := Sim.constants) 4
         (NewInboxMultiplexer (Sim.queueOf batches [Byte.x61]) 0 [] KeysetValidate)).
Proof.
  intros batches.
  apply (Pop_sequence_deterministic Sim.sameStream sameStream_indistinguishable).
  repeat split.
Defined.

Lemma eq_indistinguishable {B : Type} {be : InboxBackend B} :
  Indistinguishable (be1 := be) (be2 := be) eq.
Proof. split; intros; subst; reflexivity. Qed.

(** ** The segment cursor stays within the batch *)

Section CursorRange.

Context {B : Type} {be : InboxBackend B}.
Context {hb : HeaderByteClassifier} {cd : Codecs} {ac : arbostypes.Constants}.

Let mux : Type := inboxMultiplexer (B := B).

Lemma readSegments_length (room : nat) (stream : RlpStream) (segs : list (list byte)) :
  (length (readSegments room stream segs) <= length segs + room)%nat.
Proof.
  revert stream segs. induction room as [|room IH]; intros stream segs; simpl.
  - destruct (DecodeBytes stream) as [[segment stream']|]; lia.
  - destruct (DecodeBytes stream) as [[segment stream']|]; [|lia].
    specialize (IH stream' (segs ++ [segment])).
    rewrite length_app in IH. simpl in IH. lia.
Qed.

Lemma stageZeroheavy_segments (data payload : list byte) :
  len (segments (stageZeroheavy (headerOnly data) payload))
  <= MaxSegmentsPerSequencerMessage.
Proof.
  assert (Hb : forall pl,
             len (segments (stageBrotli (headerOnly data) pl))
             <= MaxSegmentsPerSequencerMessage).
  { intros pl. unfold stageBrotli.
    destruct pl as [|b body]; [cbn; lia|].
    destruct (IsBrotliMessageHeaderByte b); [|cbn; lia].
    destruct (Decompress body MaxDecompressedLen) as [decompressed|]; [|cbn; lia].
    cbn [segments withSegments headerOnly]. unfold len.
    pose proof (readSegments_length
                  (Z.to_nat (MaxSegmentsPerSequencerMessage - Z.of_nat (@length (list byte) [])))
                  (NewStream decompressed MaxDecompressedLen) []) as H.
    cbn [length] in *. unfold MaxSegmentsPerSequencerMessage in *. lia. }
  unfold stageZeroheavy. destruct payload as [|b body]; [apply Hb|].
  destruct (IsZeroheavyEncodedHeaderByte b); [|apply Hb].
  destruct (zeroheavyReadAll body maxZeroheavyDecompressedLen); [apply Hb|cbn; lia].
Qed.

(** A parsed batch has at most [MaxSegmentsPerSequencerMessage] segments. *)
Lemma parseSequencerMessage_segments
    (batchNum : Z) (h : Hash) (data : list byte)
    (providers : list (option DataAvailabilityProvider))
    (mode : KeysetValidationMode) (m : sequencerMessage) :
  parseSequencerMessage batchNum h data providers mode = Returns (Ok m) ->
  len (segments m) <= MaxSegmentsPerSequencerMessage.
Proof.
  unfold parseSequencerMessage.
  destruct (len data <? 40); [discriminate|].
  assert (Hhdr : len (segments (headerOnly data)) <= MaxSegmentsPerSequencerMessage)
    by (cbn; unfold MaxSegmentsPerSequencerMessage; lia).
  pose proof (stageZeroheavy_segments data (skipn 40 data)) as Hstages.
  destruct (skipn 40 data) as [|b rest] eqn:Hpay.
  - intros H. apply Returns_Ok_inj in H. subst m. exact Hstages.
  - destruct (IsL1AuthenticatedMessageHeaderByte b && negb (IsKnownHeaderByte b));
      [discriminate|].
    destruct (firstClaiming providers b) as [provider|].
    + destruct (RecoverPayloadFromBatch provider batchNum h data mode)
        as [[[payload|]|e]|hl]; cbn [obind]; try discriminate;
        intros H; apply Returns_Ok_inj in H; subst m;
        [apply stageZeroheavy_segments|exact Hhdr].
    + destruct (IsDASMessageHeaderByte b);
        [|destruct (IsBlobHashesHeaderByte b); [discriminate|]];
        intros H; apply Returns_Ok_inj in H; subst m; exact Hstages.
Qed.

Lemma walkSegments_segmentNum (rest : list (list byte)) (target : Z) (c : cursor) :
  segmentNum c <= segmentNum (walkSegments rest target c) <= segmentNum c + len rest.
Proof.
  revert c. induction rest as [|segment rest IH]; intros c.
  - cbn. lia.
  - assert (Hlen : len (segment :: rest) = len rest + 1)
      by (unfold len; cbn [length]; lia).
    rewrite Hlen. cbn [walkSegments].
    destruct segment as [|kind body].
    + specialize (IH (bumpSegment c)). cbn in IH. lia.
    + destruct (Byte.eqb kind BatchSegmentKindAdvanceTimestamp
                || Byte.eqb kind BatchSegmentKindAdvanceL1BlockNumber).
      * destruct (StreamUint64 (NewStream body 16)) as [advancing|].
        -- destruct (Byte.eqb kind BatchSegmentKindAdvanceTimestamp);
             match goal with
             | |- context [walkSegments rest target ?c'] =>
                 specialize (IH c'); cbn in IH; lia
             end.
        -- specialize (IH (bumpSegment c)). cbn in IH. lia.
      * destruct (submessageNumber c <? target).
        -- match goal with
           | |- context [walkSegments rest target ?c'] =>
               specialize (IH c'); cbn in IH; lia
           end.
        -- pose proof (Zle_0_nat (length rest)). unfold len. lia.
Qed.

Lemma seekCursor_in_batch (r : mux) (m : sequencerMessage) :
  0 <= cachedSegmentNum r <= len (segments m) ->
  0 <= segmentNum (seekCursor r m) <= len (segments m).
Proof.
  intros Hc. unfold seekCursor.
  destruct (len (segments m) <=? cachedSegmentNum r); [cbn; lia|].
  pose proof (walkSegments_segmentNum
                (skipn (Z.to_nat (cachedSegmentNum r)) (segments m))
                (GetPositionWithinMessage (backend r)) (cursorOf r)) as H.
  cbn [segmentNum cursorOf] in H. unfold len in *. rewrite length_skipn in H. lia.
Qed.

(** In range, the cursor is one that [int] holds with room for the
    increment of [IsCachedSegementLast]. *)
Lemma cursorInRange_int (r : mux) (m : sequencerMessage) :
  cursorInRange r -> cachedSequencerMessage r = Some m ->
  0 <= cachedSegmentNum r < 2 ^ 63 - 1.
Proof.
  unfold cursorInRange. intros Hin Hm. rewrite Hm in Hin.
  unfold MaxSegmentsPerSequencerMessage in Hin. lia.
Qed.

Lemma NewInboxMultiplexer_cursorInRange (b : B) (d : Z)
    (providers : list (option DataAvailabilityProvider)) (mode : KeysetValidationMode) :
  cursorInRange (NewInboxMultiplexer b d providers mode).
Proof. reflexivity. Qed.

(** [Pop] keeps the cursor in range. *)
Lemma Pop_cursorInRange (r r' : mux) (res : PopResult) :
  cursorInRange r -> Pop r = Returns (res, r') -> cursorInRange r'.
Proof.
  unfold Pop. intros Hin HPop.
  destruct (loadBatch r) as [[[e r0]|r0]|h] eqn:Hload; simpl in HPop;
    try discriminate.
  - inversion HPop; subst.
    destruct (loadBatch_failed _ _ _ Hload) as (Hnone & Hnone' & (_ & _ & Hc & _) & _).
    unfold cursorInRange in *. rewrite Hnone in Hin. rewrite Hnone', Hc. exact Hin.
  - assert (Hin0 : cursorInRange r0).
    { destruct (loadBatch_loaded _ _ Hload) as (m & Hplay & Hm0 & _ & _ & Hc & _).
      unfold cursorInRange, batchInPlay in *. rewrite Hm0, Hc.
      destruct (cachedSequencerMessage r) as [cached|].
      - now subst m.
      - destruct Hplay as (bytes & h & _ & Hparse).
        apply parseSequencerMessage_segments in Hparse.
        pose proof (Zle_0_nat (length (segments m))). unfold len in *. lia. }
    unfold cursorInRange in Hin0.
    destruct (cachedSequencerMessage r0) as [m|] eqn:Hm0.
    + destruct Hin0 as [Hc Hmax].
      destruct (getNextMsg_frame r0 m Hm0)
        as (msg & err & r1 & Hget & Hm1 & _ & Hcur & _).
      unfold popCached in HPop. rewrite Hget in HPop. simpl in HPop.
      destruct (IsCachedSegementLast r1) as [[|]|h]; simpl in HPop;
        try discriminate; inversion HPop; subst; clear HPop.
      * reflexivity.
      * unfold cursorInRange, advanceSubMsg. cbn. rewrite Hm1.
        pose proof (seekCursor_in_batch r0 m Hc) as Hseek.
        rewrite <- Hcur in Hseek. cbn in Hseek. split; assumption.
    + unfold popCached, getNextMsg in HPop. rewrite Hm0 in HPop. discriminate.
Qed.

(** With the cursor in range, [Pop] returns once the batch is loaded: what
    follows the loading does not panic. *)
Lemma popCached_returns (r : mux) (m : sequencerMessage) :
  cursorInRange r -> cachedSequencerMessage r = Some m ->
  exists res r', popCached r = Returns (res, r').
Proof.
  intros Hin Hm. unfold cursorInRange in Hin. rewrite Hm in Hin.
  destruct Hin as [Hc Hmax].
  destruct (getNextMsg_frame r m Hm) as (msg & err & r1 & Hget & Hm1 & _ & Hcur & _).
  pose proof (seekCursor_in_batch r m Hc) as Hseek.
  rewrite <- Hcur in Hseek. cbn in Hseek.
  destruct (IsCachedSegementLast_total r1 m Hm1) as [last Hlast].
  - unfold MaxSegmentsPerSequencerMessage in Hmax. lia.
  - unfold popCached. rewrite Hget. cbn. rewrite Hlast. cbn. now do 2 eexists.
Qed.

End CursorRange.

(** * Further properties of the parser *)

Lemma byteZ_range (b : byte) : 0 <= byteZ b < 256.
Proof.
  unfold byteZ. pose proof (Byte.to_N_bounded b) as H.
  split; [apply N2Z.is_nonneg|]. apply N2Z.inj_le in H. simpl in H. lia.
Qed.

Lemma fold_bytes_range (l : list byte) (acc : Z) (k : nat) :
  0 <= acc < 256 ^ Z.of_nat k ->
  0 <= fold_left (fun a x => a * 256 + byteZ x) l acc
    < 256 ^ Z.of_nat (k + length l).
Proof.
  revert acc k. induction l as [|b l IH]; intros acc k Hacc.
  - simpl. now rewrite Nat.add_0_r.
  - simpl. replace (k + S (length l))%nat with (S k + length l)%nat by lia.
    apply IH. pose proof (byteZ_range b).
    rewrite Nat2Z.inj_succ, Z.pow_succ_r by lia. nia.
Qed.

(** The header fields that [binary.BigEndian.Uint64] reads are [uint64]s. *)
Lemma BigEndianUint64_range (b : list byte) : uint64 (BigEndianUint64 b).
Proof.
  unfold uint64, BigEndianUint64.
  pose proof (fold_bytes_range (firstn 8 b) 0 0 ltac:(simpl; lia)) as H.
  pose proof (firstn_le_length 8 b) as Hlen.
  rewrite Nat.add_0_l in H.
  assert (Hpow : 256 ^ Z.of_nat (length (firstn 8 b)) <= 256 ^ 8)
    by (apply Z.pow_le_mono_r; lia).
  change (256 ^ 8) with (2 ^ 64) in Hpow.
  split; [apply H|]. eapply Z.lt_le_trans; [apply H|exact Hpow].
Qed.

Section ParserShape.

Context {hb : HeaderByteClassifier} {cd : Codecs}.

Lemma stageBrotli_header (m : sequencerMessage) (payload : list byte) :
  withSegments (stageBrotli m payload) (segments m) = withSegments m (segments m).
Proof.
  unfold stageBrotli. destruct payload as [|b body]; [reflexivity|].
  destruct (IsBrotliMessageHeaderByte b); [|reflexivity].
  destruct (Decompress body MaxDecompressedLen); reflexivity.
Qed.

Lemma stageZeroheavy_header (m : sequencerMessage) (payload : list byte) :
  withSegments (stageZeroheavy m payload) (segments m) = withSegments m (segments m).
Proof.
  unfold stageZeroheavy. destruct payload as [|b body]; [apply stageBrotli_header|].
  destruct (IsZeroheavyEncodedHeaderByte b); [|apply stageBrotli_header].
  destruct (zeroheavyReadAll body maxZeroheavyDecompressedLen);
    [apply stageBrotli_header|reflexivity].
Qed.

(** X1.  Whatever [parseSequencerMessage] returns as a batch was given at
    least the 40 bytes of the header, carries the five header fields as the
    big-endian numbers of those bytes, each a [uint64], and has at most
    [MaxSegmentsPerSequencerMessage] segments. *)
Theorem parsed_batch_shape
    (batchNum : Z) (h : Hash) (data : list byte)
    (providers : list (option DataAvailabilityProvider))
    (mode : KeysetValidationMode) (m : sequencerMessage) :
  parseSequencerMessage batchNum h data providers mode = Returns (Ok m) ->
  40 <= len data /\
  minTimestamp m = BigEndianUint64 (slice 0 8 data) /\
  maxTimestamp m = BigEndianUint64 (slice 8 16 data) /\
  minL1Block m = BigEndianUint64 (slice 16 24 data) /\
  maxL1Block m = BigEndianUint64 (slice 24 32 data) /\
  afterDelayedMessages m = BigEndianUint64 (slice 32 40 data) /\
  uint64 (minTimestamp m) /\ uint64 (maxTimestamp m) /\
  uint64 (minL1Block m) /\ uint64 (maxL1Block m) /\
  uint64 (afterDelayedMessages m) /\
  len (segments m) <= MaxSegmentsPerSequencerMessage.
Proof.
  intros Hparse.
  pose proof (parseSequencerMessage_segments _ _ _ _ _ _ Hparse) as Hcap.
  assert (Hhdr : 40 <= len data /\
                 withSegments m [] = headerOnly data).
  { revert Hparse. unfold parseSequencerMessage.
    destruct (len data <? 40) eqn:Hlen; [discriminate|].
    apply Z.ltb_ge in Hlen.
    pose proof (stageZeroheavy_header (headerOnly data)) as Hst.
    destruct (skipn 40 data) as [|b rest].
    - intros H. apply Returns_Ok_inj in H. subst m. split; [exact Hlen|apply Hst].
    - destruct (IsL1AuthenticatedMessageHeaderByte b && negb (IsKnownHeaderByte b));
        [discriminate|].
      destruct (firstClaiming providers b) as [provider|].
      + destruct (RecoverPayloadFromBatch provider batchNum h data mode)
          as [[[payload|]|e]|hl]; cbn [obind]; try discriminate;
          intros H; apply Returns_Ok_inj in H; subst m;
          (split; [exact Hlen|]); [apply Hst|reflexivity].
      + destruct (IsDASMessageHeaderByte b);
          [|destruct (IsBlobHashesHeaderByte b); [discriminate|]];
          intros H; apply Returns_Ok_inj in H; subst m;
          (split; [exact Hlen|apply Hst]). }
  destruct Hhdr as [Hlen Hhdr].
  assert (Hf : minTimestamp m = minTimestamp (headerOnly data) /\
               maxTimestamp m = maxTimestamp (headerOnly data) /\
               minL1Block m = minL1Block (headerOnly data) /\
               maxL1Block m = maxL1Block (headerOnly data) /\
               afterDelayedMessages m = afterDelayedMessages (headerOnly data)).
  { rewrite <- Hhdr. repeat split. }
  destruct Hf as (H1 & H2 & H3 & H4 & H5). cbn in H1, H2, H3, H4, H5.
  rewrite H1, H2, H3, H4, H5.
  repeat split; try reflexivity; try apply BigEndianUint64_range; try exact Hcap; lia.
Qed.

(** X2.  An error that [parseSequencerMessage] returns is the missing-header
    error of a batch shorter than 40 bytes, or the out-of-date error of an
    authenticated header byte that is not known, or the error of the first
    provider that claims the header byte, or with no provider claiming it
    the missing-BlobReader error of a blob-hashes byte; and the parser stops
    without returning only where that provider does. *)
Theorem parse_failures
    (batchNum : Z) (h : Hash) (data : list byte)
    (providers : list (option DataAvailabilityProvider))
    (mode : KeysetValidationMode) :
  (forall e,
      parseSequencerMessage batchNum h data providers mode = Returns (Err e) ->
      (len data < 40 /\ e = ErrMissingL1Header) \/
      exists b, nth_error data 40 = Some b /\
        ((IsL1AuthenticatedMessageHeaderByte b = true /\
          IsKnownHeaderByte b = false /\ e = ErrFatalNodeOutOfDate b) \/
         (exists provider,
            firstClaiming providers b = Some provider /\
            RecoverPayloadFromBatch provider batchNum h data mode
            = Returns (Err e)) \/
         (firstClaiming providers b = None /\
          IsDASMessageHeaderByte b = false /\
          IsBlobHashesHeaderByte b = true /\ e = ErrNoBlobReader))) /\
  (forall hl,
      parseSequencerMessage batchNum h data providers mode = Halts hl ->
      exists b provider,
        nth_error data 40 = Some b /\
        firstClaiming providers b = Some provider /\
        RecoverPayloadFromBatch provider batchNum h data mode = Halts hl).
Proof.
  unfold parseSequencerMessage.
  destruct (len data <? 40) eqn:Hlen.
  { apply Z.ltb_lt in Hlen. split; [|discriminate].
    intros e H. left. split; [exact Hlen|congruence]. }
  destruct (skipn 40 data) as [|b rest] eqn:Hpay; [split; discriminate|].
  assert (Hb : nth_error data 40 = Some b).
  { rewrite <- (firstn_skipn 40 data) at 1. apply Z.ltb_ge in Hlen.
    rewrite nth_error_app2; rewrite length_firstn; unfold len in Hlen;
      [|lia].
    replace (40 - Nat.min 40 (length data))%nat with 0%nat by lia.
    now rewrite Hpay. }
  destruct (IsL1AuthenticatedMessageHeaderByte b) eqn:Hauth;
    destruct (IsKnownHeaderByte b) eqn:Hknown; cbn [andb negb].
  2:{ split; [|discriminate]. intros e H. right. exists b. split; [exact Hb|].
      left. repeat split; congruence. }
  all: destruct (firstClaiming providers b) as [provider|] eqn:Hclaim;
    [ destruct (RecoverPayloadFromBatch provider batchNum h data mode)
        as [[[payload|]|e0]|hl0] eqn:Hrec; cbn [obind];
      (split; [intros e H|intros hl H]); try discriminate;
      [ right; exists b; split; [exact Hb|]; right; left; exists provider;
        split; [first [exact Hclaim|reflexivity]|congruence]
      | exists b, provider; repeat split;
        first [exact Hb|exact Hclaim|reflexivity|congruence] ]
    | destruct (IsDASMessageHeaderByte b) eqn:Hdas;
      [ split; discriminate
      | destruct (IsBlobHashesHeaderByte b) eqn:Hblob;
        [ split; [|discriminate]; intros e H; right; exists b;
          split; [exact Hb|]; right; right; repeat split;
          first [exact Hclaim|reflexivity|congruence]
        | split; discriminate ] ] ].
Qed.

End ParserShape.

(** An instance of X1: the batch of the advance-directive scenario. *)
Lemma parsed_batch_shape_witness :
  exists m,
    parseSequencerMessage (hb := Sim.classifier) (cd := Sim.codecs) 0 []
      (Sim.brotliBatch (Sim.header Byte.x00 Byte.x64 Byte.x0a Byte.x64 Byte.x00)
         [(Byte.x03, Byte.x05); (Byte.x00, Byte.x78)]) [] KeysetValidate
    = Returns (Ok m) /\
    maxTimestamp m = 100 /\ len (segments m) <= MaxSegmentsPerSequencerMessage.
Proof.
  eexists. split; [vm_compute; reflexivity|].
  eassert (Hparse : parseSequencerMessage (hb := Sim.classifier) (cd := Sim.codecs) 0 []
             (Sim.brotliBatch (Sim.header Byte.x00 Byte.x64 Byte.x0a Byte.x64 Byte.x00)
                [(Byte.x03, Byte.x05); (Byte.x00, Byte.x78)]) [] KeysetValidate
           = Returns (Ok _)) by (vm_compute; reflexivity).
  pose proof (parsed_batch_shape _ _ _ _ _ _ Hparse) as Hshape.
  split; [reflexivity|apply Hshape].
Defined.

Section ParserStages.

Context {hb : HeaderByteClassifier} {cd : Codecs}.

(** X3.  A batch that is its 40-byte header and nothing else parses to the
    header-only batch, whatever providers are configured: none is
    consulted. *)
Theorem parse_header_alone
    (batchNum : Z) (h : Hash) (data : list byte)
    (providers : list (option DataAvailabilityProvider))
    (mode : KeysetValidationMode) :
  len data = 40 ->
  parseSequencerMessage batchNum h data providers mode
  = Returns (Ok (headerOnly data)).
Proof.
  intros Hlen. unfold parseSequencerMessage. rewrite Hlen.
  change (40 <? 40) with false. cbv iota.
  rewrite skipn_all2 by (unfold len in Hlen; lia). reflexivity.
Qed.

(** X4.  The soft failures of stages 2 and 3.  Under a header byte that
    passes stage 0, that no provider claims and that is not a blob-hashes
    byte, the parser returns the header-only batch, and no error, when the
    zero-heavy decoder fails, when the brotli decompression fails, and when
    the byte marks neither encoding. *)
Theorem parse_soft_failures
    (batchNum : Z) (h : Hash) (data : list byte)
    (providers : list (option DataAvailabilityProvider))
    (mode : KeysetValidationMode) (b : byte) :
  nth_error data 40 = Some b ->
  IsL1AuthenticatedMessageHeaderByte b && negb (IsKnownHeaderByte b) = false ->
  firstClaiming providers b = None ->
  IsBlobHashesHeaderByte b = false ->
  (IsZeroheavyEncodedHeaderByte b = true /\
   zeroheavyReadAll (skipn 41 data) maxZeroheavyDecompressedLen = None) \/
  (IsZeroheavyEncodedHeaderByte b = false /\
   IsBrotliMessageHeaderByte b = true /\
   Decompress (skipn 41 data) MaxDecompressedLen = None) \/
  (IsZeroheavyEncodedHeaderByte b = false /\
   IsBrotliMessageHeaderByte b = false) ->
  parseSequencerMessage batchNum h data providers mode
  = Returns (Ok (headerOnly data)).
Proof.
  intros Hb Hstage0 Hclaim Hblob Hcase.
  destruct (payload_head _ _ Hb) as [Hlen Hpay].
  unfold parseSequencerMessage. rewrite Hlen, Hpay, Hstage0, Hclaim, Hblob.
  assert (Hst : stageZeroheavy (headerOnly data) (b :: skipn 41 data)
                = headerOnly data).
  { unfold stageZeroheavy, stageBrotli.
    destruct Hcase as [[Hz Hdec]|[(Hz & Hbr & Hdec)|[Hz Hbr]]].
    - now rewrite Hz, Hdec.
    - now rewrite Hz, Hbr, Hdec.
    - now rewrite Hz, Hbr. }
  rewrite Hst. now destruct (IsDASMessageHeaderByte b).
Qed.

Lemma readSegments_yields (room : nat) (stream : RlpStream)
    (segs acc : list (list byte)) :
  Yields stream segs ->
  readSegments room stream acc = acc ++ firstn room segs.
Proof.
  intros Hy. revert room acc.
  induction Hy as [stream Hend|stream stream' segment rest Hdec Hy IH];
    intros room acc.
  - destruct room; simpl; rewrite Hend; now rewrite app_nil_r.
  - destruct room as [|room]; simpl; rewrite Hdec.
    + now rewrite app_nil_r.
    + rewrite IH, <- app_assoc. reflexivity.
Qed.

(** X5.  Decoding of a brotli batch.  Under a brotli header byte that no
    provider claims, when the payload decompresses to a stream of RLP byte
    strings, the parsed batch has exactly those strings as its segments, in
    their order, cut after the first [MaxSegmentsPerSequencerMessage]. *)
Theorem parse_brotli_segments
    (batchNum : Z) (h : Hash) (data : list byte)
    (providers : list (option DataAvailabilityProvider))
    (mode : KeysetValidationMode) (b : byte)
    (decompressed : list byte) (segs : list (list byte)) :
  nth_error data 40 = Some b ->
  IsL1AuthenticatedMessageHeaderByte b && negb (IsKnownHeaderByte b) = false ->
  firstClaiming providers b = None ->
  IsBlobHashesHeaderByte b = false ->
  IsZeroheavyEncodedHeaderByte b = false ->
  IsBrotliMessageHeaderByte b = true ->
  Decompress (skipn 41 data) MaxDecompressedLen = Some decompressed ->
  Yields (NewStream decompressed MaxDecompressedLen) segs ->
  parseSequencerMessage batchNum h data providers mode
  = Returns
      (Ok (withSegments (headerOnly data)
             (firstn (Z.to_nat MaxSegmentsPerSequencerMessage) segs))).
Proof.
  intros Hb Hstage0 Hclaim Hblob Hz Hbr Hdec Hy.
  destruct (payload_head _ _ Hb) as [Hlen Hpay].
  unfold parseSequencerMessage. rewrite Hlen, Hpay, Hstage0, Hclaim, Hblob.
  assert (Hst : stageZeroheavy (headerOnly data) (b :: skipn 41 data)
                = withSegments (headerOnly data)
                    (firstn (Z.to_nat MaxSegmentsPerSequencerMessage) segs)).
  { unfold stageZeroheavy, stageBrotli. rewrite Hz, Hbr, Hdec.
    rewrite (readSegments_yields _ _ _ _ Hy).
    cbn [segments headerOnly app]. unfold len. cbn [length Z.of_nat].
    now rewrite Z.sub_0_r. }
  rewrite Hst. now destruct (IsDASMessageHeaderByte b).
Qed.

(** X6.  Stage 1 tries one provider at most, the first in the list that
    claims the header byte: [firstClaiming] returns a provider exactly when
    the list splits around it with no claiming provider before it, and none
    exactly when no provider of the list claims the byte. *)
Theorem firstClaiming_first
    (providers : list (option DataAvailabilityProvider)) (b : byte) :
  (forall provider,
      firstClaiming providers b = Some provider ->
      IsValidHeaderByte provider b = true /\
      exists before after,
        providers = before ++ Some provider :: after /\
        forall q, In (Some q) before -> IsValidHeaderByte q b = false) /\
  (firstClaiming providers b = None <->
   forall q, In (Some q) providers -> IsValidHeaderByte q b = false).
Proof.
  induction providers as [|[p|] providers [IHsome IHnone]]; cbn [firstClaiming].
  - split; [discriminate|]. split; [intros _ q []|reflexivity].
  - destruct (IsValidHeaderByte p b) eqn:Hp.
    + split.
      * intros provider H. injection H as <-. split; [exact Hp|].
        exists [], providers. split; [reflexivity|intros q []].
      * split; [discriminate|]. intros H. specialize (H p (or_introl eq_refl)).
        congruence.
    + split.
      * intros provider H. destruct (IHsome provider H) as (Hv & before & after & -> & Hb).
        split; [exact Hv|]. exists (Some p :: before), after.
        split; [reflexivity|]. intros q [Hq|Hq]; [congruence|now apply Hb].
      * rewrite IHnone. split.
        -- intros H q [Hq|Hq]; [congruence|now apply H].
        -- intros H q Hq. apply H. now right.
  - split.
    + intros provider H. destruct (IHsome provider H) as (Hv & before & after & -> & Hb).
      split; [exact Hv|]. exists (None :: before), after.
      split; [reflexivity|]. intros q [Hq|Hq]; [discriminate|now apply Hb].
    + rewrite IHnone. split.
      * intros H q [Hq|Hq]; [discriminate|now apply H].
      * intros H q Hq. apply H. now right.
Qed.

End ParserStages.

(** Instances of X3, X4 and X5 under the classifier and codecs of [Sim]: a
    bare header; a payload under the unknown byte 0x08; the brotli batch of
    the advance-directive scenario. *)
Lemma parse_header_alone_witness :
  parseSequencerMessage (hb := Sim.classifier) (cd := Sim.codecs) 0 []
    Sim.zeroHeader [Some (NewDAProviderDAS (das := Sim.dasCodec) (hb := Sim.classifier)
                            Sim.deadReader)] KeysetValidate
  = Returns (Ok (headerOnly Sim.zeroHeader)).
Proof.
  apply (parse_header_alone (hb := Sim.classifier) (cd := Sim.codecs)). reflexivity.
Defined.

Lemma parse_soft_failures_witness :
  parseSequencerMessage (hb := Sim.classifier) (cd := Sim.codecs) 0 []
    (Sim.zeroHeader ++ [Byte.x08; Byte.x01]) [] KeysetValidate
  = Returns (Ok (headerOnly (Sim.zeroHeader ++ [Byte.x08; Byte.x01]))).
Proof.
  apply (parse_soft_failures (hb := Sim.classifier) (cd := Sim.codecs)
           0 [] _ [] KeysetValidate Byte.x08); try reflexivity.
  right. right. split; reflexivity.
Defined.

Lemma parse_brotli_segments_witness :
  let data :=
    Sim.brotliBatch (Sim.header Byte.x00 Byte.x64 Byte.x0a Byte.x64 Byte.x00)
      [(Byte.x03, Byte.x05); (Byte.x00, Byte.x78)] in
  parseSequencerMessage (hb := Sim.classifier) (cd := Sim.codecs) 0 [] data []
    KeysetValidate
  = Returns
      (Ok (withSegments (headerOnly data)
             (firstn (Z.to_nat MaxSegmentsPerSequencerMessage)
                [[Byte.x03; Byte.x05]; [Byte.x00; Byte.x78]]))).
Proof.
  intros data.
  apply (parse_brotli_segments (hb := Sim.classifier) (cd := Sim.codecs)
           0 [] data [] KeysetValidate Byte.x00 (skipn 41 data));
    try reflexivity.
  apply Yields_item with (stream' := [Byte.x82; Byte.x00; Byte.x78]);
    [reflexivity|].
  apply Yields_item with (stream' := []); [reflexivity|].
  apply Yields_end. reflexivity.
Defined.

(** * Further properties of the providers *)

Lemma Hash_eqb_eq (a b : Hash) : Hash_eqb a b = true <-> a = b.
Proof.
  unfold Hash_eqb. destruct (list_eq_dec Byte.byte_eq_dec a b); split;
    congruence.
Qed.

Section DasFacts.

Context {das : DasCodec}.

(** X7.  Integrity of [getByHash].  A preimage that it returns was served
    by the reader under the tree form of the hash or under the hash itself,
    and hashes to the hash asked for: by keccak under version 0, by the tree
    hash under version 1.  An error that it returns is a hash mismatch or
    an error of the reader. *)
Theorem getByHash_integrity
    (reader : DataAvailabilityReader) (version : Z) (hash : Hash) :
  (forall preimage,
      getByHash reader version hash = Ok preimage ->
      (reader hash = Ok preimage \/
       version = 0 /\ reader (FlatHashToTreeHash hash) = Ok preimage) /\
      (version = 0 -> Keccak256Hash preimage = hash) /\
      (version = 1 -> dastreeHash preimage = hash)) /\
  (forall e,
      getByHash reader version hash = Err e ->
      e = ErrHashMismatch \/ reader hash = Err e \/
      version = 0 /\ reader (FlatHashToTreeHash hash) = Err e).
Proof.
  unfold getByHash.
  assert (Hnew : (if version =? 0 then FlatHashToTreeHash hash else hash) = hash \/
                 version = 0 /\
                 (if version =? 0 then FlatHashToTreeHash hash else hash)
                 = FlatHashToTreeHash hash).
  { destruct (version =? 0) eqn:E; [right|left; reflexivity].
    apply Z.eqb_eq in E. auto. }
  set (newHash := if version =? 0 then FlatHashToTreeHash hash else hash) in *.
  assert (Hfetch :
            forall r,
              (match reader newHash with
               | Err e => if negb (Hash_eqb hash newHash) then reader hash else Err e
               | Ok preimage => Ok preimage
               end) = r ->
              r = reader hash \/ version = 0 /\ r = reader (FlatHashToTreeHash hash)).
  { intros r <-. destruct (reader newHash) as [p|e] eqn:Hr.
    - destruct Hnew as [E|[Hv E]]; rewrite E in Hr; rewrite <- Hr; auto.
    - destruct (Hash_eqb hash newHash) eqn:Heq; cbn [negb]; [|now left].
      apply Hash_eqb_eq in Heq. rewrite <- Heq in Hr. rewrite <- Hr. now left. }
  destruct (match reader newHash with
            | Err e => if negb (Hash_eqb hash newHash) then reader hash else Err e
            | Ok preimage => Ok preimage
            end) as [p|e] eqn:Hf.
  - specialize (Hfetch _ eq_refl).
    destruct ((version =? 0) && negb (Hash_eqb (Keccak256Hash p) hash)
              || (version =? 1) && negb (Hash_eqb (dastreeHash p) hash)) eqn:Hbad.
    + split; [discriminate|]. intros e H. left. congruence.
    + split; [|discriminate]. intros preimage H. injection H as <-.
      apply orb_false_iff in Hbad. destruct Hbad as [H0 H1].
      split; [|split].
      * destruct Hfetch as [E|[Hv E]]; [left|right]; auto.
      * intros ->. cbn in H0. apply negb_false_iff, Hash_eqb_eq in H0. exact H0.
      * intros ->. cbn in H1. apply negb_false_iff, Hash_eqb_eq in H1. exact H1.
  - specialize (Hfetch _ eq_refl). split; [discriminate|].
    intros e0 H. injection H as <-. right.
    destruct Hfetch as [E|[Hv E]]; [left|right]; auto.
Qed.

(** X8.  What a recovered DAS payload has passed.  When
    [RecoverPayloadFromDasBatch] returns a payload, the certificate was
    deserialised from the bytes after the header and is of version 0 or 1,
    its keyset was fetched with integrity and deserialised, the signature
    verified, the timeout is at least [maxTimestamp] plus one week (in
    [uint64]), and the payload was fetched with integrity under the
    certificate's data hash. *)
Theorem RecoverPayloadFromDasBatch_payload
    (batchNum : Z) (data : list byte) (reader : DataAvailabilityReader)
    (mode : KeysetValidationMode) (payload : list byte) :
  RecoverPayloadFromDasBatch batchNum data reader mode
  = Returns (Ok (Some payload)) ->
  40 <= len data /\
  exists cert keysetPreimage keyset,
    DeserializeDASCertFrom (skipn 40 data) = Some cert /\
    Version cert < 2 /\
    getByHash reader (Version cert) (KeysetHash cert) = Ok keysetPreimage /\
    DeserializeKeyset keysetPreimage (mode =? KeysetDontValidate) = Some keyset /\
    VerifySignature keyset (SignersMask cert) (SerializeSignableFields cert)
      (Sig cert) = None /\
    add64 (BigEndianUint64 (slice 8 16 data)) MinLifetimeSecondsForDataAvailabilityCert
    <= Timeout cert /\
    getByHash reader (Version cert) (DataHash cert) = Ok payload.
Proof.
  unfold RecoverPayloadFromDasBatch.
  destruct (len data <? 40) eqn:Hlen; [discriminate|]. apply Z.ltb_ge in Hlen.
  destruct (DeserializeDASCertFrom (skipn 40 data)) as [cert|]; [|discriminate].
  destruct (2 <=? Version cert) eqn:Hv; [discriminate|]. apply Z.leb_gt in Hv.
  destruct (getByHash reader (Version cert) (KeysetHash cert))
    as [keysetPreimage|e] eqn:Hk; [|discriminate].
  destruct (DeserializeKeyset keysetPreimage (mode =? KeysetDontValidate))
    as [keyset|] eqn:Hks;
    [|destruct (mode =? KeysetPanicIfInvalid); discriminate].
  destruct (VerifySignature keyset (SignersMask cert)
              (SerializeSignableFields cert) (Sig cert)) eqn:Hsig; [discriminate|].
  destruct (Timeout cert <? add64 _ _) eqn:Ht; [discriminate|].
  apply Z.ltb_ge in Ht.
  destruct (getByHash reader (Version cert) (DataHash cert)) as [p|e] eqn:Hp;
    [|discriminate].
  intros H. injection H as <-. split; [exact Hlen|].
  exists cert, keysetPreimage, keyset. repeat split; assumption.
Qed.

(** X9.  How [RecoverPayloadFromDasBatch] fails.  An error that it returns
    is the error of [getByHash] for the keyset hash or for the data hash of
    a certificate of version 0 or 1; every other failure (a certificate that
    does not deserialise or is of version 2 or more, a bad keyset, a bad
    signature, a timeout too short) is nil without error.  It exits the
    process only under [KeysetPanicIfInvalid] with a keyset that does not
    deserialise, and panics only on a message shorter than 40 bytes. *)
Theorem RecoverPayloadFromDasBatch_failures
    (batchNum : Z) (data : list byte) (reader : DataAvailabilityReader)
    (mode : KeysetValidationMode) :
  (forall e,
      RecoverPayloadFromDasBatch batchNum data reader mode = Returns (Err e) ->
      exists cert,
        DeserializeDASCertFrom (skipn 40 data) = Some cert /\
        Version cert < 2 /\
        (getByHash reader (Version cert) (KeysetHash cert) = Err e \/
         getByHash reader (Version cert) (DataHash cert) = Err e)) /\
  (forall hl,
      RecoverPayloadFromDasBatch batchNum data reader mode = Halts hl ->
      (hl = RuntimePanic /\ len data < 40) \/
      (hl = CritExit /\ mode = KeysetPanicIfInvalid /\ 40 <= len data)) /\
  (40 <= len data ->
   (forall cert, DeserializeDASCertFrom (skipn 40 data) = Some cert ->
                 2 <= Version cert) ->
   RecoverPayloadFromDasBatch batchNum data reader mode = Returns (Ok None)).
Proof.
  unfold RecoverPayloadFromDasBatch.
  destruct (len data <? 40) eqn:Hlen.
  { apply Z.ltb_lt in Hlen. split; [discriminate|]. split.
    - intros hl H. left. split; [congruence|exact Hlen].
    - intros H. lia. }
  apply Z.ltb_ge in Hlen.
  destruct (DeserializeDASCertFrom (skipn 40 data)) as [cert|];
    [|repeat split; discriminate].
  destruct (2 <=? Version cert) eqn:Hv; [repeat split; discriminate|].
  apply Z.leb_gt in Hv.
  assert (Hlast : 40 <= len data ->
                  (forall cert0, Some cert = Some cert0 -> 2 <= Version cert0) ->
                  False).
  { intros _ H. specialize (H cert eq_refl). lia. }
  destruct (getByHash reader (Version cert) (KeysetHash cert))
    as [keysetPreimage|e0] eqn:Hk.
  2:{ split; [|split; [discriminate|intros H1 H2; destruct (Hlast H1 H2)]].
      intros e H. exists cert. repeat split; try assumption. left. congruence. }
  destruct (DeserializeKeyset keysetPreimage (mode =? KeysetDontValidate)).
  2:{ destruct (mode =? KeysetPanicIfInvalid) eqn:Hm.
      - apply Z.eqb_eq in Hm. split; [discriminate|].
        split; [|intros H1 H2; destruct (Hlast H1 H2)].
        intros hl H. right. repeat split; try assumption. congruence.
      - split; [discriminate|].
        split; [discriminate|intros H1 H2; destruct (Hlast H1 H2)]. }
  destruct (VerifySignature _ _ _ _).
  { split; [discriminate|].
    split; [discriminate|intros H1 H2; destruct (Hlast H1 H2)]. }
  destruct (Timeout cert <? add64 _ _).
  { split; [discriminate|].
    split; [discriminate|intros H1 H2; destruct (Hlast H1 H2)]. }
  destruct (getByHash reader (Version cert) (DataHash cert)) as [p|e0] eqn:Hp.
  - split; [discriminate|].
    split; [discriminate|intros H1 H2; destruct (Hlast H1 H2)].
  - split; [|split; [discriminate|intros H1 H2; destruct (Hlast H1 H2)]].
    intros e H. exists cert. repeat split; try assumption. right. congruence.
Qed.

End DasFacts.

(** An instance of X8: a certificate with timeout 255 * 65536 against a
    [maxTimestamp] of 0, served by a content-addressed reader. *)
Lemma RecoverPayloadFromDasBatch_payload_witness :
  exists cert,
    DeserializeDASCertFrom (DasCodec := SimMore.dasCodec)
      (skipn 40 (Sim.dasBatch Byte.x00 Byte.x00 Byte.xff)) = Some cert /\
    604800 <= Timeout cert /\
    getByHash (das := SimMore.dasCodec) Sim.goodReader 1 (DataHash cert)
    = Ok [Byte.x01].
Proof.
  destruct (RecoverPayloadFromDasBatch_payload (das := SimMore.dasCodec) 0
              (Sim.dasBatch Byte.x00 Byte.x00 Byte.xff) Sim.goodReader
              KeysetValidate [Byte.x01] eq_refl)
    as (_ & cert & kp & ks & Hcert & _ & _ & _ & _ & Ht & Hp).
  exists cert. split; [exact Hcert|].
  injection Hcert as <-. split; [exact Ht|exact Hp].
Defined.

Section BlobFacts.

Context {bc : BlobCodec}.

Lemma versionedHashesOf_pieces (n : nat) (blobHashes : list byte) :
  length blobHashes = (32 * n)%nat ->
  concat (versionedHashesOf n blobHashes) = blobHashes /\
  Forall (fun hash => length hash = 32%nat) (versionedHashesOf n blobHashes) /\
  length (versionedHashesOf n blobHashes) = n.
Proof.
  revert blobHashes. induction n as [|n IH]; intros blobHashes Hlen.
  - destruct blobHashes; [|simpl in Hlen; lia]. repeat split. constructor.
  - cbn [versionedHashesOf concat length].
    destruct (IH (skipn 32 blobHashes)) as (Hc & Hf & Hn).
    { rewrite length_skipn. lia. }
    rewrite Hc, firstn_skipn, Hn. repeat split.
    constructor; [|exact Hf]. rewrite length_firstn. lia.
Qed.

(** X10.  The blob provider on a message of at least 41 bytes.  When the
    bytes after the header byte are not a multiple of 32 in number it
    returns the not-a-list-of-hashes error without consulting the reader.
    Otherwise the reader is asked for the 32-byte pieces of those bytes, in
    order, whose concatenation is those bytes; its error is returned
    wrapped, and blobs that do not decode give nil without error. *)
Theorem blobRecoverPayloadFromBatch_hashes
    (blobReader : BlobReader) (batchNum : Z) (batchBlockHash : Hash)
    (data : list byte) (mode : KeysetValidationMode) :
  41 <= len data ->
  (len (skipn 41 data) mod 32 <> 0 ->
   blobRecoverPayloadFromBatch blobReader batchNum batchBlockHash data mode
   = Returns (Err ErrNotListOfHashes)) /\
  (len (skipn 41 data) mod 32 = 0 ->
   exists versionedHashes,
     concat versionedHashes = skipn 41 data /\
     Forall (fun hash => length hash = 32%nat) versionedHashes /\
     blobRecoverPayloadFromBatch blobReader batchNum batchBlockHash data mode
     = match blobReader batchBlockHash versionedHashes with
       | Err e => Returns (Err (ErrGetBlobs e))
       | Ok kzgBlobs => Returns (Ok (DecodeBlobs kzgBlobs))
       end).
Proof.
  intros Hlen. unfold blobRecoverPayloadFromBatch.
  destruct (len data <? 41) eqn:E; [apply Z.ltb_lt in E; lia|]. split.
  - intros Hmod. apply Z.eqb_neq in Hmod. now rewrite Hmod.
  - intros Hmod.
    destruct (versionedHashesOf_pieces
                (Z.to_nat (len (skipn 41 data) / 32)) (skipn 41 data))
      as (Hc & Hf & _).
    { unfold len in *.
      pose proof (Z.div_mod (Z.of_nat (length (skipn 41 data))) 32 ltac:(lia)) as Hdm.
      rewrite Hmod in Hdm.
      pose proof (Z.div_pos (Z.of_nat (length (skipn 41 data))) 32
                    ltac:(lia) ltac:(lia)).
      lia. }
    eexists. split; [exact Hc|]. split; [exact Hf|].
    apply Z.eqb_eq in Hmod. rewrite Hmod. cbn [negb].
    destruct (blobReader batchBlockHash _) as [kzgBlobs|e]; [|reflexivity].
    now destruct (DecodeBlobs kzgBlobs).
Qed.

End BlobFacts.

(** An instance of X10: 41 bytes of header and header byte, then 31 bytes,
    which are not a list of hashes. *)
Lemma blobRecoverPayloadFromBatch_hashes_witness :
  blobRecoverPayloadFromBatch (bc := SimMore.blobCodec) SimMore.blobReader 0 []
    (Sim.zeroHeader ++ Byte.x50 :: repeat Byte.x07 31) KeysetValidate
  = Returns (Err ErrNotListOfHashes).
Proof.
  apply (blobRecoverPayloadFromBatch_hashes (bc := SimMore.blobCodec)
           SimMore.blobReader 0 [] _ KeysetValidate); [vm_compute; discriminate|].
  vm_compute. discriminate.
Defined.

(** * Further properties of the multiplexer *)

(** ** The walk of [getNextMsg] *)

Section WalkFacts.

Context {cd : Codecs}.

Lemma totalAdvance_cons (which : byte) (segment : list byte) (segs : list (list byte)) :
  totalAdvance which (segment :: segs)
  = advanceOf which segment + totalAdvance which segs.
Proof. reflexivity. Qed.

Lemma countSubMessages_cons (segment : list byte) (segs : list (list byte)) :
  countSubMessages (segment :: segs)
  = (if isSubMessage segment then 1 else 0) + countSubMessages segs.
Proof.
  unfold countSubMessages, len. cbn [filter].
  destruct (isSubMessage segment); cbn [length]; lia.
Qed.

(** One segment passed, then the rest of the walk. *)
Lemma stoppedAt_step (segment : list byte) (rest : list (list byte))
    (target : Z) (c c2 c' : cursor) :
  segmentNum c2 = segmentNum c + 1 ->
  timestamp c2
  = (timestamp c + advanceOf BatchSegmentKindAdvanceTimestamp segment) mod 2 ^ 64 ->
  blockNumber c2
  = (blockNumber c + advanceOf BatchSegmentKindAdvanceL1BlockNumber segment) mod 2 ^ 64 ->
  submessageNumber c2
  = submessageNumber c + (if isSubMessage segment then 1 else 0) ->
  stoppedAt rest target c2 c' ->
  stoppedAt (segment :: rest) target c c'.
Proof.
  intros Hseg Hts Hbn Hsub (Hn & Hs & Ht & Hb & Hc & Hle & Hstop).
  unfold stoppedAt.
  set (n := Z.to_nat (segmentNum c' - segmentNum c2)) in *.
  assert (En : Z.to_nat (segmentNum c' - segmentNum c) = S n) by lia.
  rewrite En. cbn [firstn length nth].
  rewrite !totalAdvance_cons, countSubMessages_cons.
  split; [lia|]. split; [lia|].
  split; [rewrite Ht, Hts, Z.add_mod_idemp_l by lia; f_equal; lia|].
  split; [rewrite Hb, Hbn, Z.add_mod_idemp_l by lia; f_equal; lia|].
  split; [lia|]. split; [exact Hle|].
  intros Hlt. apply Hstop. lia.
Qed.

Lemma kind_not_advance (kind : byte) :
  Byte.eqb kind BatchSegmentKindAdvanceTimestamp = true ->
  Byte.eqb kind BatchSegmentKindAdvanceL1BlockNumber = false.
Proof. intros H. apply Byte.byte_dec_bl in H. now subst kind. Qed.

(** X11.  The loop of [getNextMsg].  From a cursor whose running values are
    [uint64]s and whose sub-message number is not above the target, the
    loop stops after a number of segments with the timestamp and the block
    number advanced by the sums, in [uint64], of the well-formed advances
    among them, the sub-message number raised by the number of sub-message
    segments among them, and either on the sub-message segment numbered
    [target] or past the end of the batch with fewer seen. *)
Theorem walkSegments_stoppedAt
    (segs : list (list byte)) (target : Z) (start : cursor) :
  uint64 (timestamp start) -> uint64 (blockNumber start) ->
  0 <= submessageNumber start <= target -> target < 2 ^ 64 ->
  stoppedAt segs target start (walkSegments segs target start).
Proof.
  intros Hts Hbn Hsub Ht. revert start Hts Hbn Hsub.
  induction segs as [|segment rest IH]; intros c Hts Hbn Hsub.
  - unfold stoppedAt, uint64 in *. cbn [walkSegments].
    rewrite Z.sub_diag. cbn.
    rewrite !Z.add_0_r, !Z.mod_small by lia.
    repeat split; try lia.
  - cbn [walkSegments].
    assert (Hmod : forall x, uint64 (x mod 2 ^ 64))
      by (intros x; apply Z.mod_pos_bound; lia).
    destruct segment as [|kind body].
    + apply stoppedAt_step with (bumpSegment c); cbn;
        rewrite ?Z.add_0_r, ?Z.mod_small by (apply Hts || apply Hbn);
        try reflexivity.
      apply IH; assumption.
    + destruct (Byte.eqb kind BatchSegmentKindAdvanceTimestamp) eqn:Ek3.
      * pose proof (kind_not_advance kind Ek3) as Ek4. cbn [orb].
        destruct (StreamUint64 (NewStream body 16)) as [advancing|] eqn:Hdec.
        -- eapply stoppedAt_step; [| | | |apply IH]; cbn;
             rewrite ?Ek3, ?Ek4, ?Hdec; cbn;
             rewrite ?Z.add_0_r, ?Z.mod_small by (apply Hts || apply Hbn);
             try reflexivity; try assumption; try apply Hmod.
        -- apply stoppedAt_step with (bumpSegment c); cbn;
             rewrite ?Ek3, ?Ek4, ?Hdec; cbn;
             rewrite ?Z.add_0_r, ?Z.mod_small by (apply Hts || apply Hbn);
             try reflexivity.
           apply IH; assumption.
      * destruct (Byte.eqb kind BatchSegmentKindAdvanceL1BlockNumber) eqn:Ek4;
          cbn [orb].
        -- destruct (StreamUint64 (NewStream body 16)) as [advancing|] eqn:Hdec.
           ++ eapply stoppedAt_step; [| | | |apply IH]; cbn;
                rewrite ?Ek3, ?Ek4, ?Hdec; cbn;
                rewrite ?Z.add_0_r, ?Z.mod_small by (apply Hts || apply Hbn);
                try reflexivity; try assumption; try apply Hmod.
           ++ apply stoppedAt_step with (bumpSegment c); cbn;
                rewrite ?Ek3, ?Ek4, ?Hdec; cbn;
                rewrite ?Z.add_0_r, ?Z.mod_small by (apply Hts || apply Hbn);
                try reflexivity.
              apply IH; assumption.
        -- destruct (submessageNumber c <? target) eqn:Elt.
           ++ apply Z.ltb_lt in Elt.
              assert (Eadd : add64 (submessageNumber c) 1 = submessageNumber c + 1)
                by (unfold add64; apply Z.mod_small; lia).
              eapply stoppedAt_step; [| | | |apply IH]; cbn;
                rewrite ?Ek3, ?Ek4, ?Eadd; cbn;
                rewrite ?Z.add_0_r, ?Z.mod_small by (apply Hts || apply Hbn);
                try reflexivity; try assumption; lia.
           ++ apply Z.ltb_ge in Elt. unfold stoppedAt, uint64 in *.
              rewrite Z.sub_diag. cbn.
              rewrite ?Ek3, ?Ek4. cbn.
              rewrite !Z.add_0_r, !Z.mod_small by lia.
              repeat split; try lia.
Qed.

(** A walk interrupted at a lower target and resumed from where it stopped
    ends where the uninterrupted walk ends. *)
Lemma walkSegments_resume (rest : list (list byte)) (reached target : Z) (c : cursor) :
  reached <= target ->
  walkSegments
    (skipn (Z.to_nat (segmentNum (walkSegments rest reached c) - segmentNum c)) rest)
    target (walkSegments rest reached c)
  = walkSegments rest target c.
Proof.
  intros Hle. revert c. induction rest as [|segment rest IH]; intros c.
  - cbn. now rewrite skipn_nil.
  - assert (Hstep : forall c2,
               segmentNum c2 = segmentNum c + 1 ->
               walkSegments
                 (skipn (Z.to_nat (segmentNum (walkSegments rest reached c2)
                                   - segmentNum c)) (segment :: rest))
                 target (walkSegments rest reached c2)
               = walkSegments rest target c2).
    { intros c2 Hc2. rewrite <- (IH c2).
      pose proof (walkSegments_segmentNum rest reached c2) as Hmono.
      replace (Z.to_nat (segmentNum (walkSegments rest reached c2) - segmentNum c))
        with (S (Z.to_nat (segmentNum (walkSegments rest reached c2) - segmentNum c2)))
        by lia.
      reflexivity. }
    cbn [walkSegments].
    destruct segment as [|kind body]; [apply Hstep; reflexivity|].
    destruct (Byte.eqb kind BatchSegmentKindAdvanceTimestamp
              || Byte.eqb kind BatchSegmentKindAdvanceL1BlockNumber) eqn:Eadv.
    + destruct (StreamUint64 (NewStream body 16)); [|apply Hstep; reflexivity].
      destruct (Byte.eqb kind BatchSegmentKindAdvanceTimestamp);
        apply Hstep; reflexivity.
    + destruct (submessageNumber c <? reached) eqn:E1.
      * apply Z.ltb_lt in E1.
        destruct (submessageNumber c <? target) eqn:E2;
          [|apply Z.ltb_ge in E2; lia].
        apply Hstep. reflexivity.
      * rewrite Z.sub_diag. cbn [Z.to_nat skipn walkSegments]. now rewrite Eadv.
Qed.

End WalkFacts.

(** ** The cache is transparent *)

Section Restart.

Context {B : Type} {be : InboxBackend B}.
Context {hb : HeaderByteClassifier} {cd : Codecs} {ac : arbostypes.Constants}.

Let mux : Type := inboxMultiplexer (B := B).

Lemma sameButNum_refl (r : mux) : sameButNum r r.
Proof. repeat split. Qed.

Lemma sameButNum_setNum (r1 r2 : mux) :
  sameButNum r1 r2 ->
  r2 = setCachedSequencerMessageNum (cachedSequencerMessageNum r2) r1.
Proof.
  destruct r1, r2. unfold sameButNum, cursorOf. cbn.
  intros (-> & -> & -> & -> & Hc & ->). injection Hc as -> -> -> ->. reflexivity.
Qed.

Lemma popCached_setNum (n : Z) (r : mux) :
  outcomeRel stepSame (popCached r) (popCached (setCachedSequencerMessageNum n r)).
Proof.
  unfold popCached, getNextMsg.
  change (seekCursor (setCachedSequencerMessageNum n r)) with (seekCursor r).
  cbn [cachedSequencerMessage setCachedSequencerMessageNum].
  destruct (cachedSequencerMessage r) as [m|] eqn:Hm; [|reflexivity].
  set (c := seekCursor r m).
  assert (Hlast : forall d,
             IsCachedSegementLast
               (setDelayedMessagesRead d (setCursor c (setCachedSequencerMessageNum n r)))
             = IsCachedSegementLast (setDelayedMessagesRead d (setCursor c r)))
    by reflexivity.
  assert (Hlast' : IsCachedSegementLast (setCursor c (setCachedSequencerMessageNum n r))
                   = IsCachedSegementLast (setCursor c r)) by reflexivity.
  assert (Hfin : forall (msg : option arbostypes.MessageWithMetadata)
                        (err : option error) (s1 s2 : mux),
             sameButNum s1 s2 ->
             IsCachedSegementLast s2 = IsCachedSegementLast s1 ->
             outcomeRel stepSame
               (isLast <- IsCachedSegementLast s1 ;;
                let r2 := if isLast : bool then advanceSequencerMsg s1
                          else advanceSubMsg s1 in
                Returns
                  ((match msg, err with
                    | None, None => Some (invalidMessage (delayedMessagesRead r2))
                    | _, _ => msg
                    end, err), r2))
               (isLast <- IsCachedSegementLast s2 ;;
                let r2 := if isLast : bool then advanceSequencerMsg s2
                          else advanceSubMsg s2 in
                Returns
                  ((match msg, err with
                    | None, None => Some (invalidMessage (delayedMessagesRead r2))
                    | _, _ => msg
                    end, err), r2))).
  { intros msg err s1 s2 Hs ->.
    pose proof (sameButNum_setNum s1 s2 Hs) as E. rewrite E.
    destruct (IsCachedSegementLast s1) as [[|]|hl]; cbn; [| |reflexivity];
      (split; [reflexivity|repeat split]). }
  destruct (selectSegment m c) as [|kind body];
    [apply Hfin; [repeat split|exact Hlast']|].
  destruct (Byte.eqb kind BatchSegmentKindL2Message
            || Byte.eqb kind BatchSegmentKindL2MessageBrotli).
  - destruct (if Byte.eqb kind BatchSegmentKindL2MessageBrotli
              then Decompress body arbostypes.MaxL2MessageSize
              else Some body);
      (apply Hfin; [repeat split|exact Hlast']).
  - destruct (Byte.eqb kind BatchSegmentKindDelayedMessages);
      [|apply Hfin; [repeat split|exact Hlast']].
    cbn [delayedMessagesRead setCursor backend setCachedSequencerMessageNum].
    destruct (afterDelayedMessages m <=? delayedMessagesRead r);
      [apply Hfin; [repeat split|exact Hlast']|].
    destruct (ReadDelayedInbox (delayedMessagesRead r) (backend r));
      (apply Hfin; [repeat split|first [exact Hlast'|apply Hlast]]).
Qed.

Lemma stepSame_refl {A : Type} (o : outcome (A * mux)) : outcomeRel stepSame o o.
Proof. destruct o as [[res s]|hl]; cbn; [split; [reflexivity|repeat split]|reflexivity]. Qed.

Lemma Pop_setNum (n : Z) (r : mux) :
  outcomeRel stepSame (Pop r) (Pop (setCachedSequencerMessageNum n r)).
Proof.
  unfold Pop, loadBatch. cbn [cachedSequencerMessage setCachedSequencerMessageNum backend].
  destruct (cachedSequencerMessage r) as [m|] eqn:Hm.
  - cbn [obind]. apply popCached_setNum.
  - destruct (PeekSequencerInbox (backend r)) as [[bytes h]|e].
    + apply stepSame_refl.
    + cbn. split; [reflexivity|repeat split].
Qed.

Lemma Pop_sameButNum (r1 r2 : mux) :
  sameButNum r1 r2 -> outcomeRel stepSame (Pop r1) (Pop r2).
Proof.
  intros H. rewrite (sameButNum_setNum r1 r2 H). apply Pop_setNum.
Qed.

Lemma popCached_sameButNum (r1 r2 : mux) :
  sameButNum r1 r2 -> outcomeRel stepSame (popCached r1) (popCached r2).
Proof.
  intros H. rewrite (sameButNum_setNum r1 r2 H). apply popCached_setNum.
Qed.

Lemma popMany_sameButNum (n : nat) (r1 r2 : mux) :
  sameButNum r1 r2 -> outcomeRel stepSame (popMany n r1) (popMany n r2).
Proof.
  revert r1 r2. induction n as [|n IH]; intros r1 r2 H.
  - split; [reflexivity|exact H].
  - simpl. apply obind_rel with (Q := stepSame); [now apply Pop_sameButNum|].
    intros [res1 s1] [res2 s2] [Hres Hs]. cbn in Hres, Hs. subst res2.
    apply obind_rel with (Q := stepSame); [now apply IH|].
    intros [l1 t1] [l2 t2] [Hl Ht]. cbn in Hl, Ht. subst l2.
    split; [reflexivity|exact Ht].
Qed.

(** From a coherent cache the loop of [getNextMsg] ends where it ends from
    the start of the batch. *)
Lemma seekCursor_from_start (r : mux) (m : sequencerMessage) (reached : Z) :
  reached <= GetPositionWithinMessage (backend r) ->
  cursorOf r = walkSegments (segments m) reached zeroCursor ->
  seekCursor r m
  = walkSegments (segments m) (GetPositionWithinMessage (backend r)) zeroCursor.
Proof.
  intros Hle Hcur.
  pose proof (walkSegments_resume (segments m) reached
                (GetPositionWithinMessage (backend r)) zeroCursor Hle) as Hres.
  rewrite <- Hcur in Hres. cbn [segmentNum zeroCursor cursorOf] in Hres.
  rewrite Z.sub_0_r in Hres. rewrite <- Hres. unfold seekCursor.
  destruct (len (segments m) <=? cachedSegmentNum r) eqn:E; [|reflexivity].
  apply Z.leb_le in E. rewrite skipn_all2 by (unfold len in E; lia). reflexivity.
Qed.

Lemma seekCursor_at_zero (r : mux) (m : sequencerMessage) :
  cursorOf r = zeroCursor ->
  seekCursor r m
  = walkSegments (segments m) (GetPositionWithinMessage (backend r)) zeroCursor.
Proof.
  intros Hcur. unfold seekCursor. rewrite Hcur.
  unfold cursorOf in Hcur. injection Hcur as Hc _ _ _. rewrite Hc.
  destruct (len (segments m) <=? 0) eqn:E; [|reflexivity].
  apply Z.leb_le in E. destruct (segments m); [reflexivity|].
  unfold len in E. cbn [length] in E. lia.
Qed.

Lemma Pop_coherent_step (r : mux) :
  cacheCoherent r ->
  outcomeRel stepSame (Pop r)
    (Pop (NewInboxMultiplexer (backend r) (delayedMessagesRead r) (daProviders r)
            (keysetValidationMode r))).
Proof.
  unfold cacheCoherent. intros Hco.
  destruct (cachedSequencerMessage r) as [m|] eqn:Hm.
  - destruct Hco as ((bytes & h & Hpeek & Hparse) & reached & Hle & Hcur).
    assert (Hz : popCached r = popCached (setCursor zeroCursor r)).
    { unfold popCached, getNextMsg. cbn [cachedSequencerMessage setCursor].
      rewrite Hm.
      rewrite (seekCursor_from_start r m reached Hle Hcur).
      rewrite (seekCursor_at_zero (setCursor zeroCursor r) m eq_refl).
      reflexivity. }
    unfold Pop at 1. unfold loadBatch. rewrite Hm. cbn [obind]. rewrite Hz.
    unfold Pop, loadBatch. cbn [cachedSequencerMessage NewInboxMultiplexer backend].
    rewrite Hpeek.
    cbn [setCachedSequencerMessageNum cachedSequencerMessageNum backend
         daProviders keysetValidationMode NewInboxMultiplexer].
    rewrite Hparse. cbn [obind].
    apply popCached_sameButNum. unfold sameButNum, cursorOf. cbn. rewrite Hm.
    repeat split.
  - apply Pop_sameButNum. unfold sameButNum. cbn. rewrite Hm, Hco. repeat split.
Qed.

(** X12.  The cache is transparent.  A multiplexer whose cache is coherent
    with its Backend returns, over any number of calls of [Pop], what a new
    multiplexer made over that Backend with the same delayed-message count,
    providers and mode returns. *)
Theorem Pop_restart (n : nat) (r : mux) :
  cacheCoherent r ->
  returned (popMany n r)
  = returned
      (popMany n
         (NewInboxMultiplexer (backend r) (delayedMessagesRead r) (daProviders r)
            (keysetValidationMode r))).
Proof.
  intros Hco.
  set (fresh := NewInboxMultiplexer (backend r) (delayedMessagesRead r)
                  (daProviders r) (keysetValidationMode r)).
  destruct n as [|n]; [reflexivity|].
  assert (H : outcomeRel stepSame (popMany (S n) r) (popMany (S n) fresh)).
  { simpl. apply obind_rel with (Q := stepSame); [now apply Pop_coherent_step|].
    intros [res1 s1] [res2 s2] [Hres Hs]. cbn in Hres, Hs. subst res2.
    apply obind_rel with (Q := stepSame); [now apply popMany_sameButNum|].
    intros [l1 t1] [l2 t2] [Hl Ht]. cbn in Hl, Ht. subst l2.
    split; [reflexivity|exact Ht]. }
  unfold outcomeRel, stepSame, returned in *.
  destruct (popMany (S n) r) as [[l1 s1]|h1];
    destruct (popMany (S n) fresh) as [[l2 s2]|h2];
    try contradiction; [|reflexivity].
  destruct H as [H _]. cbn in H. now subst.
Qed.

End Restart.

(** An instance of X12: the multiplexer that one call of [Pop] leaves in
    the middle of a batch of two L2 messages, against a new one over the
    Backend it has reached. *)
Lemma Pop_restart_witness :
  exists r1 : inboxMultiplexer (B := Sim.backend),
    stateAfter
      (Sim.pop (Sim.fresh
                  [Sim.brotliBatch Sim.zeroHeader
                     [(Byte.x00, Byte.x78); (Byte.x03, Byte.x05); (Byte.x00, Byte.x79)]]
                  [] 0))
    = Some r1 /\
    returned (popMany (be := Sim.inboxBackend) (hb := Sim.classifier)
                (cd := Sim.codecs) (ac := Sim.constants) 2 r1)
    = returned
        (popMany (be := Sim.inboxBackend) (hb := Sim.classifier)
           (cd := Sim.codecs) (ac := Sim.constants) 2
           (NewInboxMultiplexer (backend r1) (delayedMessagesRead r1)
              (daProviders r1) (keysetValidationMode r1))).
Proof.
  eexists. split; [vm_compute; reflexivity|].
  apply (Pop_restart (be := Sim.inboxBackend) (hb := Sim.classifier)
           (cd := Sim.codecs) (ac := Sim.constants)).
  split.
  - eexists. eexists. split; [reflexivity|]. vm_compute. reflexivity.
  - exists 0. split; [cbn; lia|]. reflexivity.
Defined.

(** ** Coherence of the cache is kept *)

Section Coherence.

Context {B : Type} {be : InboxBackend B}.
Context {hb : HeaderByteClassifier} {cd : Codecs} {ac : arbostypes.Constants}.

Let mux : Type := inboxMultiplexer (B := B).

Lemma loadBatch_config (r r0 : mux) :
  loadBatch r = Returns (inr r0) ->
  daProviders r0 = daProviders r /\ keysetValidationMode r0 = keysetValidationMode r.
Proof.
  unfold loadBatch. destruct (cachedSequencerMessage r).
  - intros H. injection H as <-. split; reflexivity.
  - destruct (PeekSequencerInbox (backend r)) as [[bytes h]|e]; [|discriminate].
    cbn. destruct (parseSequencerMessage _ _ _ _ _) as [[m|e]|hl]; cbn;
      try discriminate.
    intros H. injection H as <-. split; reflexivity.
Qed.

Lemma getNextMsg_config (r r1 : mux) (res : PopResult) :
  getNextMsg r = Returns (res, r1) ->
  daProviders r1 = daProviders r /\ keysetValidationMode r1 = keysetValidationMode r.
Proof.
  unfold getNextMsg. destruct (cachedSequencerMessage r) as [m|]; [|discriminate].
  destruct (selectSegment m (seekCursor r m)) as [|kind body].
  { intros H. injection H as _ <-. split; reflexivity. }
  destruct (Byte.eqb kind BatchSegmentKindL2Message
            || Byte.eqb kind BatchSegmentKindL2MessageBrotli).
  { destruct (if Byte.eqb kind BatchSegmentKindL2MessageBrotli
              then Decompress body arbostypes.MaxL2MessageSize
              else Some body);
      intros H; injection H as _ <-; split; reflexivity. }
  destruct (Byte.eqb kind BatchSegmentKindDelayedMessages);
    [|intros H; injection H as _ <-; split; reflexivity].
  destruct (afterDelayedMessages m <=? _);
    [intros H; injection H as _ <-; split; reflexivity|].
  destruct (ReadDelayedInbox _ _);
    intros H; injection H as _ <-; split; reflexivity.
Qed.

(** X13.  Over a lawful Backend whose position within the message is not
    at the end of [uint64], a call of [Pop] that returns leaves the cache
    coherent if it found it so: every multiplexer reached from a new one by
    such calls can be replaced by a new one. *)
Theorem Pop_cacheCoherent (r r' : mux) (res : PopResult) :
  LawfulBackend (B := B) ->
  cacheCoherent r ->
  0 <= GetPositionWithinMessage (backend r) < 2 ^ 64 - 1 ->
  Pop r = Returns (res, r') ->
  cacheCoherent r'.
Proof.
  intros Hlaw Hco Hpos. unfold Pop. intros HPop.
  destruct (loadBatch r) as [[[e r0]|r0]|hl] eqn:Hload; simpl in HPop;
    try discriminate.
  - injection HPop as _ <-.
    destruct (loadBatch_failed _ _ _ Hload)
      as (Hnone & Hnone' & (_ & _ & Hc1 & Hc2 & Hc3 & Hc4) & _).
    unfold cacheCoherent in *. rewrite Hnone in Hco. rewrite Hnone'.
    unfold cursorOf in *. now rewrite Hc1, Hc2, Hc3, Hc4.
  - destruct (loadBatch_loaded _ _ Hload)
      as (m & Hplay & Hm0 & Hb0 & _ & Hc1 & Hc2 & Hc3 & Hc4).
    destruct (loadBatch_config _ _ Hload) as [Hp0 Hk0].
    assert (Hcur0 : cursorOf r0 = cursorOf r)
      by (unfold cursorOf; now rewrite Hc1, Hc2, Hc3, Hc4).
    assert (Hfacts :
              (exists bytes h,
                  PeekSequencerInbox (backend r) = Ok (bytes, h) /\
                  parseSequencerMessage (GetSequencerInboxPosition (backend r))
                    h bytes (daProviders r) (keysetValidationMode r)
                  = Returns (Ok m)) /\
              seekCursor r0 m
              = walkSegments (segments m) (GetPositionWithinMessage (backend r))
                  zeroCursor).
    { unfold cacheCoherent, batchInPlay in *.
      destruct (cachedSequencerMessage r) as [cached|].
      - subst cached. destruct Hco as (Hpeek & reached & Hle & Hcur).
        split; [exact Hpeek|]. rewrite <- Hb0.
        apply seekCursor_from_start with reached; [now rewrite Hb0|].
        now rewrite Hcur0.
      - split; [exact Hplay|]. rewrite <- Hb0. apply seekCursor_at_zero.
        now rewrite Hcur0. }
    destruct Hfacts as [Hpeek Hseek].
    destruct (getNextMsg_frame r0 m Hm0)
      as (msg & err & r1 & Hget & Hm1 & Hb1 & Hcur1 & _).
    destruct (getNextMsg_config _ _ _ Hget) as [Hp1 Hk1].
    unfold popCached in HPop. rewrite Hget in HPop. simpl in HPop.
    destruct (IsCachedSegementLast r1) as [[|]|hl]; simpl in HPop;
      try discriminate; injection HPop as _ <-.
    + reflexivity.
    + unfold cacheCoherent, advanceSubMsg. cbn [cachedSequencerMessage setBackend backend
                                                 daProviders keysetValidationMode].
      rewrite Hm1, Hb1, Hb0, Hp1, Hp0, Hk1, Hk0.
      rewrite peek_set_within, position_set_within, get_set_within.
      split; [exact Hpeek|].
      exists (GetPositionWithinMessage (backend r)). split.
      * unfold add64. rewrite Z.mod_small; lia.
      * change (cursorOf (setBackend _ r1)) with (cursorOf r1).
        now rewrite Hcur1, Hseek.
Qed.

End Coherence.

Lemma Sim_lawful : LawfulBackend (be := Sim.inboxBackend).
Proof. split; reflexivity. Qed.

(** An instance of X13: a new multiplexer over a batch of two L2 messages;
    after one call of [Pop] the cache is coherent. *)
Lemma Pop_cacheCoherent_witness :
  exists r' : inboxMultiplexer (B := Sim.backend),
    stateAfter
      (Sim.pop (Sim.fresh
                  [Sim.brotliBatch Sim.zeroHeader
                     [(Byte.x00, Byte.x78); (Byte.x00, Byte.x79)]] [] 0))
    = Some r' /\
    cacheCoherent (be := Sim.inboxBackend) (hb := Sim.classifier)
      (cd := Sim.codecs) r'.
Proof.
  eassert (HPop : Sim.pop (Sim.fresh
                             [Sim.brotliBatch Sim.zeroHeader
                                [(Byte.x00, Byte.x78); (Byte.x00, Byte.x79)]] [] 0)
                  = Returns (_, _)) by (vm_compute; reflexivity).
  eexists. split; [unfold stateAfter; rewrite HPop; reflexivity|].
  apply (Pop_cacheCoherent (be := Sim.inboxBackend) (hb := Sim.classifier)
           (cd := Sim.codecs) (ac := Sim.constants) _ _ _ Sim_lawful) in HPop.
  - exact HPop.
  - reflexivity.
  - cbn. lia.
Defined.

(** ** What a call of [Pop] leaves behind *)

Section Progress.

Context {B : Type} {be : InboxBackend B}.
Context {hb : HeaderByteClassifier} {cd : Codecs} {ac : arbostypes.Constants}.

Let mux : Type := inboxMultiplexer (B := B).

Lemma IsCachedSegementLast_true_count (r : mux) (m : sequencerMessage) :
  cachedSequencerMessage r = Some m ->
  IsCachedSegementLast r = Returns true ->
  afterDelayedMessages m <= delayedMessagesRead r.
Proof.
  intros Hm. unfold IsCachedSegementLast. rewrite Hm.
  destruct (delayedMessagesRead r <? afterDelayedMessages m) eqn:E;
    [discriminate|]. apply Z.ltb_ge in E. intros _. exact E.
Qed.

(** The count that a message of [getNextMsg] carries is the count of the
    multiplexer after the call, but for the invalid message of a delayed
    segment beyond the batch's count, which carries that count. *)
Lemma getNextMsg_count (r r1 : mux) (m : sequencerMessage)
    (msg : arbostypes.MessageWithMetadata) (err : option error) :
  cachedSequencerMessage r = Some m ->
  getNextMsg r = Returns ((Some msg, err), r1) ->
  arbostypes.DelayedMessagesRead msg = delayedMessagesRead r1 \/
  (arbostypes.DelayedMessagesRead msg = afterDelayedMessages m /\
   afterDelayedMessages m <= delayedMessagesRead r /\
   delayedMessagesRead r1 = delayedMessagesRead r).
Proof.
  intros Hm. unfold getNextMsg. rewrite Hm.
  destruct (selectSegment m (seekCursor r m)) as [|kind body]; [discriminate|].
  destruct (Byte.eqb kind BatchSegmentKindL2Message
            || Byte.eqb kind BatchSegmentKindL2MessageBrotli).
  { destruct (if Byte.eqb kind BatchSegmentKindL2MessageBrotli
              then Decompress body arbostypes.MaxL2MessageSize
              else Some body); [|discriminate].
    intros H. injection H as <- _ <-. left. reflexivity. }
  destruct (Byte.eqb kind BatchSegmentKindDelayedMessages); [|discriminate].
  cbn [delayedMessagesRead setCursor backend].
  destruct (afterDelayedMessages m <=? delayedMessagesRead r) eqn:E.
  { apply Z.leb_le in E. intros H. injection H as <- _ <-. right.
    repeat split. exact E. }
  destruct (ReadDelayedInbox _ _); [|discriminate].
  intros H. injection H as <- _ <-. left. reflexivity.
Qed.

(** X14.  On a well-posted batch, with a count that is not negative, the
    count that a message returned by [Pop] carries is the value of
    [DelayedMessagesRead()] after the call. *)
Theorem Pop_message_count
    (r r' : mux) (msg : arbostypes.MessageWithMetadata) :
  wellPosted r -> 0 <= delayedMessagesRead r ->
  Pop r = Returns ((Some msg, None), r') ->
  arbostypes.DelayedMessagesRead msg = DelayedMessagesRead r'.
Proof.
  unfold Pop, DelayedMessagesRead. intros Hwp Hd0 HPop.
  destruct (loadBatch r) as [[[e r0]|r0]|hl] eqn:Hload; simpl in HPop;
    try discriminate.
  destruct (loadBatch_loaded _ _ Hload) as (m & Hplay & Hm0 & _ & Hd & _).
  destruct (Hwp m Hplay) as [Hle Hlt].
  destruct (getNextMsg_frame r0 m Hm0)
    as (msg0 & err0 & r1 & Hget & Hm1 & _ & _ & Hd1 & _).
  assert (Hr1 : delayedMessagesRead r1 <= afterDelayedMessages m).
  { destruct Hd1 as [->|(Hlt1 & -> & _)]; [lia|].
    unfold add64. rewrite Z.mod_small; lia. }
  unfold popCached in HPop. rewrite Hget in HPop. simpl in HPop.
  destruct (IsCachedSegementLast r1) as [last|hl] eqn:Hlast; simpl in HPop;
    try discriminate.
  injection HPop as Hmsg -> <-.
  assert (Hfinal : delayedMessagesRead
                     (if last then advanceSequencerMsg r1 else advanceSubMsg r1)
                   = delayedMessagesRead r1).
  { destruct last; [|reflexivity].
    pose proof (IsCachedSegementLast_true_count r1 m Hm1 Hlast).
    unfold advanceSequencerMsg. cbn. rewrite Hm1. lia. }
  destruct msg0 as [msg1|].
  - injection Hmsg as ->. rewrite Hfinal.
    destruct (getNextMsg_count r0 r1 m msg None Hm0 Hget) as [E|(E & Hge & Hsame)];
      [exact E|]. lia.
  - injection Hmsg as <-. reflexivity.
Qed.

(** X15.  Advance even on error.  With the cursor in range, a call of [Pop]
    that has a batch to work on returns, whatever [getNextMsg] met, and has
    then either left the batch (no batch cached, the cursor at zero, the
    count set to [afterDelayedMessages], the Backend's position within the
    message reset and the inbox advanced) or stayed in it with the position
    within the message raised by one in [uint64]. *)
Theorem Pop_advances (r : mux) (m : sequencerMessage) :
  cursorInRange r -> batchInPlay r m ->
  exists res r',
    Pop r = Returns (res, r') /\
    ((cachedSequencerMessage r' = None /\
      cursorOf r' = zeroCursor /\
      delayedMessagesRead r' = afterDelayedMessages m /\
      backend r' = AdvanceSequencerInbox (SetPositionWithinMessage 0 (backend r)))
     \/
     (cachedSequencerMessage r' = Some m /\
      backend r'
      = SetPositionWithinMessage
          (add64 (GetPositionWithinMessage (backend r)) 1) (backend r))).
Proof.
  intros Hin Hplay.
  destruct (Pop_inPlay r m Hplay) as (r0 & HPop & Hm0 & Hb0 & _ & Hc0 & _).
  assert (Hrange : 0 <= cachedSegmentNum r0 <= len (segments m) /\
                   len (segments m) <= MaxSegmentsPerSequencerMessage).
  { unfold cursorInRange, batchInPlay in *. rewrite Hc0.
    destruct (cachedSequencerMessage r) as [cached|].
    - now subst m.
    - destruct Hplay as (bytes & h & _ & Hparse).
      apply parseSequencerMessage_segments in Hparse.
      pose proof (Zle_0_nat (length (segments m))). unfold len in *. lia. }
  destruct Hrange as [Hc Hmax].
  destruct (getNextMsg_frame r0 m Hm0)
    as (msg & err & r1 & Hget & Hm1 & Hb1 & Hcur & _).
  pose proof (seekCursor_in_batch r0 m Hc) as Hseek.
  rewrite <- Hcur in Hseek. cbn in Hseek.
  destruct (IsCachedSegementLast_total r1 m Hm1) as [last Hlast].
  { unfold MaxSegmentsPerSequencerMessage in Hmax. lia. }
  rewrite HPop. unfold popCached. rewrite Hget. cbn. rewrite Hlast. cbn.
  do 2 eexists. split; [reflexivity|].
  destruct last; [left|right].
  - unfold advanceSequencerMsg. cbn. rewrite Hm1, Hb1, Hb0. repeat split.
  - unfold advanceSubMsg. cbn. rewrite Hm1, Hb1, Hb0. split; reflexivity.
Qed.

(** X16.  Along any run of [Pop] calls from a new multiplexer the cursor
    stays within the cached batch, a batch of at most
    [MaxSegmentsPerSequencerMessage] segments, and is zero when no batch is
    cached: no call indexes the segments out of range. *)
Theorem popMany_cursorInRange
    (n : nat) (b : B) (delayedRead : Z)
    (providers : list (option DataAvailabilityProvider))
    (mode : KeysetValidationMode) (results : list PopResult) (r : mux) :
  popMany n (NewInboxMultiplexer b delayedRead providers mode)
  = Returns (results, r) ->
  cursorInRange r.
Proof.
  pose proof (NewInboxMultiplexer_cursorInRange b delayedRead providers mode) as Hin.
  revert Hin results r.
  generalize (NewInboxMultiplexer b delayedRead providers mode).
  induction n as [|n IH]; intros r0 Hin results r Hrun.
  - cbn in Hrun. injection Hrun as _ <-. exact Hin.
  - simpl in Hrun.
    destruct (Pop r0) as [[res1 r1]|hl] eqn:HPop; simpl in Hrun; try discriminate.
    destruct (popMany n r1) as [[rest r2]|hl] eqn:Hrest; simpl in Hrun;
      try discriminate.
    injection Hrun as _ <-.
    apply (IH r1 (Pop_cursorInRange _ _ _ Hin HPop) rest r2 Hrest).
Qed.

End Progress.

(** ** The virtual delayed tail *)

Section VirtualTail.

Context {B : Type} {be : InboxBackend B}.
Context {hb : HeaderByteClassifier} {cd : Codecs} {ac : arbostypes.Constants}.

Let mux : Type := inboxMultiplexer (B := B).




End VirtualTail.

(** ** Instances of the properties above *)

Lemma walkSegments_stoppedAt_witness :
  stoppedAt (cd := Sim.codecs)
    [[Byte.x03; Byte.x05]; [Byte.x04; Byte.x02]; [Byte.x00; Byte.x78];
     [Byte.x00; Byte.x79]] 1 zeroCursor
    (walkSegments (cd := Sim.codecs)
       [[Byte.x03; Byte.x05]; [Byte.x04; Byte.x02]; [Byte.x00; Byte.x78];
        [Byte.x00; Byte.x79]] 1 zeroCursor).
Proof.
  apply (walkSegments_stoppedAt (cd := Sim.codecs)); unfold uint64; cbn; lia.
Defined.

Lemma Pop_message_count_witness :
  let r :=
    Sim.fresh [Sim.brotliBatch (Sim.header Byte.x00 Byte.x00 Byte.x00 Byte.x00
                                  Byte.x02)
                 [(Byte.x00, Byte.x78)]] [Byte.x61; Byte.x62] 0 in
  exists msg r',
    Sim.pop r = Returns ((Some msg, None), r') /\
    arbostypes.DelayedMessagesRead msg = DelayedMessagesRead r'.
Proof.
  intros r.
  eassert (HPop : Sim.pop r = Returns ((Some _, None), _))
    by (vm_compute; reflexivity).
  do 2 eexists. split; [exact HPop|].
  apply (Pop_message_count (be := Sim.inboxBackend) (hb := Sim.classifier)
           (cd := Sim.codecs) (ac := Sim.constants) r _ _); [| |exact HPop].
  - intros m (bytes & h & Hpeek & Hparse).
    inversion Hpeek; subst bytes h.
    vm_compute in Hparse. inversion Hparse; subst m. cbn. lia.
  - cbn. lia.
Defined.

Lemma Pop_advances_witness :
  let r :=
    Sim.fresh [Sim.brotliBatch Sim.zeroHeader
                 [(Byte.x00, Byte.x78); (Byte.x00, Byte.x79)]] [] 0 in
  exists m,
    batchInPlay (be := Sim.inboxBackend) (hb := Sim.classifier)
      (cd := Sim.codecs) r m /\
    exists res r',
      Sim.pop r = Returns (res, r') /\
      ((cachedSequencerMessage r' = None /\
        cursorOf r' = zeroCursor /\
        delayedMessagesRead r' = afterDelayedMessages m /\
        backend r'
        = @AdvanceSequencerInbox _ Sim.inboxBackend
            (@SetPositionWithinMessage _ Sim.inboxBackend 0 (backend r)))
       \/
       (cachedSequencerMessage r' = Some m /\
        backend r'
        = @SetPositionWithinMessage _ Sim.inboxBackend
            (add64 (@GetPositionWithinMessage _ Sim.inboxBackend (backend r)) 1)
            (backend r))).
Proof.
  intros r.
  eassert (Hplay : batchInPlay (be := Sim.inboxBackend) (hb := Sim.classifier)
                     (cd := Sim.codecs) r _).
  { eexists. eexists. split; [reflexivity|]. vm_compute. reflexivity. }
  eexists. split; [exact Hplay|].
  apply (Pop_advances (be := Sim.inboxBackend) (hb := Sim.classifier)
           (cd := Sim.codecs) (ac := Sim.constants) r _); [reflexivity|exact Hplay].
Defined.

Lemma popMany_cursorInRange_witness :
  exists results r,
    popMany (be := Sim.inboxBackend) (hb := Sim.classifier) (cd := Sim.codecs)
      (ac := Sim.constants) 3
      (NewInboxMultiplexer
         (Sim.backendOf
            [Sim.brotliBatch Sim.zeroHeader
               [(Byte.x00, Byte.x78); (Byte.x03, Byte.x05); (Byte.x00, Byte.x79)];
             Sim.zeroHeader] [])
         0 [] KeysetValidate)
    = Returns (results, r) /\
    cursorInRange r.
Proof.
  eassert (Hrun : popMany (be := Sim.inboxBackend) (hb := Sim.classifier)
                    (cd := Sim.codecs) (ac := Sim.constants) 3
                    (NewInboxMultiplexer
                       (Sim.backendOf
                          [Sim.brotliBatch Sim.zeroHeader
                             [(Byte.x00, Byte.x78); (Byte.x03, Byte.x05);
                              (Byte.x00, Byte.x79)];
                           Sim.zeroHeader] [])
                       0 [] KeysetValidate)
                  = Returns (_, _)) by (vm_compute; reflexivity).
  do 2 eexists. split; [exact Hrun|].
  exact (popMany_cursorInRange (be := Sim.inboxBackend) (hb := Sim.classifier)
           (cd := Sim.codecs) (ac := Sim.constants) _ _ _ _ _ _ _ Hrun).
Defined.


(** ** The LayerEdge writer *)

Section LayerEdgeStore.

Context {BlobPointer : Type} {bp : layeredge.BlobPointerCodec BlobPointer}.
Context {rpc : layeredge.LayerEdgeWriter} {availWriter : layeredge.Writer}.

(** X18.  [Store] returns data exactly when the Avail writer stored the
    message and returned data that is not empty, the data after its first
    byte unmarshal to a blob pointer, and LayerEdge accepted the block
    height of that pointer.  The data returned are then the writer's own,
    first byte included, and the calls made are the one on the writer
    followed by the one on LayerEdge with that height. *)
Theorem Store_success_iff
    (message : list byte) (timeout : Z) (disableFallbackStoreDataOnChain : bool)
    (data : list byte) (calls : list layeredge.call) :
  layeredge.Store message timeout disableFallbackStoreDataOnChain
  = (Returns (Ok data), calls)
  <->
  exists blobData,
    layeredge.Writer_Store message timeout disableFallbackStoreDataOnChain
    = Ok data /\
    data <> [] /\
    layeredge.UnmarshalFromBinary (tl data) = Ok blobData /\
    layeredge.AddBlockByNumber (layeredge.BlockHeight blobData) = None /\
    calls
    = [layeredge.CallWriterStore message timeout disableFallbackStoreDataOnChain;
       layeredge.CallAddBlockByNumber (layeredge.BlockHeight blobData)].
Proof.
  unfold layeredge.Store. split.
  - destruct (layeredge.Writer_Store _ _ _) as [stored|e]; [|discriminate].
    destruct stored as [|b rest]; [discriminate|].
    destruct (layeredge.UnmarshalFromBinary rest) as [blobData|e] eqn:Hun;
      [|discriminate].
    destruct (layeredge.AddBlockByNumber _) eqn:Hadd; [discriminate|].
    intros H. injection H as <- <-. exists blobData.
    repeat split; try assumption; discriminate.
  - intros (blobData & -> & Hne & Hun & Hadd & ->).
    destruct data as [|b rest]; [contradiction|]. cbn in Hun.
    now rewrite Hun, Hadd.
Qed.

(** X19.  Whatever [Store] does, it calls the writer first and once, and
    calls LayerEdge at most once, after it, and only with the block height
    of the pointer that the stored data, less their first byte, unmarshal
    to.  When LayerEdge then refuses, [Store] returns that error although
    the writer has stored the message; and stored data of length zero make
    it panic before LayerEdge is called. *)
Theorem Store_calls
    (message : list byte) (timeout : Z) (disableFallbackStoreDataOnChain : bool) :
  let run := layeredge.Store message timeout disableFallbackStoreDataOnChain in
  let stored :=
    layeredge.CallWriterStore message timeout disableFallbackStoreDataOnChain in
  (snd run = [stored] \/
   exists data blobData,
     layeredge.Writer_Store message timeout disableFallbackStoreDataOnChain
     = Ok data /\
     layeredge.UnmarshalFromBinary (tl data) = Ok blobData /\
     snd run
     = [stored; layeredge.CallAddBlockByNumber (layeredge.BlockHeight blobData)] /\
     forall err,
       layeredge.AddBlockByNumber (layeredge.BlockHeight blobData) = Some err ->
       fst run = Returns (Err err)) /\
  (layeredge.Writer_Store message timeout disableFallbackStoreDataOnChain = Ok [] ->
   run = (Halts RuntimePanic, [stored])).
Proof.
  cbv zeta. unfold layeredge.Store. split.
  - destruct (layeredge.Writer_Store _ _ _) as [data|e]; [|now left].
    destruct data as [|b rest]; [now left|].
    destruct (layeredge.UnmarshalFromBinary rest) as [blobData|e] eqn:Hun;
      [|now left].
    right. exists (b :: rest), blobData. split; [reflexivity|].
    split; [exact Hun|].
    destruct (layeredge.AddBlockByNumber _) eqn:Hadd; split; try reflexivity;
      intros err Herr; [injection Herr as ->; reflexivity|discriminate].
  - intros ->. reflexivity.
Qed.

End LayerEdgeStore.

Lemma Store_calls_witness :
  layeredge.Writer_Store (Writer := SimLayerEdge.writer) [Byte.xff] 0 false
  = Ok [Byte.x0a; Byte.xff] /\
  fst (layeredge.Store (bp := SimLayerEdge.blobPointerCodec)
         (rpc := SimLayerEdge.rpc) (availWriter := SimLayerEdge.writer)
         [Byte.xff] 0 false)
  = Returns (Err (ErrExternal 4)).
Proof.
  split; [reflexivity|].
  destruct (Store_calls (bp := SimLayerEdge.blobPointerCodec)
              (rpc := SimLayerEdge.rpc) (availWriter := SimLayerEdge.writer)
              [Byte.xff] 0 false)
    as [[Hcalls|(data & blobData & Hstored & Hun & _ & Hrefused)] _].
  - discriminate Hcalls.
  - apply Hrefused. injection Hstored as <-. injection Hun as <-. reflexivity.
Defined.


(** ** Which messages [Pop] emits, and in which order *)

Section Emission.

Context {B : Type} {be : InboxBackend B}.
Context {hb : HeaderByteClassifier} {cd : Codecs} {ac : arbostypes.Constants}.

Let mux : Type := inboxMultiplexer (B := B).

Lemma countSubMessages_nonneg (segs : list (list byte)) :
  0 <= countSubMessages segs.
Proof. unfold countSubMessages, len. lia. Qed.

Lemma countSubMessages_le_len (segs : list (list byte)) :
  countSubMessages segs <= len segs.
Proof.
  unfold countSubMessages, len. pose proof (filter_length_le isSubMessage segs). lia.
Qed.

(** The count of sub-messages among the first [k] segments grows with [k],
    and by one across a sub-message. *)
Lemma countSubMessages_firstn_le (segs : list (list byte)) (j k : nat) :
  (j <= k)%nat ->
  countSubMessages (firstn j segs) <= countSubMessages (firstn k segs).
Proof.
  revert j k. induction segs as [|s segs IH]; intros j k Hjk.
  - rewrite !firstn_nil. lia.
  - destruct j as [|j].
    + cbn [firstn]. apply countSubMessages_nonneg.
    + destruct k as [|k]; [lia|]. cbn [firstn].
      rewrite !countSubMessages_cons.
      pose proof (IH j k ltac:(lia)). lia.
Qed.

Lemma countSubMessages_firstn_S (segs : list (list byte)) (k : nat) :
  (k < length segs)%nat ->
  countSubMessages (firstn (S k) segs)
  = countSubMessages (firstn k segs)
    + (if isSubMessage (nth k segs []) then 1 else 0).
Proof.
  revert k. induction segs as [|s segs IH]; intros k Hk; [cbn in Hk; lia|].
  destruct k as [|k].
  - cbn [firstn nth]. rewrite countSubMessages_cons. cbn. lia.
  - cbn [length] in Hk.
    change (firstn (S (S k)) (s :: segs)) with (s :: firstn (S k) segs).
    change (firstn (S k) (s :: segs)) with (s :: firstn k segs).
    rewrite !countSubMessages_cons, IH by lia. cbn [nth]. lia.
Qed.

(** Later sub-messages stand at later indices. *)
Lemma countSubMessages_lt_index (segs : list (list byte)) (i i' : nat) :
  countSubMessages (firstn i segs) < countSubMessages (firstn i' segs) ->
  (i < i')%nat.
Proof.
  intros Hlt. destruct (Nat.lt_ge_cases i i') as [H|H]; [exact H|].
  pose proof (countSubMessages_firstn_le segs i' i H). lia.
Qed.

(** Two sub-message segments with the same number of sub-messages before
    them are the same segment. *)
Lemma subMessage_index_unique (segs : list (list byte)) (i i' : nat) :
  (i < length segs)%nat -> (i' < length segs)%nat ->
  isSubMessage (nth i segs []) = true ->
  isSubMessage (nth i' segs []) = true ->
  countSubMessages (firstn i segs) = countSubMessages (firstn i' segs) ->
  i = i'.
Proof.
  intros Hi Hi' Hs Hs' Hc.
  pose proof (countSubMessages_firstn_S segs i Hi) as HS.
  pose proof (countSubMessages_firstn_S segs i' Hi') as HS'.
  rewrite Hs in HS. rewrite Hs' in HS'.
  destruct (Nat.lt_trichotomy i i') as [Hlt|[E|Hgt]]; [|exact E|].
  - pose proof (countSubMessages_firstn_le segs (S i) i' ltac:(lia)). lia.
  - pose proof (countSubMessages_firstn_le segs (S i') i ltac:(lia)). lia.
Qed.

Lemma l2Payload_kind (segment l2msg : list byte) :
  l2Payload segment = Some l2msg ->
  exists kind body,
    segment = kind :: body /\
    (Byte.eqb kind BatchSegmentKindL2Message
     || Byte.eqb kind BatchSegmentKindL2MessageBrotli) = true /\
    (if Byte.eqb kind BatchSegmentKindL2MessageBrotli
     then Decompress body arbostypes.MaxL2MessageSize
     else Some body) = Some l2msg.
Proof.
  destruct segment as [|kind body]; [discriminate|]. cbn [l2Payload].
  intros H. exists kind, body. split; [reflexivity|].
  destruct (Byte.eqb kind BatchSegmentKindL2Message) eqn:E1.
  - apply kind_eqb_true in E1. subst kind. split; [reflexivity|exact H].
  - destruct (Byte.eqb kind BatchSegmentKindL2MessageBrotli); [|discriminate].
    split; [reflexivity|exact H].
Qed.

Lemma l2Payload_isSubMessage (segment l2msg : list byte) :
  l2Payload segment = Some l2msg -> isSubMessage segment = true.
Proof.
  intros H. destruct (l2Payload_kind _ _ H) as (kind & body & -> & Hk & _).
  cbn. apply orb_true_iff in Hk.
  destruct Hk as [Hk|Hk]; apply kind_eqb_true in Hk; subst kind; reflexivity.
Qed.

Lemma l2Payload_isMessageSegment (segment l2msg : list byte) :
  l2Payload segment = Some l2msg -> isMessageSegment segment.
Proof.
  intros H. destruct (l2Payload_kind _ _ H) as (kind & body & -> & Hk & _).
  apply isMessageSegment_cons. now rewrite Hk.
Qed.

(** The walk for sub-message [target] stops on the sub-message segment
    before which, from where the walk starts, the count reaches [target]. *)
Lemma walkSegments_finds_from
    (segs : list (list byte)) (target : Z) (i : nat) (c : cursor) :
  uint64 (timestamp c) -> uint64 (blockNumber c) ->
  0 <= submessageNumber c -> target < 2 ^ 64 ->
  (i < length segs)%nat ->
  isSubMessage (nth i segs []) = true ->
  submessageNumber c + countSubMessages (firstn i segs) = target ->
  segmentNum (walkSegments segs target c) = segmentNum c + Z.of_nat i /\
  timestamp (walkSegments segs target c)
  = (timestamp c
     + totalAdvance BatchSegmentKindAdvanceTimestamp (firstn i segs)) mod 2 ^ 64 /\
  blockNumber (walkSegments segs target c)
  = (blockNumber c
     + totalAdvance BatchSegmentKindAdvanceL1BlockNumber (firstn i segs)) mod 2 ^ 64.
Proof.
  intros Hts Hbn Hsub0 Ht. revert i c Hts Hbn Hsub0.
  induction segs as [|s segs IH]; intros i c Hts Hbn Hsub0 Hi Hsub Hcount;
    [cbn in Hi; lia|].
  assert (Hmod : forall x, uint64 (x mod 2 ^ 64))
    by (intros x; apply Z.mod_pos_bound; lia).
  destruct i as [|i].
  - cbn [nth firstn] in *. unfold countSubMessages, totalAdvance in *.
    cbn [filter map fold_right len length] in *. change (Z.of_nat 0) with 0 in *.
    rewrite !Z.add_0_r in *. unfold uint64 in Hts, Hbn.
    rewrite !Z.mod_small by lia.
    destruct s as [|kind body]; [discriminate|]. cbn [walkSegments].
    cbn [isSubMessage] in Hsub. apply negb_true_iff in Hsub. rewrite Hsub.
    destruct (submessageNumber c <? target) eqn:E; [apply Z.ltb_lt in E; lia|].
    repeat split.
  - cbn [length] in Hi. cbn [nth] in Hsub. cbn [firstn] in Hcount |- *.
    rewrite countSubMessages_cons in Hcount. rewrite !totalAdvance_cons.
    pose proof (countSubMessages_nonneg (firstn i segs)) as Hnn.
    assert (Hgo : forall c2,
               segmentNum c2 = segmentNum c + 1 ->
               timestamp c2
               = (timestamp c + advanceOf BatchSegmentKindAdvanceTimestamp s)
                 mod 2 ^ 64 ->
               blockNumber c2
               = (blockNumber c + advanceOf BatchSegmentKindAdvanceL1BlockNumber s)
                 mod 2 ^ 64 ->
               submessageNumber c2
               = submessageNumber c + (if isSubMessage s then 1 else 0) ->
               segmentNum (walkSegments segs target c2)
               = segmentNum c + Z.of_nat (S i) /\
               timestamp (walkSegments segs target c2)
               = (timestamp c
                  + (advanceOf BatchSegmentKindAdvanceTimestamp s
                     + totalAdvance BatchSegmentKindAdvanceTimestamp (firstn i segs)))
                 mod 2 ^ 64 /\
               blockNumber (walkSegments segs target c2)
               = (blockNumber c
                  + (advanceOf BatchSegmentKindAdvanceL1BlockNumber s
                     + totalAdvance BatchSegmentKindAdvanceL1BlockNumber
                         (firstn i segs)))
                 mod 2 ^ 64).
    { intros c2 Hs2 Hts2 Hbn2 Hsub2.
      destruct (IH i c2) as (Hs & Ht' & Hb'); try lia; try assumption.
      - rewrite Hts2. apply Hmod.
      - rewrite Hbn2. apply Hmod.
      - destruct (isSubMessage s); lia.
      - split; [lia|]. split.
        + rewrite Ht', Hts2, Z.add_mod_idemp_l by lia. f_equal. lia.
        + rewrite Hb', Hbn2, Z.add_mod_idemp_l by lia. f_equal. lia. }
    unfold uint64 in Hts, Hbn.
    destruct s as [|kind body].
    + cbn [walkSegments]. apply Hgo; cbn; rewrite ?Z.add_0_r, ?Z.mod_small by lia;
        reflexivity.
    + cbn [walkSegments].
      destruct (Byte.eqb kind BatchSegmentKindAdvanceTimestamp) eqn:Ek1.
      * pose proof (kind_not_advance kind Ek1) as Ek2. cbn [orb].
        destruct (StreamUint64 (NewStream body 16)) as [advancing|] eqn:Hadv;
          apply Hgo; cbn [segmentNum timestamp blockNumber submessageNumber
                          bumpSegment advanceOf isSubMessage];
          rewrite ?Ek1, ?Ek2, ?Hadv; cbn [orb negb];
          rewrite ?Z.add_0_r, ?Z.mod_small by lia; reflexivity.
      * destruct (Byte.eqb kind BatchSegmentKindAdvanceL1BlockNumber) eqn:Ek2;
          cbn [orb].
        -- destruct (StreamUint64 (NewStream body 16)) as [advancing|] eqn:Hadv;
             apply Hgo; cbn [segmentNum timestamp blockNumber submessageNumber
                             bumpSegment advanceOf isSubMessage];
             rewrite ?Ek1, ?Ek2, ?Hadv; cbn [orb negb];
             rewrite ?Z.add_0_r, ?Z.mod_small by lia; reflexivity.
        -- cbn [isSubMessage] in Hcount. rewrite Ek1, Ek2 in Hcount.
           cbn [orb negb] in Hcount.
           destruct (submessageNumber c <? target) eqn:E;
             [|apply Z.ltb_ge in E; lia].
           apply Hgo; cbn [segmentNum timestamp blockNumber submessageNumber
                           advanceOf isSubMessage];
             rewrite ?Ek1, ?Ek2; cbn [orb negb];
             rewrite ?Z.add_0_r, ?Z.mod_small by lia; try reflexivity.
           unfold add64. rewrite Z.mod_small by lia. reflexivity.
Qed.

(** What [Pop] works on when the cache is coherent: a multiplexer with the
    batch cached, the same Backend, count and configuration, and the cursor
    that a walk from the start of the batch gives. *)
Lemma Pop_coherent_seek (r : mux) (m : sequencerMessage) :
  cacheCoherent r -> batchInPlay r m ->
  exists r0,
    Pop r = popCached r0 /\
    cachedSequencerMessage r0 = Some m /\
    backend r0 = backend r /\
    delayedMessagesRead r0 = delayedMessagesRead r /\
    daProviders r0 = daProviders r /\
    keysetValidationMode r0 = keysetValidationMode r /\
    seekCursor r0 m
    = walkSegments (segments m) (GetPositionWithinMessage (backend r)) zeroCursor /\
    exists bytes h,
      PeekSequencerInbox (backend r) = Ok (bytes, h) /\
      parseSequencerMessage (GetSequencerInboxPosition (backend r))
        h bytes (daProviders r) (keysetValidationMode r)
      = Returns (Ok m).
Proof.
  intros Hco Hplay.
  destruct (loadBatch_inPlay r m Hplay)
    as (r0 & Hload & Hm0 & Hb0 & Hd0 & Hc1 & Hc2 & Hc3 & Hc4).
  destruct (loadBatch_config _ _ Hload) as [Hp0 Hk0].
  assert (Hcur0 : cursorOf r0 = cursorOf r)
    by (unfold cursorOf; now rewrite Hc1, Hc2, Hc3, Hc4).
  exists r0. split; [unfold Pop; now rewrite Hload|].
  do 5 (split; [assumption|]).
  unfold cacheCoherent, batchInPlay in *.
  destruct (cachedSequencerMessage r) as [cached|].
  - subst cached. destruct Hco as (Hpeek & reached & Hle & Hcur).
    split; [|exact Hpeek]. rewrite <- Hb0.
    apply seekCursor_from_start with reached; [now rewrite Hb0|].
    now rewrite Hcur0.
  - split; [|exact Hplay]. rewrite <- Hb0. apply seekCursor_at_zero.
    now rewrite Hcur0.
Qed.

(** [Pop] from the call of [getNextMsg] on, when the cursor stops on a
    segment that carries an L2 message. *)
Lemma popCached_emits (r0 : mux) (m : sequencerMessage) (i : nat)
    (segment l2msg : list byte) :
  cachedSequencerMessage r0 = Some m ->
  len (segments m) <= MaxSegmentsPerSequencerMessage ->
  segmentNum (seekCursor r0 m) = Z.of_nat i ->
  nth_error (segments m) i = Some segment ->
  l2Payload segment = Some l2msg ->
  exists last,
    IsCachedSegementLast (setCursor (seekCursor r0 m) r0) = Returns last /\
    popCached r0
    = Returns
        ((Some
            (l2Message
               (clamp (minL1Block m) (maxL1Block m) (blockNumber (seekCursor r0 m)))
               (clamp (minTimestamp m) (maxTimestamp m) (timestamp (seekCursor r0 m)))
               l2msg (delayedMessagesRead r0)),
          None),
         if last then advanceSequencerMsg (setCursor (seekCursor r0 m) r0)
         else advanceSubMsg (setCursor (seekCursor r0 m) r0)).
Proof.
  intros Hm0 Hmax Hsn Hnth Hpay.
  assert (Hi : (i < length (segments m))%nat)
    by (apply nth_error_Some; congruence).
  destruct (l2Payload_kind _ _ Hpay) as (kind & body & -> & Hk & Hdec).
  assert (Hsel : selectSegment m (seekCursor r0 m) = kind :: body).
  { unfold selectSegment. rewrite Hsn, Nat2Z.id.
    destruct (len (segments m) <=? Z.of_nat i) eqn:E;
      [apply Z.leb_le in E; unfold len in E; lia|].
    apply nth_error_nth. exact Hnth. }
  destruct (IsCachedSegementLast_total (setCursor (seekCursor r0 m) r0) m)
    as [last Hlast].
  { exact Hm0. }
  { cbn [setCursor cachedSegmentNum]. rewrite Hsn.
    unfold MaxSegmentsPerSequencerMessage, len in Hmax. lia. }
  exists last. split; [exact Hlast|].
  unfold popCached, getNextMsg. rewrite Hm0. cbv zeta. rewrite Hsel, Hk, Hdec.
  cbn [obind]. rewrite Hlast. reflexivity.
Qed.

(** With a segment that carries a message further on, the batch is not
    finished. *)
Lemma IsCachedSegementLast_later (r1 : mux) (m : sequencerMessage) (i i' : nat)
    (segment l2msg : list byte) :
  cachedSequencerMessage r1 = Some m ->
  len (segments m) <= MaxSegmentsPerSequencerMessage ->
  cachedSegmentNum r1 = Z.of_nat i -> (i < i')%nat ->
  nth_error (segments m) i' = Some segment ->
  l2Payload segment = Some l2msg ->
  IsCachedSegementLast r1 = Returns false.
Proof.
  intros Hm Hmax Hc Hlt Hnth Hpay.
  assert (Hi' : (i' < length (segments m))%nat)
    by (apply nth_error_Some; congruence).
  unfold MaxSegmentsPerSequencerMessage, len in Hmax.
  unfold IsCachedSegementLast. rewrite Hm.
  destruct (delayedMessagesRead r1 <? afterDelayedMessages m); [reflexivity|].
  rewrite next_index_exact by lia. rewrite Hc.
  destruct (Z.of_nat i + 1 <? len (segments m)) eqn:E;
    [|apply Z.ltb_ge in E; unfold len in E; lia].
  destruct (Z.of_nat i + 1 <? 0) eqn:E0; [apply Z.ltb_lt in E0; lia|].
  f_equal. destruct (noLaterMessage _) eqn:Hno; [|reflexivity].
  exfalso. rewrite noLaterMessage_spec in Hno.
  apply (Hno segment); [|exact (l2Payload_isMessageSegment _ _ Hpay)].
  apply In_skipn_iff. exists i'. split; [lia|exact Hnth].
Qed.

(** X20.  Which message a call of [Pop] emits.  With the cache coherent
    and the batch in play [m], let segment [i] carry an L2 message (kind
    [L2Message], or kind [L2MessageBrotli] with a body that decompresses)
    and let the number of sub-message segments before it be the Backend's
    position within the message.  Then [Pop] returns that L2 message, and
    no error, with the current count of delayed messages and, as timestamp
    and block number, the sums in [uint64] of the well-formed advances
    among the segments before it, clamped to the bounds of the batch
    header. *)
Theorem Pop_emits_submessage
    (r : mux) (m : sequencerMessage) (i : nat) (segment l2msg : list byte) :
  cacheCoherent r ->
  batchInPlay r m ->
  nth_error (segments m) i = Some segment ->
  l2Payload segment = Some l2msg ->
  countSubMessages (firstn i (segments m)) = GetPositionWithinMessage (backend r) ->
  exists r',
    Pop r
    = Returns ((Some (stampedMessage m i l2msg (delayedMessagesRead r)), None), r').
Proof.
  intros Hco Hplay Hnth Hpay Hcount.
  assert (Hi : (i < length (segments m))%nat)
    by (apply nth_error_Some; congruence).
  destruct (Pop_coherent_seek r m Hco Hplay)
    as (r0 & HPop & Hm0 & Hb0 & Hd0 & _ & _ & Hseek & bytes & h & _ & Hparse).
  pose proof (parseSequencerMessage_segments _ _ _ _ _ _ Hparse) as Hmax.
  pose proof (countSubMessages_firstn_le (segments m) i (length (segments m))
                ltac:(lia)) as Hle.
  rewrite firstn_all in Hle.
  pose proof (countSubMessages_le_len (segments m)) as Hlen.
  pose proof (countSubMessages_nonneg (firstn i (segments m))) as Hnn.
  unfold MaxSegmentsPerSequencerMessage in Hmax.
  destruct (walkSegments_finds_from (segments m)
              (GetPositionWithinMessage (backend r)) i zeroCursor)
    as (Hsn & Hts & Hbn);
    try (unfold uint64; cbn; lia).
  { rewrite (nth_error_nth _ _ _ Hnth). exact (l2Payload_isSubMessage _ _ Hpay). }
  rewrite <- Hseek in Hsn, Hts, Hbn.
  cbn [segmentNum timestamp blockNumber zeroCursor] in Hsn, Hts, Hbn.
  rewrite Z.add_0_l in Hsn, Hts, Hbn.
  destruct (popCached_emits r0 m i segment l2msg Hm0) as (last & _ & Hpop);
    try assumption.
  rewrite HPop, Hpop, Hts, Hbn, Hd0. eexists. reflexivity.
Qed.

(** X21.  Messages come out in segment order.  Over a lawful Backend, with
    the cache coherent and the batch in play [m], suppose that the
    sub-messages numbered from the Backend's position within the message
    onwards, [n] of them, are segments that carry an L2 message.  Then [n]
    calls of [Pop] return, and the call numbered [j] returns, without
    error, the L2 message of the sub-message numbered position plus [j],
    stamped by the advances before it; the count of delayed messages it
    carries is the one from before the calls. *)
Theorem popMany_emits_in_order (n : nat) (r : mux) (m : sequencerMessage) :
  LawfulBackend (B := B) ->
  cacheCoherent r ->
  batchInPlay r m ->
  (forall j, (j < n)%nat ->
     exists i segment l2msg,
       nth_error (segments m) i = Some segment /\
       l2Payload segment = Some l2msg /\
       countSubMessages (firstn i (segments m))
       = GetPositionWithinMessage (backend r) + Z.of_nat j) ->
  exists results r',
    popMany n r = Returns (results, r') /\
    length results = n /\
    forall j i segment l2msg,
      (j < n)%nat ->
      nth_error (segments m) i = Some segment ->
      l2Payload segment = Some l2msg ->
      countSubMessages (firstn i (segments m))
      = GetPositionWithinMessage (backend r) + Z.of_nat j ->
      nth_error results j
      = Some (Some (stampedMessage m i l2msg (delayedMessagesRead r)), None).
Proof.
  intros Hlaw. revert r.
  induction n as [|n IH]; intros r Hco Hplay Hsubs.
  - exists [], r. split; [reflexivity|]. split; [reflexivity|]. intros; lia.
  - destruct (Hsubs 0%nat ltac:(lia)) as (i0 & seg0 & msg0 & Hnth0 & Hpay0 & Hcount0).
    rewrite Z.add_0_r in Hcount0.
    assert (Hi0 : (i0 < length (segments m))%nat)
      by (apply nth_error_Some; congruence).
    destruct (Pop_coherent_seek r m Hco Hplay)
      as (r0 & HPop & Hm0 & Hb0 & Hd0 & Hp0 & Hk0 & Hseek & Hpeek).
    assert (Hmax : len (segments m) <= MaxSegmentsPerSequencerMessage).
    { destruct Hpeek as (bytes & h & _ & Hparse).
      exact (parseSequencerMessage_segments _ _ _ _ _ _ Hparse). }
    pose proof (countSubMessages_firstn_le (segments m) i0 (length (segments m))
                  ltac:(lia)) as Hle.
    rewrite firstn_all in Hle.
    pose proof (countSubMessages_le_len (segments m)) as Hlen.
    pose proof (countSubMessages_nonneg (firstn i0 (segments m))) as Hnn.
    assert (Hpos : 0 <= GetPositionWithinMessage (backend r) < 2 ^ 64 - 1)
      by (unfold MaxSegmentsPerSequencerMessage in Hmax; lia).
    destruct (walkSegments_finds_from (segments m)
                (GetPositionWithinMessage (backend r)) i0 zeroCursor)
      as (Hsn & Hts & Hbn);
      try (unfold uint64; cbn; lia).
    { rewrite (nth_error_nth _ _ _ Hnth0).
      exact (l2Payload_isSubMessage _ _ Hpay0). }
    rewrite <- Hseek in Hsn, Hts, Hbn.
    cbn [segmentNum timestamp blockNumber zeroCursor] in Hsn, Hts, Hbn.
    rewrite Z.add_0_l in Hsn, Hts, Hbn.
    destruct (popCached_emits r0 m i0 seg0 msg0 Hm0 Hmax Hsn Hnth0 Hpay0)
      as (last & Hlast & Hpop).
    rewrite Hts, Hbn, Hd0 in Hpop. fold (stampedMessage m i0 msg0 (delayedMessagesRead r)) in Hpop.
    rewrite <- HPop in Hpop.
    (* the first of the calls *)
    assert (Hfirst : forall j i segment l2msg,
               j = 0%nat ->
               nth_error (segments m) i = Some segment ->
               l2Payload segment = Some l2msg ->
               countSubMessages (firstn i (segments m))
               = GetPositionWithinMessage (backend r) + Z.of_nat j ->
               stampedMessage m i l2msg (delayedMessagesRead r)
               = stampedMessage m i0 msg0 (delayedMessagesRead r)).
    { intros j i segment l2msg -> Hnth Hpay Hcount. rewrite Z.add_0_r in Hcount.
      assert (Hi : (i < length (segments m))%nat)
        by (apply nth_error_Some; congruence).
      assert (i = i0).
      { apply (subMessage_index_unique (segments m)); try assumption.
        - rewrite (nth_error_nth _ _ _ Hnth).
          exact (l2Payload_isSubMessage _ _ Hpay).
        - rewrite (nth_error_nth _ _ _ Hnth0).
          exact (l2Payload_isSubMessage _ _ Hpay0).
        - congruence. }
      subst i. congruence. }
    destruct n as [|n].
    + do 2 eexists. split; [cbn [popMany]; rewrite Hpop; reflexivity|].
      split; [reflexivity|].
      intros j i segment l2msg Hj Hnth Hpay Hcount.
      assert (j = 0%nat) by lia. subst j. cbn [nth_error fst].
      now rewrite (Hfirst 0%nat i segment l2msg eq_refl Hnth Hpay Hcount).
    + (* the batch is not finished: the next sub-message is further on *)
      destruct (Hsubs 1%nat ltac:(lia))
        as (i1 & seg1 & msg1 & Hnth1 & Hpay1 & Hcount1).
      assert (Hlt : (i0 < i1)%nat)
        by (apply (countSubMessages_lt_index (segments m)); lia).
      set (r1 := setCursor (seekCursor r0 m) r0) in *.
      assert (Hnot : last = false).
      { assert (Hl : IsCachedSegementLast r1 = Returns false).
        { apply (IsCachedSegementLast_later r1 m i0 i1 seg1 msg1);
            first [assumption|exact Hm0|exact Hsn]. }
        congruence. }
      subst last.
      set (r2 := advanceSubMsg r1) in *.
      assert (Hb2 : backend r2
                    = SetPositionWithinMessage
                        (GetPositionWithinMessage (backend r) + 1) (backend r)).
      { unfold r2, advanceSubMsg, r1. cbn [setBackend backend setCursor].
        rewrite Hb0. unfold add64. rewrite Z.mod_small by lia. reflexivity. }
      assert (Hpos2 : GetPositionWithinMessage (backend r2)
                      = GetPositionWithinMessage (backend r) + 1)
        by (rewrite Hb2; apply get_set_within).
      assert (Hm2 : cachedSequencerMessage r2 = Some m) by exact Hm0.
      assert (Hd2 : delayedMessagesRead r2 = delayedMessagesRead r) by exact Hd0.
      assert (Hco2 : cacheCoherent r2).
      { unfold cacheCoherent. rewrite Hm2. split.
        - destruct Hpeek as (bytes & h & Hpk & Hparse). exists bytes, h.
          rewrite Hb2, peek_set_within, position_set_within.
          split; [exact Hpk|].
          change (daProviders r2) with (daProviders r0).
          change (keysetValidationMode r2) with (keysetValidationMode r0).
          rewrite Hp0, Hk0. exact Hparse.
        - exists (GetPositionWithinMessage (backend r)). split; [lia|].
          change (cursorOf r2) with (cursorOf r1). unfold r1.
          rewrite cursorOf_setCursor. exact Hseek. }
      assert (Hplay2 : batchInPlay r2 m)
        by (unfold batchInPlay; now rewrite Hm2).
      destruct (IH r2 Hco2 Hplay2) as (rest & r' & Hrun & Hlen' & Hrest).
      { intros j Hj. destruct (Hsubs (S j) ltac:(lia))
          as (i & segment & l2msg & Hnth & Hpay & Hcount).
        exists i, segment, l2msg. repeat split; try assumption.
        rewrite Hpos2, Hcount. lia. }
      exists ((Some (stampedMessage m i0 msg0 (delayedMessagesRead r)), None) :: rest), r'.
      split.
      { change (popMany (S (S n)) r)
          with (step <- Pop r ;; rest0 <- popMany (S n) (snd step) ;;
                Returns (fst step :: fst rest0, snd rest0)).
        rewrite Hpop. cbn [obind fst snd]. fold r2. rewrite Hrun. reflexivity. }
      split; [cbn [length]; now rewrite Hlen'|].
      intros [|j] i segment l2msg Hj Hnth Hpay Hcount.
      * cbn [nth_error].
        now rewrite (Hfirst 0%nat i segment l2msg eq_refl Hnth Hpay Hcount).
      * cbn [nth_error]. rewrite <- Hd2.
        apply (Hrest j i segment l2msg); try assumption; [lia|].
        rewrite Hpos2, Hcount. lia.
Qed.

End Emission.

Lemma Pop_emits_submessage_witness :
  let r :=
    Sim.fresh [Sim.brotliBatch (Sim.header Byte.x00 Byte.x64 Byte.x0a Byte.x64
                                  Byte.x00)
                 [(Byte.x03, Byte.x05); (Byte.x04, Byte.x02);
                  (Byte.x00, Byte.x78)]] [] 0 in
  exists r',
    Sim.pop r
    = Returns ((Some (l2Message (ac := Sim.constants) 10 5 [Byte.x78] 0), None), r').
Proof.
  intros r.
  eassert (Hplay : batchInPlay (be := Sim.inboxBackend) (hb := Sim.classifier)
                     (cd := Sim.codecs) r _).
  { eexists. eexists. split; [reflexivity|]. vm_compute. reflexivity. }
  match type of Hplay with
  | batchInPlay _ ?m =>
      destruct (Pop_emits_submessage (be := Sim.inboxBackend)
                  (hb := Sim.classifier) (cd := Sim.codecs)
                  (ac := Sim.constants) r m 2 [Byte.x00; Byte.x78] [Byte.x78])
        as [r' HPop]
  end.
  - reflexivity.
  - exact Hplay.
  - reflexivity.
  - reflexivity.
  - reflexivity.
  - exists r'. exact HPop.
Defined.

Lemma popMany_emits_in_order_witness :
  let r :=
    Sim.fresh [Sim.brotliBatch Sim.zeroHeader
                 [(Byte.x00, Byte.x78); (Byte.x03, Byte.x05);
                  (Byte.x00, Byte.x79)]] [] 0 in
  exists results r',
    popMany (be := Sim.inboxBackend) (hb := Sim.classifier) (cd := Sim.codecs)
      (ac := Sim.constants) 2 r = Returns (results, r') /\
    nth_error results 1
    = Some (Some (l2Message (ac := Sim.constants) 0 0 [Byte.x79] 0), None).
Proof.
  intros r.
  eassert (Hplay : batchInPlay (be := Sim.inboxBackend) (hb := Sim.classifier)
                     (cd := Sim.codecs) r _).
  { eexists. eexists. split; [reflexivity|]. vm_compute. reflexivity. }
  match type of Hplay with
  | batchInPlay _ ?m =>
      destruct (popMany_emits_in_order (be := Sim.inboxBackend)
                  (hb := Sim.classifier) (cd := Sim.codecs)
                  (ac := Sim.constants) 2 r m Sim_lawful)
        as (results & r' & Hrun & _ & Hnth)
  end.
  - reflexivity.
  - exact Hplay.
  - intros j Hj. destruct j as [|[|j]]; [| |lia].
    + exists 0%nat, [Byte.x00; Byte.x78], [Byte.x78]. repeat split.
    + exists 2%nat, [Byte.x00; Byte.x79], [Byte.x79]. repeat split.
  - exists results, r'. split; [exact Hrun|].
    apply (Hnth 1%nat 2%nat [Byte.x00; Byte.x79] [Byte.x79]);
      [lia|reflexivity|reflexivity|reflexivity].
Defined.
